(** * Tenant model materialisation: connection manager, tiered cache, registry

    A shallow embedding of [src/services/CacheManager.js],
    [src/services/TenantConnectionManager.js] and the
    [DistributedModelRegistry] service.

    Asynchronous JavaScript is embedded as a tree of atomic actions
    ([Task]): every access to shared state is one action, the event loop
    may switch callers between any two actions, and [run] executes a
    single caller to completion.  What the process cannot decide (Redis
    replies, the signals of a MongoDB connection, failures of
    [connection.model] and [createIndexes]) is read from scripts that are
    part of the state, so every definition computes. *)

From stdpp Require Import gmap strings list pretty.
From Stdlib Require Import ZArith.

Open Scope string_scope.
Open Scope Z_scope.

(* ===================================================================== *)
(** ** JavaScript values, errors and outcomes of a promise *)
(* ===================================================================== *)

Module Js.

(** The values the cache carries.  Numbers are integers (no NaN, no
    fractions) and there is no [undefined] value: a missing property or
    map entry is [None]. Objects keep their properties in insertion
    order. *)
#[warnings="-register-all"]
Inductive jsval : Type :=
| VNull
| VBool (b : bool)
| VNum (n : Z)
| VStr (s : string)
| VObj (fields : list (string * jsval)).

(** [if (v)] *)
Definition truthy (v : jsval) : bool :=
  match v with
  | VNull => false
  | VBool b => b
  | VNum n => negb (n =? 0)
  | VStr s => negb (String.eqb s "")
  | VObj _ => true
  end.

(** [if (x)] for a value that may be [undefined]. *)
Definition truthy_opt (v : option jsval) : bool :=
  match v with
  | Some x => truthy x
  | None => false
  end.

(** [o[k]] *)
Fixpoint assoc {A} (k : string) (l : list (string * A)) : option A :=
  match l with
  | [] => None
  | (k', x) :: l' => if String.eqb k k' then Some x else assoc k l'
  end.

(** [o[k] = x]: an existing property keeps its place. *)
Fixpoint assign {A} (k : string) (x : A) (l : list (string * A))
  : list (string * A) :=
  match l with
  | [] => [(k, x)]
  | (k', y) :: l' =>
      if String.eqb k k' then (k, x) :: l' else (k', y) :: assign k x l'
  end.

(** The property names a plain object inherits from
    [Object.prototype]. *)
Definition Object_prototype : list string :=
  ["constructor"; "__defineGetter__"; "__defineSetter__"; "hasOwnProperty";
   "__lookupGetter__"; "__lookupSetter__"; "isPrototypeOf";
   "propertyIsEnumerable"; "toString"; "valueOf"; "__proto__";
   "toLocaleString"].

Definition inherited (k : string) : bool :=
  bool_decide (k ∈ Object_prototype).

(** [o[k] = x] for a plain object [o]: as [assign], but for
    ["__proto__"] the assignment is taken by the accessor of
    [Object.prototype] and adds no own property. *)
Definition put {A} (k : string) (x : A) (l : list (string * A))
  : list (string * A) :=
  if String.eqb k "__proto__" then l else assign k x l.

Definition prop (k : string) (v : jsval) : option jsval :=
  match v with
  | VObj fields => assoc k fields
  | _ => None
  end.

(** [x === s] for a string literal [s] *)
Definition strictEq (x : option jsval) (s : string) : bool :=
  match x with
  | Some (VStr s') => String.eqb s' s
  | _ => false
  end.

Inductive JsError : Type :=
| Error (message : string)
| TypeError (message : string)
| SyntaxError (message : string).

(** How an awaited call ends: it returns, it throws, or its promise is
    never settled. *)
Inductive Outcome (A : Type) : Type :=
| Returned (a : A)
| Thrown (e : JsError)
| Pending.
Arguments Returned {A} a.
Arguments Thrown {A} e.
Arguments Pending {A}.

End Js.
Export Js.

(* ===================================================================== *)
(** ** Tasks: asynchronous code as a tree of atomic actions *)
(* ===================================================================== *)

Module Async.

Section Task.
Context {W : Type}.

(** [Act f k]: run [f] on the shared state in one go, then continue
    with [k].  [f w = None] means the action cannot run in [w] (a held
    mutex, an event that has not arrived): the caller stays
    suspended. *)
Inductive Task (A : Type) : Type :=
| Fin (o : Outcome A)
| Act {B : Type} (f : W → option (B * W)) (k : B → Task A).
Arguments Fin {A} o.
Arguments Act {A B} f k.

Definition ret {A} (a : A) : Task A := Fin (Returned a).
Definition throw {A} (e : JsError) : Task A := Fin (Thrown e).

(** A total action. *)
Definition act {B} (f : W → B * W) : Task B :=
  Act (λ w, Some (f w)) ret.

Definition read {B} (f : W → B) : Task B := act (λ w, (f w, w)).
Definition write (f : W → W) : Task unit := act (λ w, (tt, f w)).

Fixpoint bind {A B} (t : Task A) (g : A → Task B) : Task B :=
  match t with
  | Fin (Returned a) => g a
  | Fin (Thrown e) => Fin (Thrown e)
  | Fin Pending => Fin Pending
  | Act f k => Act f (λ b, bind (k b) g)
  end.

(** [try { t } catch (error) { h error }] *)
Fixpoint catch {A} (t : Task A) (h : JsError → Task A) : Task A :=
  match t with
  | Fin (Thrown e) => h e
  | Fin o => Fin o
  | Act f k => Act f (λ b, catch (k b) h)
  end.

(** [try { t } finally { c }] for a clean-up [c] that is one state
    update. *)
Fixpoint finally {A} (t : Task A) (c : W → W) : Task A :=
  match t with
  | Fin Pending => Fin Pending
  | Fin o => Act (λ w, Some (tt, c w)) (λ _, Fin o)
  | Act f k => Act f (λ b, finally (k b) c)
  end.

(** One caller alone, to completion.  A caller whose next action can
    never run stays pending. *)
Fixpoint run {A} (t : Task A) (w : W) : W * Outcome A :=
  match t with
  | Fin o => (w, o)
  | Act f k =>
      match f w with
      | Some (b, w') => run (k b) w'
      | None => (w, Pending)
      end
  end.

(** One turn of the event loop for one caller. *)
Definition step {A} (t : Task A) (w : W) : option (Task A * W) :=
  match t with
  | Fin _ => None
  | Act f k =>
      match f w with
      | Some (b, w') => Some (k b, w')
      | None => None
      end
  end.

Definition result {A} (t : Task A) : option (Outcome A) :=
  match t with
  | Fin o => Some o
  | Act _ _ => None
  end.

End Task.
Arguments Task : clear implicits.
Arguments Fin {W A} o.
Arguments Act {W A B} f k.

(** A task of a component run inside a larger state. *)
Fixpoint lift {S W A} (get : W → S) (put : S → W → W) (t : Task S A)
  : Task W A :=
  match t with
  | Fin o => Fin o
  | Act f k =>
      Act (λ w, match f (get w) with
                | Some (b, s') => Some (b, put s' w)
                | None => None
                end)
          (λ b, lift get put (k b))
  end.

End Async.
Export Async.

Notation "'let*' x ':=' t 'in' u" := (bind t (λ x, u))
  (at level 10, x name, t at level 100, u at level 200,
   format "'[v' 'let*'  x  ':='  t  'in' '/' u ']'").
Notation "t ;; u" := (bind t (λ _, u))
  (at level 100, u at level 200, right associativity).

(* ===================================================================== *)
(** ** CacheManager.js: the two-tier cache *)
(* ===================================================================== *)

Module CacheManager.

(** A text held by Redis, named by what [JSON.parse] makes of it: the
    text of a value ([JSON.stringify] of a [jsval] parses back to it), a
    non-empty text that is not JSON, or the empty text. *)
Inductive RedisText : Type :=
| JsonText (v : jsval)
| MalformedText
| EmptyText.

(** The Redis client and the server behind it.  [replies] scripts the
    commands to come: [Some e] rejects the next command with [e],
    [None] (and an exhausted script) lets it through.  An entry keeps
    the expiry in seconds it was written with; expiry itself is not
    modelled. *)
Record RedisClient : Type := {
  store : gmap string (Z * RedisText);
  replies : list (option JsError);
}.

(** [l1Cache] is the LRU cache as a map: eviction and the five-minute
    ttl do not happen between the calls looked at here. *)
Record State : Type := {
  l1Cache : gmap string jsval;
  l2Client : option RedisClient;
  isRedisConnected : bool;
}.

Definition with_l1Cache (f : gmap string jsval → gmap string jsval)
    (cm : State) : State :=
  {| l1Cache := f (l1Cache cm);
     l2Client := l2Client cm;
     isRedisConnected := isRedisConnected cm |}.

Definition with_l2Client (c : RedisClient) (cm : State) : State :=
  {| l1Cache := l1Cache cm;
     l2Client := Some c;
     isRedisConnected := isRedisConnected cm |}.

(** [redisConfig.keyPrefix.models] and [appConfig.cache.l2.ttl] (the
    defaults of the configuration files). *)
Definition keyPrefix_models : string := "models:".
Definition appConfig_cache_l2_ttl : Z := 1800000.

Definition generateKey (tenantId : string) : string :=
  keyPrefix_models +:+ tenantId.

(** One command sent through [this.l2Client]. *)
Definition command {B}
    (op : gmap string (Z * RedisText) → B * gmap string (Z * RedisText))
  : Task State B :=
  let* reply := act (λ cm,
    match l2Client cm with
    | None => (inl (TypeError "Cannot read properties of null"), cm)
    | Some c =>
        match replies c with
        | Some e :: rest =>
            (inl e, with_l2Client {| store := store c; replies := rest |} cm)
        | _ =>
            let '(b, s) := op (store c) in
            (inr b,
             with_l2Client {| store := s; replies := tail (replies c) |} cm)
        end
    end) in
  match reply with
  | inl e => throw e
  | inr b => ret b
  end.

Definition l2Client_get (key : string) : Task State (option RedisText) :=
  command (λ s, (snd <$> s !! key, s)).

Definition l2Client_setEx (key : string) (seconds : Z) (text : RedisText)
  : Task State unit :=
  command (λ s, (tt, <[key := (seconds, text)]> s)).

Definition l2Client_del (keys : list string) : Task State unit :=
  command (λ s, (tt, foldr base.delete s keys)).

Definition l2Client_keys (prefix : string) : Task State (list string) :=
  command (λ s, (filter (λ k, String.prefix prefix k = true)
                        (fst <$> map_to_list s), s)).

(** [if (l2Value)] on the reply of [GET]: [null] and the empty string
    are falsy. *)
Definition text_truthy (l2Value : option RedisText) : bool :=
  match l2Value with
  | Some (JsonText _) | Some MalformedText => true
  | Some EmptyText | None => false
  end.

Definition JSON_parse (l2Value : option RedisText) : Task State jsval :=
  match l2Value with
  | Some (JsonText v) => ret v
  | _ => throw (SyntaxError "Unexpected token in JSON")
  end.

Definition JSON_stringify (value : jsval) : RedisText := JsonText value.

(** [this.isRedisConnected && this.l2Client] *)
Definition l2Ready (cm : State) : bool :=
  isRedisConnected cm && bool_decide (is_Some (l2Client cm)).

(** The tier-2 half of [get]: the inner block yields [Some v] where the
    source returns [v] from inside the [try]. *)
Definition get_l2 (key : string) : Task State jsval :=
  let* ready := read l2Ready in
  let* hit :=
    (if ready then
       catch (let* l2Value := l2Client_get key in
              if text_truthy l2Value then
                let* parsedValue := JSON_parse l2Value in
                write (with_l1Cache <[key := parsedValue]>);;
                ret (Some parsedValue)
              else ret None)
             (λ error, ret None)
     else ret None) in
  match hit with
  | Some parsedValue => ret parsedValue
  | None => ret VNull
  end.

(** [get(tenantId)]: tier 1 first, then tier 2. *)
Definition get (tenantId : string) : Task State jsval :=
  let key := generateKey tenantId in
  let* l1Value := read (λ cm, l1Cache cm !! key) in
  match l1Value with
  | Some v => if truthy v then ret v else get_l2 key
  | None => get_l2 key
  end.

(** [ttl || appConfig.cache.l2.ttl] *)
Definition redisTTL (ttl : option Z) : Z :=
  match ttl with
  | Some n => if n =? 0 then appConfig_cache_l2_ttl else n
  | None => appConfig_cache_l2_ttl
  end.

(** [set(tenantId, value, ttl = null)] *)
Definition set (tenantId : string) (value : jsval) (ttl : option Z)
  : Task State unit :=
  let key := generateKey tenantId in
  write (with_l1Cache <[key := value]>);;
  let* ready := read l2Ready in
  if ready then
    catch (let serialized := JSON_stringify value in
           l2Client_setEx key (redisTTL ttl / 1000) serialized)
          (λ error, ret tt)
  else ret tt.

(** [delete(tenantId)] *)
Definition delete (tenantId : string) : Task State unit :=
  let key := generateKey tenantId in
  write (with_l1Cache (base.delete key));;
  let* ready := read l2Ready in
  if ready then
    catch (l2Client_del [key]) (λ error, ret tt)
  else ret tt.

(** The tier-2 half of [clear()], from the check of the connection
    on. *)
Definition clear_l2 : Task State unit :=
  let* ready := read l2Ready in
  if ready then
    catch (let* keys := l2Client_keys keyPrefix_models in
           if bool_decide (keys = []) then ret tt else l2Client_del keys)
          (λ error, ret tt)
  else ret tt.

(** [clear()] *)
Definition clear : Task State unit :=
  write (with_l1Cache (λ _, ∅));;
  clear_l2.

Definition isL2Available (cm : State) : bool := isRedisConnected cm.

End CacheManager.

(* ===================================================================== *)
(** ** The MongoDB driver as the connection manager sees it *)
(* ===================================================================== *)

Module Mongoose.

(** Schema definitions are opaque here. [MasterDataSchema] is the
    export of [models/MasterData.js]; the others are the schemas of
    [models/index.js]. *)
Inductive Schema : Type :=
| MasterDataSchema
| AppSchema (id : nat).

(** A model handle: a schema bound to one connection. *)
Record Model : Type := {
  modelName : string;
  schema : Schema;
  db : nat;
  collectionName : string;
}.

(** What the registry holds under a model name.  [connection.models]
    and the [models] object the registry builds are plain objects, and
    [o[name]] on a plain object also finds the members of
    [Object.prototype]: [Bound m] is a Mongoose model, [Builtin name] is
    [Object.prototype[name]] (a function, or for ["__proto__"] the
    prototype itself; truthy in either case). *)
Inductive Handle : Type :=
| Bound (m : Model)
| Builtin (name : string).

(** [o[name]] for a plain object whose own property [name], if there is
    one, is [own].  No plain object has an own property ["__proto__"]
    unless it is defined as one (by a literal or [JSON.parse]), which
    neither Mongoose nor the registry does for these objects. *)
Definition member (own : option Handle) (name : string) : option Handle :=
  if String.eqb name "__proto__" then Some (Builtin name)
  else match own with
       | Some h => Some h
       | None => if inherited name then Some (Builtin name) else None
       end.

Inductive ConnEvent : Type :=
| EvConnected
| EvError (err : JsError)
| EvDisconnected
| EvReconnected.

(** A connection object. [signals] is what it will emit from now on,
    in order. *)
Record Connection : Type := {
  name : string;
  readyState : Z;
  models : gmap string Model;
  signals : list ConnEvent;
}.

(** The driver: the connection objects by reference, and the scripts
    of what is not decided by this process.  An exhausted script is a
    healthy environment: a new connection connects, [close],
    [connection.model] and [createIndexes] succeed. *)
Record Driver : Type := {
  objects : gmap nat Connection;
  opens : list (list ConnEvent);
  closes : list (option JsError);
  modelFaults : list (option JsError);
  indexFaults : list (option JsError);
  toCollectionName : string → string;
}.

Definition with_objects (f : gmap nat Connection → gmap nat Connection)
    (d : Driver) : Driver :=
  {| objects := f (objects d); opens := opens d; closes := closes d;
     modelFaults := modelFaults d; indexFaults := indexFaults d;
     toCollectionName := toCollectionName d |}.

Definition closedConnection : Connection :=
  {| name := ""; readyState := 0; models := ∅; signals := [] |}.

Definition deref (d : Driver) (connection : nat) : Connection :=
  default closedConnection (objects d !! connection).

(** [mongoose.createConnection(uri, {dbName, ...})]: a fresh object in
    state 2 (connecting) whose signals are the next entry of [opens]. *)
Definition createConnection (dbName : string) (d : Driver) : nat * Driver :=
  let connection := fresh (dom (objects d)) in
  (connection,
   {| objects :=
        <[connection := {| name := dbName; readyState := 2; models := ∅;
                           signals := match opens d with
                                      | s :: _ => s
                                      | [] => [EvConnected]
                                      end |}]> (objects d);
      opens := tail (opens d); closes := closes d;
      modelFaults := modelFaults d; indexFaults := indexFaults d;
      toCollectionName := toCollectionName d |}).

(** A promise whose executor registered [once('connected', resolve)]
    and, when [rejectOnError], [once('error', reject)], followed through
    the signals: how it settles, the [readyState] then, the signals
    left.  [Pending]: no signal settles it. *)
Fixpoint listen (rejectOnError : bool) (sigs : list ConnEvent) (state : Z)
  : Outcome unit * Z * list ConnEvent :=
  match sigs with
  | [] => (Pending, state, [])
  | EvConnected :: rest => (Returned tt, 1, rest)
  | EvError err :: rest =>
      if rejectOnError then (Thrown err, state, rest)
      else listen rejectOnError rest state
  | EvDisconnected :: rest => listen rejectOnError rest 0
  | EvReconnected :: rest => listen rejectOnError rest 1
  end.

Definition listened (connection : nat) (state : Z) (rest : list ConnEvent)
    (d : Driver) : Driver :=
  with_objects (alter (λ c, {| name := name c; readyState := state;
                               models := models c; signals := rest |})
                      connection) d.

(** [await connection.close()] *)
Definition close (connection : nat) (d : Driver) : (JsError + unit) * Driver :=
  match closes d with
  | Some e :: rest =>
      (inl e,
       {| objects := objects d; opens := opens d; closes := rest;
          modelFaults := modelFaults d; indexFaults := indexFaults d;
          toCollectionName := toCollectionName d |})
  | _ =>
      (inr tt,
       {| objects := alter (λ c, {| name := name c; readyState := 0;
                                    models := models c; signals := signals c |})
                           connection (objects d);
          opens := opens d; closes := tail (closes d);
          modelFaults := modelFaults d; indexFaults := indexFaults d;
          toCollectionName := toCollectionName d |})
  end.

(** [connection.model(name, schema)]: compiles the model and records it
    in [connection.models]. *)
Definition model (connection : nat) (modelName : string) (schema : Schema)
    (d : Driver) : (JsError + Model) * Driver :=
  match modelFaults d with
  | Some e :: rest =>
      (inl e,
       {| objects := objects d; opens := opens d; closes := closes d;
          modelFaults := rest; indexFaults := indexFaults d;
          toCollectionName := toCollectionName d |})
  | _ =>
      let m := {| modelName := modelName; schema := schema; db := connection;
                  collectionName := toCollectionName d modelName |} in
      (inr m,
       {| objects := alter (λ c, {| name := name c; readyState := readyState c;
                                    models := <[modelName := m]> (models c);
                                    signals := signals c |})
                           connection (objects d);
          opens := opens d; closes := closes d;
          modelFaults := tail (modelFaults d); indexFaults := indexFaults d;
          toCollectionName := toCollectionName d |})
  end.

(** [await model.createIndexes()] *)
Definition createIndexes (d : Driver) : (JsError + unit) * Driver :=
  (match indexFaults d with
   | Some e :: _ => inl e
   | _ => inr tt
   end,
   {| objects := objects d; opens := opens d; closes := closes d;
      modelFaults := modelFaults d; indexFaults := tail (indexFaults d);
      toCollectionName := toCollectionName d |}).

End Mongoose.
Export Mongoose(Schema, MasterDataSchema, AppSchema, Model, Handle, Bound,
                Builtin, ConnEvent, EvConnected, EvError, EvDisconnected,
                EvReconnected).

(* ===================================================================== *)
(** ** TenantConnectionManager.js *)
(* ===================================================================== *)

Module TenantConnectionManager.

(** [connections] holds references into the driver's objects. [clock]
    is what [Date.now()] returns. *)
Record State : Type := {
  connections : gmap string nat;
  connectionTimestamps : gmap string Z;
  clock : Z;
  mongoose : Mongoose.Driver;
}.

Definition with_mongoose (f : Mongoose.Driver → Mongoose.Driver)
    (s : State) : State :=
  {| connections := connections s;
     connectionTimestamps := connectionTimestamps s;
     clock := clock s; mongoose := f (mongoose s) |}.

(** [dbConfig.tenant.dbPrefix] *)
Definition dbPrefix : string := "tenant_".

Definition orThrow {A} (r : JsError + A) : Task State A :=
  match r with
  | inl e => throw e
  | inr a => ret a
  end.

(** An action of the driver. *)
Definition driver {A} (f : Mongoose.Driver → A * Mongoose.Driver)
  : Task State A :=
  act (λ s, let '(a, d) := f (mongoose s) in (a, with_mongoose (λ _, d) s)).

Definition updateTimestamp (tenantId : string) : Task State unit :=
  write (λ s, {| connections := connections s;
                 connectionTimestamps :=
                   <[tenantId := clock s]> (connectionTimestamps s);
                 clock := clock s; mongoose := mongoose s |}).

(** [await new Promise(...)] on the signals of [connection]: with
    [timer = Some e] a [setTimeout] rejects the promise with [e] when no
    signal has settled it; without a timer the caller stays suspended. *)
Definition awaitSignals (rejectOnError : bool) (timer : option JsError)
    (connection : nat) : Task State unit :=
  Act (λ s,
    let c := Mongoose.deref (mongoose s) connection in
    match Mongoose.listen rejectOnError (Mongoose.signals c)
                          (Mongoose.readyState c) with
    | (Pending, state, rest) =>
        match timer with
        | Some e =>
            Some (inl e,
                  with_mongoose (Mongoose.listened connection state rest) s)
        | None => None
        end
    | (Thrown e, state, rest) =>
        Some (inl e, with_mongoose (Mongoose.listened connection state rest) s)
    | (Returned _, state, rest) =>
        Some (inr tt, with_mongoose (Mongoose.listened connection state rest) s)
    end) orThrow.

(** [createConnection(tenantId)] *)
Definition createConnection (tenantId : string) : Task State nat :=
  catch
    (let dbName := dbPrefix +:+ tenantId in
     let* connection := driver (Mongoose.createConnection dbName) in
     awaitSignals true
       (Some (Error ("Connection timeout for tenant " +:+ tenantId)))
       connection;;
     write (λ s, {| connections := <[tenantId := connection]> (connections s);
                    connectionTimestamps := connectionTimestamps s;
                    clock := clock s; mongoose := mongoose s |});;
     updateTimestamp tenantId;;
     ret connection)
    (λ error,
       throw (Error ("Failed to establish database connection for tenant "
                     +:+ tenantId))).

(** [closeConnection(tenantId)] *)
Definition closeConnection (tenantId : string) : Task State unit :=
  let* tracked := read (λ s, connections s !! tenantId) in
  match tracked with
  | Some connection =>
      catch (let* closed := driver (Mongoose.close connection) in
             orThrow closed)
            (λ error, ret tt);;
      write (λ s, {| connections := delete tenantId (connections s);
                     connectionTimestamps :=
                       delete tenantId (connectionTimestamps s);
                     clock := clock s; mongoose := mongoose s |})
  | None => ret tt
  end.

(** [getConnection(tenantId)] *)
Definition getConnection (tenantId : string) : Task State nat :=
  let* tracked := read (λ s, connections s !! tenantId) in
  match tracked with
  | Some connection =>
      let* readyState :=
        read (λ s, Mongoose.readyState
                     (Mongoose.deref (mongoose s) connection)) in
      if readyState =? 1 then
        updateTimestamp tenantId;;
        ret connection
      else if readyState =? 2 then
        awaitSignals false None connection;;
        updateTimestamp tenantId;;
        ret connection
      else
        closeConnection tenantId;;
        createConnection tenantId
  | None => createConnection tenantId
  end.

Record Stats : Type := {
  totalConnections : Z;
  perConnection : list (string * Z * option Z);
}.

(** [getStats()]: per connection the tenant, the [readyState] and the
    idle time; the order of the listing is not the map's insertion
    order. *)
Definition getStats (s : State) : Stats :=
  {| totalConnections := Z.of_nat (size (connections s));
     perConnection :=
       (λ '(tenantId, connection),
          (tenantId,
           Mongoose.readyState (Mongoose.deref (mongoose s) connection),
           match connectionTimestamps s !! tenantId with
           | Some timestamp =>
               if timestamp =? 0 then None else Some (clock s - timestamp)
           | None => None
           end))
         <$> map_to_list (connections s) |}.

(** [dbConfig.tenant.connectionTimeout]: 30 minutes. *)
Definition connectionTimeout : Z := 30 * 60 * 1000.

(** [for (const tenantId of tenants) await this.closeConnection(tenantId)] *)
Fixpoint closeEach (tenants : list string) : Task State unit :=
  match tenants with
  | [] => ret tt
  | tenantId :: rest =>
      closeConnection tenantId;;
      closeEach rest
  end.

(** The tenants [closeInactiveConnections] collects: those whose
    timestamp is more than the timeout before [now].  They are listed in
    the order of [map_to_list], not in the [Map]'s insertion order. *)
Definition tenantsToClose (s : State) : list string :=
  let now := clock s in
  (filter (λ e, connectionTimeout < now - e.2)
          (map_to_list (connectionTimestamps s))).*1.

(** [closeInactiveConnections()] *)
Definition closeInactiveConnections : Task State unit :=
  let* tenants := read tenantsToClose in
  closeEach tenants.

(** [closeAll()]: the [closeConnection] calls it starts, one for each
    tracked tenant, all in flight together; [Promise.all] waits for
    them. *)
Definition closeAll (s : State) : list (Task State unit) :=
  List.map closeConnection (map_to_list (connections s)).*1.

End TenantConnectionManager.

(* ===================================================================== *)
(** ** DistributedModelRegistry *)
(* ===================================================================== *)

Module DistributedModelRegistry.

Record Stats : Type := {
  cacheHits_l1 : Z;
  cacheHits_l2 : Z;
  cacheMisses : Z;
  modelCreations : Z;
  errors : Z;
}.

(** [registeredSchemas] is the [Map] in insertion order.
    [modelCreationLocks] maps a tenant to its mutex, [true] while it is
    held.  [clock] is what [Date.now()] returns. *)
Record State : Type := {
  cacheManager : CacheManager.State;
  connectionManager : TenantConnectionManager.State;
  registeredSchemas : list (string * Schema);
  modelCreationLocks : gmap string bool;
  stats : Stats;
  clock : Z;
}.

Definition with_cacheManager (cm : CacheManager.State) (r : State) : State :=
  {| cacheManager := cm; connectionManager := connectionManager r;
     registeredSchemas := registeredSchemas r;
     modelCreationLocks := modelCreationLocks r;
     stats := stats r; clock := clock r |}.

Definition with_connectionManager (tcm : TenantConnectionManager.State)
    (r : State) : State :=
  {| cacheManager := cacheManager r; connectionManager := tcm;
     registeredSchemas := registeredSchemas r;
     modelCreationLocks := modelCreationLocks r;
     stats := stats r; clock := clock r |}.

Definition with_registeredSchemas (l : list (string * Schema)) (r : State)
  : State :=
  {| cacheManager := cacheManager r;
     connectionManager := connectionManager r;
     registeredSchemas := l;
     modelCreationLocks := modelCreationLocks r;
     stats := stats r; clock := clock r |}.

Definition with_locks (l : gmap string bool) (r : State) : State :=
  {| cacheManager := cacheManager r;
     connectionManager := connectionManager r;
     registeredSchemas := registeredSchemas r;
     modelCreationLocks := l;
     stats := stats r; clock := clock r |}.

Definition with_stats (f : Stats → Stats) (r : State) : State :=
  {| cacheManager := cacheManager r;
     connectionManager := connectionManager r;
     registeredSchemas := registeredSchemas r;
     modelCreationLocks := modelCreationLocks r;
     stats := f (stats r); clock := clock r |}.

Definition hit_l1 (s : Stats) : Stats :=
  {| cacheHits_l1 := cacheHits_l1 s + 1; cacheHits_l2 := cacheHits_l2 s;
     cacheMisses := cacheMisses s; modelCreations := modelCreations s;
     errors := errors s |}.
Definition hit_l2 (s : Stats) : Stats :=
  {| cacheHits_l1 := cacheHits_l1 s; cacheHits_l2 := cacheHits_l2 s + 1;
     cacheMisses := cacheMisses s; modelCreations := modelCreations s;
     errors := errors s |}.
Definition miss (s : Stats) : Stats :=
  {| cacheHits_l1 := cacheHits_l1 s; cacheHits_l2 := cacheHits_l2 s;
     cacheMisses := cacheMisses s + 1; modelCreations := modelCreations s;
     errors := errors s |}.
Definition creation (s : Stats) : Stats :=
  {| cacheHits_l1 := cacheHits_l1 s; cacheHits_l2 := cacheHits_l2 s;
     cacheMisses := cacheMisses s; modelCreations := modelCreations s + 1;
     errors := errors s |}.
Definition failure (s : Stats) : Stats :=
  {| cacheHits_l1 := cacheHits_l1 s; cacheHits_l2 := cacheHits_l2 s;
     cacheMisses := cacheMisses s; modelCreations := modelCreations s;
     errors := errors s + 1 |}.

(** Calls into the two components. *)
Definition cache {A} (t : Task CacheManager.State A) : Task State A :=
  lift cacheManager with_cacheManager t.
Definition conn {A} (t : Task TenantConnectionManager.State A)
  : Task State A :=
  lift connectionManager with_connectionManager t.

Definition orThrow {A} (r : JsError + A) : Task State A :=
  match r with
  | inl e => throw e
  | inr a => ret a
  end.

(** The second argument of [registerSchema] as JavaScript passes it:
    a falsy value, some other value that is not a schema, or a
    [mongoose.Schema]. *)
Inductive SchemaArg : Type :=
| Falsy
| NotASchema
| ASchema (schema : Schema).

(** [registerSchema(modelName, schema)] *)
Definition registerSchema (modelName : string) (schema : SchemaArg)
  : Task State unit :=
  match schema with
  | Falsy => throw (Error "Model name and schema are required")
  | NotASchema =>
      if String.eqb modelName ""
      then throw (Error "Model name and schema are required")
      else throw (Error "Schema must be an instance of mongoose.Schema")
  | ASchema s =>
      if String.eqb modelName ""
      then throw (Error "Model name and schema are required")
      else write (λ r, with_registeredSchemas
                         (assign modelName s (registeredSchemas r)) r)
  end.

(** [registerSchemas(schemas)] *)
Fixpoint registerSchemas (schemas : list (string * SchemaArg))
  : Task State unit :=
  match schemas with
  | [] => ret tt
  | (modelName, schema) :: rest =>
      registerSchema modelName schema;;
      registerSchemas rest
  end.

Definition isSchemaRegistered (modelName : string) (r : State) : bool :=
  bool_decide (is_Some (assoc modelName (registeredSchemas r))).

(** [getMutex(tenantId)] *)
Definition getMutex (tenantId : string) : Task State unit :=
  write (λ r, match modelCreationLocks r !! tenantId with
              | Some _ => r
              | None => with_locks (<[tenantId := false]>
                                      (modelCreationLocks r)) r
              end).

(** [mutex.runExclusive(callback)]: entered only while the mutex is
    free, released when the callback has settled.  Which of several
    waiting callers enters next is left open. *)
Definition runExclusive {A} (tenantId : string) (callback : Task State A)
  : Task State A :=
  Act (λ r, match modelCreationLocks r !! tenantId with
            | Some true => None
            | _ => Some (tt, with_locks (<[tenantId := true]>
                                           (modelCreationLocks r)) r)
            end)
      (λ _, finally callback
              (λ r, with_locks (<[tenantId := false]>
                                  (modelCreationLocks r)) r)).

(** [connection.models[name]] *)
Definition connectionModel (connection : nat) (modelName : string)
    (s : TenantConnectionManager.State) : option Handle :=
  Mongoose.member
    (Bound <$> Mongoose.models
                 (Mongoose.deref (TenantConnectionManager.mongoose s)
                                 connection) !! modelName)
    modelName.

(** [connection.models[name]] if it is truthy, else
    [connection.model(name, schema)]; [indexes] adds the
    [await createIndexes()] of [createTenantModels]. *)
Definition bindModel (indexes : bool) (connection : nat)
    (modelName : string) (schema : Schema) : Task State Handle :=
  let* existing := conn (read (connectionModel connection modelName)) in
  match existing with
  | Some h => ret h
  | None =>
      let* created := conn (TenantConnectionManager.driver
                              (Mongoose.model connection modelName schema)) in
      let* m := orThrow created in
      if indexes then
        let* indexed := conn (TenantConnectionManager.driver
                                Mongoose.createIndexes) in
        orThrow indexed;;
        ret (Bound m)
      else ret (Bound m)
  end.

(** [Object.entries(x)] for the [x] the cache can hold. *)
Definition Object_entries (x : option jsval)
  : JsError + list (string * jsval) :=
  match x with
  | None | Some VNull =>
      inl (TypeError "Cannot convert undefined or null to object")
  | Some (VObj fields) => inr fields
  | Some (VStr s) =>
      inr (imap (λ i c, (pretty i, VStr (String c EmptyString)))
                (String.list_ascii_of_string s))
  | Some _ => inr []
  end.

(** The loop of [getCachedModels] over the cached entries. *)
Fixpoint reconstruct (connection : nat) (entries : list (string * jsval))
    (models : list (string * Handle))
  : Task State (list (string * Handle)) :=
  match entries with
  | [] => ret models
  | (modelName, modelInfo) :: rest =>
      let* schema := read (λ r, assoc modelName (registeredSchemas r)) in
      match schema with
      | Some schema =>
          let* m := bindModel false connection modelName schema in
          reconstruct connection rest (put modelName m models)
      | None => reconstruct connection rest models
      end
  end.

(** [getCachedModels(tenantId)] *)
Definition getCachedModels (tenantId : string)
  : Task State (option (list (string * Handle))) :=
  let* cachedData := cache (CacheManager.get tenantId) in
  if negb (truthy cachedData) then
    write (with_stats miss);;
    ret None
  else
    catch
      (let* connection :=
         conn (TenantConnectionManager.getConnection tenantId) in
       let* entries := orThrow (Object_entries (prop "models" cachedData)) in
       let* models := reconstruct connection entries [] in
       (if strictEq (prop "cacheLevel" cachedData) "L1"
        then write (with_stats hit_l1)
        else write (with_stats hit_l2));;
       ret (Some models))
      (λ error, ret None).

(** The loop of [createTenantModels] over the catalogue as it was when
    the loop started. *)
Fixpoint bindAll (connection : nat) (schemas : list (string * Schema))
    (models : list (string * Handle))
  : Task State (list (string * Handle)) :=
  match schemas with
  | [] => ret models
  | (modelName, schema) :: rest =>
      let* m := bindModel true connection modelName schema in
      bindAll connection rest (put modelName m models)
  end.

(** [createTenantModels(tenantId)] *)
Definition createTenantModels (tenantId : string)
  : Task State (list (string * Handle)) :=
  let* connection := conn (TenantConnectionManager.getConnection tenantId) in
  let* schemas := read registeredSchemas in
  bindAll connection schemas [].

(** [model.collection.name]: a Mongoose model has a collection; a
    member of [Object.prototype] has no property [collection], and
    reading [name] of [undefined] throws. *)
Definition noCollection : JsError :=
  TypeError "Cannot read properties of undefined (reading 'name')".

Definition collection_name (model : Handle) : JsError + string :=
  match model with
  | Bound m => inr (Mongoose.collectionName m)
  | Builtin _ => inl noCollection
  end.

(** The loop of [cacheModels] over [Object.entries(models)]: it fills
    [cacheData.models], or throws at the first entry that has no
    collection. *)
Fixpoint modelsMetadataFrom (r : State) (models : list (string * Handle))
    (acc : list (string * jsval)) : JsError + list (string * jsval) :=
  match models with
  | [] => inr acc
  | (modelName, model) :: rest =>
      match collection_name model with
      | inl e => inl e
      | inr collectionName =>
          modelsMetadataFrom r rest
            (put modelName
               (VObj [("name", VStr modelName);
                      ("collectionName", VStr collectionName);
                      ("schemaRegistered",
                       VBool (isSchemaRegistered modelName r))])
               acc)
      end
  end.

Definition modelsMetadata (r : State) (models : list (string * Handle))
  : JsError + list (string * jsval) :=
  modelsMetadataFrom r models [].

(** [cacheModels(tenantId, models)] *)
Definition cacheModels (tenantId : string) (models : list (string * Handle))
  : Task State unit :=
  let* timestamp := read clock in
  let* filled := read (λ r, modelsMetadata r models) in
  let* metadata := orThrow filled in
  let cacheData := VObj [("tenantId", VStr tenantId);
                         ("timestamp", VNum timestamp);
                         ("models", VObj metadata)] in
  cache (CacheManager.set tenantId cacheData None).

(** [getModels(tenantId)] *)
Definition getModels (tenantId : string)
  : Task State (list (string * Handle)) :=
  if String.eqb tenantId "" then throw (Error "Tenant ID is required") else
  catch
    (let* cachedModels := getCachedModels tenantId in
     match cachedModels with
     | Some models => ret models
     | None =>
         getMutex tenantId;;
         runExclusive tenantId
           (let* cachedModelsInMutex := getCachedModels tenantId in
            match cachedModelsInMutex with
            | Some models => ret models
            | None =>
                let* models := createTenantModels tenantId in
                cacheModels tenantId models;;
                write (with_stats creation);;
                ret models
            end)
     end)
    (λ error,
       write (with_stats failure);;
       throw error).

(** [getModel(tenantId, modelName)] *)
Definition getModel (tenantId modelName : string) : Task State Handle :=
  let* registered := read (isSchemaRegistered modelName) in
  (if registered then ret tt
   else registerSchema modelName (ASchema MasterDataSchema));;
  let* models := getModels tenantId in
  match Mongoose.member (assoc modelName models) modelName with
  | Some m => ret m
  | None =>
      throw (Error ("Model " +:+ modelName +:+ " not found for tenant "
                    +:+ tenantId))
  end.

Definition invalidateCache (tenantId : string) : Task State unit :=
  cache (CacheManager.delete tenantId).

Definition invalidateAllCache : Task State unit :=
  cache CacheManager.clear.

(** [unregisterSchema(modelName)]: [this.invalidateAllCache()] is
    called and not awaited, so the call ends with tier 1 emptied and the
    tier-2 half of [clear] left behind as a task of its own. *)
Definition unregisterSchema (modelName : string) (r : State)
  : State * list (Task State unit) :=
  match assoc modelName (registeredSchemas r) with
  | Some _ =>
      let r1 := with_registeredSchemas
                  (filter (λ e, e.1 ≠ modelName) (registeredSchemas r)) r in
      (with_cacheManager
         (CacheManager.with_l1Cache (λ _, ∅) (cacheManager r1)) r1,
       [cache CacheManager.clear_l2])
  | None => (r, [])
  end.

Inductive Status : Type := healthy | degraded | unhealthy.

Record Health : Type := {
  status : Status;
  checks_cache_l1 : bool;
  checks_cache_l2 : bool;
  checks_connections : bool;
  error : option string;
}.

Definition message (e : JsError) : string :=
  match e with
  | Error m | TypeError m | SyntaxError m => m
  end.

(** The body of [healthCheck()] given how
    [this.connectionManager.getStats()] ends. *)
Definition healthCheck_on (l2 : bool)
    (connectionStats : JsError + TenantConnectionManager.Stats) : Health :=
  match connectionStats with
  | inr connectionStats =>
      let l1 := true in
      let connections :=
        0 <=? TenantConnectionManager.totalConnections connectionStats in
      {| status := if negb l1 || negb connections then unhealthy
                   else if negb l2 then degraded
                   else healthy;
         checks_cache_l1 := l1;
         checks_cache_l2 := l2;
         checks_connections := connections;
         error := None |}
  | inl e =>
      {| status := unhealthy;
         checks_cache_l1 := true;
         checks_cache_l2 := l2;
         checks_connections := true;
         error := Some (message e) |}
  end.

(** [healthCheck()] *)
Definition healthCheck (r : State) : Health :=
  healthCheck_on (CacheManager.isL2Available (cacheManager r))
                 (inr (TenantConnectionManager.getStats
                         (connectionManager r))).

(** [closeTenantConnection(tenantId)] *)
Definition closeTenantConnection (tenantId : string) : Task State unit :=
  conn (TenantConnectionManager.closeConnection tenantId);;
  invalidateCache tenantId.

(** [getRegisteredSchemas()] *)
Definition getRegisteredSchemas (r : State) : list string :=
  (registeredSchemas r).*1.

End DistributedModelRegistry.

(* ===================================================================== *)
(** ** Several callers on one event loop *)
(* ===================================================================== *)

Module Concurrent.

Section Pool.
Context {W A : Type}.

(** A configuration: the shared state and the callers in flight, each
    with what it has left to do. *)
Definition Config : Type := W * list (Task W A).

(** The event loop gives caller [i] a turn: it runs its next action, if
    it has one that can run; otherwise nothing happens. *)
Definition turn (i : nat) (c : Config) : Config :=
  match c.2 !! i with
  | Some t =>
      match step t c.1 with
      | Some (t', w') => (w', <[i := t']> c.2)
      | None => c
      end
  | None => c
  end.

(** A schedule is the order in which callers get their turns. *)
Definition exec (schedule : list nat) (c : Config) : Config :=
  foldl (λ c i, turn i c) c schedule.

(** Caller [i] can take a turn. *)
Definition enabled (i : nat) (c : Config) : Prop :=
  ∃ t, c.2 !! i = Some t ∧ is_Some (step t c.1).

(** Every caller has its outcome. *)
Definition settled (c : Config) : Prop :=
  ∀ i t, c.2 !! i = Some t → is_Some (result t).

(** [c'] is [c] after a turn that ran an action. *)
Definition moves (c' c : Config) : Prop :=
  ∃ i, enabled i c ∧ c' = turn i c.

End Pool.

End Concurrent.

(* ===================================================================== *)
(** ** A tenant nobody has asked for yet *)
(* ===================================================================== *)

Module Cold.
Import DistributedModelRegistry.

(** The signals of a new connection settle the open with
    [connected]. *)
Definition connects (sigs : list ConnEvent) : Prop :=
  (Mongoose.listen true sigs 2).1.1 = Returned tt.

(** MongoDB is in order: connections open, [connection.model] and
    [createIndexes] succeed. *)
Definition reliable (d : Mongoose.Driver) : Prop :=
  Forall connects (Mongoose.opens d)
  ∧ Forall (λ fault, fault = None) (Mongoose.modelFaults d)
  ∧ Forall (λ fault, fault = None) (Mongoose.indexFaults d).

(** Tenant [tenantId] is uncached in [r]: neither tier has an entry for
    it, it has no connection, nobody holds its mutex; the catalogue is a
    [Map] (no name twice) and MongoDB is in order. *)
Definition uncached (tenantId : string) (r : State) : Prop :=
  tenantId ≠ ""
  ∧ CacheManager.l1Cache (cacheManager r)
      !! CacheManager.generateKey tenantId = None
  ∧ (CacheManager.l2Client (cacheManager r)
       ≫= λ c, CacheManager.store c !! CacheManager.generateKey tenantId)
    = None
  ∧ TenantConnectionManager.connections (connectionManager r) !! tenantId
    = None
  ∧ modelCreationLocks r !! tenantId ≠ Some true
  ∧ NoDup (registeredSchemas r).*1
  ∧ reliable (TenantConnectionManager.mongoose (connectionManager r)).

(** The handles a cold materialization in [r] produces: every schema of
    the catalogue bound to the connection that is opened. *)
Definition materialized (r : State) : list (string * Handle) :=
  let d := TenantConnectionManager.mongoose (connectionManager r) in
  (λ '(modelName, schema),
     (modelName,
      Bound
        {| Mongoose.modelName := modelName;
           Mongoose.schema := schema;
           Mongoose.db := fresh (dom (Mongoose.objects d));
           Mongoose.collectionName :=
             Mongoose.toCollectionName d modelName |}))
    <$> registeredSchemas r.

(** No name of the catalogue is a property name of
    [Object.prototype]. *)
Definition ordinary (r : State) : Prop :=
  Forall (λ modelName, inherited modelName = false)
         (registeredSchemas r).*1.

(** The connection objects there are. *)
Definition connectionCount (r : State) : nat :=
  size (Mongoose.objects
          (TenantConnectionManager.mongoose (connectionManager r))).

End Cold.

(* ===================================================================== *)
(** ** Concrete states used in the examples *)
(* ===================================================================== *)

Module Scenarios.
Import DistributedModelRegistry.

(** [toLowerCase] on ASCII letters. *)
Definition lower (c : Ascii.ascii) : Ascii.ascii :=
  let n := Ascii.nat_of_ascii c in
  if ((65 <=? n) && (n <=? 90))%nat then Ascii.ascii_of_nat (n + 32) else c.

Fixpoint toLowerCase (s : string) : string :=
  match s with
  | EmptyString => EmptyString
  | String c rest => String (lower c) (toLowerCase rest)
  end.

(** The collection name Mongoose derives from a model name that its
    pluralizer treats as a regular noun, as it does the names of these
    scenarios: lower case, with an "s" appended. *)
Definition pluralize (modelName : string) : string :=
  toLowerCase modelName +:+ "s".

(** A cache manager without Redis, one with a healthy Redis, and one
    whose next Redis command is rejected. *)
Definition redisDown : CacheManager.State :=
  {| CacheManager.l1Cache := ∅;
     CacheManager.l2Client := None;
     CacheManager.isRedisConnected := false |}.

Definition redisUp : CacheManager.State :=
  {| CacheManager.l1Cache := ∅;
     CacheManager.l2Client :=
       Some {| CacheManager.store := ∅; CacheManager.replies := [] |};
     CacheManager.isRedisConnected := true |}.

Definition redisFailing : CacheManager.State :=
  {| CacheManager.l1Cache := ∅;
     CacheManager.l2Client :=
       Some {| CacheManager.store := ∅;
               CacheManager.replies := [Some (Error "ECONNRESET")] |};
     CacheManager.isRedisConnected := true |}.

(** A driver with no connection yet whose connections emit [sigs] when
    opened. *)
Definition driverWith (sigs : list (list ConnEvent)) : Mongoose.Driver :=
  {| Mongoose.objects := ∅;
     Mongoose.opens := sigs;
     Mongoose.closes := [];
     Mongoose.modelFaults := [];
     Mongoose.indexFaults := [];
     Mongoose.toCollectionName := pluralize |}.

Definition managerWith (sigs : list (list ConnEvent))
  : TenantConnectionManager.State :=
  {| TenantConnectionManager.connections := ∅;
     TenantConnectionManager.connectionTimestamps := ∅;
     TenantConnectionManager.clock := 1000;
     TenantConnectionManager.mongoose := driverWith sigs |}.

(** A manager that tracks for "acme" a connection still connecting,
    which will emit [sigs]. *)
Definition connecting (sigs : list ConnEvent)
  : TenantConnectionManager.State :=
  {| TenantConnectionManager.connections := {[ "acme" := 0%nat ]};
     TenantConnectionManager.connectionTimestamps := {[ "acme" := 900 ]};
     TenantConnectionManager.clock := 1000;
     TenantConnectionManager.mongoose :=
       {| Mongoose.objects :=
            {[ 0%nat := {| Mongoose.name := "tenant_acme";
                           Mongoose.readyState := 2;
                           Mongoose.models := ∅;
                           Mongoose.signals := sigs |} ]};
          Mongoose.opens := [];
          Mongoose.closes := [];
          Mongoose.modelFaults := [];
          Mongoose.indexFaults := [];
          Mongoose.toCollectionName := pluralize |} |}.

Definition noStats : Stats :=
  {| cacheHits_l1 := 0; cacheHits_l2 := 0; cacheMisses := 0;
     modelCreations := 0; errors := 0 |}.

(** A registry just constructed, over the given cache and connection
    managers. *)
Definition registry (cm : CacheManager.State)
    (tcm : TenantConnectionManager.State) : State :=
  {| cacheManager := cm; connectionManager := tcm;
     registeredSchemas := []; modelCreationLocks := ∅;
     stats := noStats; clock := 1000 |}.

(** The registry after [registerSchemas({User, Project})]. *)
Definition registered (cm : CacheManager.State)
    (tcm : TenantConnectionManager.State) : State :=
  (run (registerSchemas [("User", ASchema (AppSchema 0));
                         ("Project", ASchema (AppSchema 1))])
       (registry cm tcm)).1.

(** ... and after a first [getModels("acme")]. *)
Definition acmeCached (cm : CacheManager.State) : State :=
  (run (getModels "acme") (registered cm (managerWith []))).1.

(** ... and after [getModel("globex", "constructor")] instead, which is
    what the route [GET /api/models/globex/constructor] calls: the name
    is registered with [MasterDataSchema] on the way. *)
Definition poisoned : State :=
  (run (getModel "globex" "constructor") (registered redisUp (managerWith []))).1.

(** The registry with both schemas when MongoDB refuses the next
    connection. *)
Definition refused : State :=
  registered redisDown (managerWith [[EvError (Error "ECONNREFUSED")]]).

Definition handle (modelName : string) (schema : Schema) : Handle :=
  Bound {| Mongoose.modelName := modelName;
           Mongoose.schema := schema;
           Mongoose.db := 0%nat;
           Mongoose.collectionName := pluralize modelName |}.

End Scenarios.

(* ===================================================================== *)
(** ** middleware/tenant.js *)
(* ===================================================================== *)

Module TenantMiddleware.
Import TenantConnectionManager.

(** How a middleware ends a request: it answers with a status and an
    error code, or it hands over to the next handler with
    [req.tenantConnection] set. *)
Inductive Handled : Type :=
| Responded (status : Z) (code message : string)
| Next (tenantConnection : nat).

(** [attachTenantConnection(req, res, next)], by [req.tenantId]
    ([None]: not set).  The module has a connection manager of its
    own. *)
Definition attachTenantConnection (tenantId : option string)
  : Task State Handled :=
  match tenantId with
  | Some tenantId =>
      if String.eqb tenantId ""
      then ret (Responded 400 "NO_TENANT" "Tenant ID is required")
      else
        catch (let* connection := getConnection tenantId in
               ret (Next connection))
              (λ error,
                 ret (Responded 500 "CONNECTION_ERROR"
                        "Failed to establish database connection"))
  | None => ret (Responded 400 "NO_TENANT" "Tenant ID is required")
  end.

(** [closeTenantConnection(req, res)], the admin endpoint. *)
Definition closeTenantConnection (tenantId : string) : Task State Handled :=
  catch (closeConnection tenantId;;
         ret (Responded 200 "" ("Connection closed for tenant: "
                                +:+ tenantId)))
        (λ error, ret (Responded 500 "CLOSE_ERROR"
                         "Failed to close connection")).

End TenantMiddleware.

(* ===================================================================== *)
(** ** services/MasterDataCache.js *)
(* ===================================================================== *)

Module MasterDataCache.
Import CacheManager(RedisText(..), RedisClient, store, replies).

(** [ttl] is in milliseconds ([MASTER_DATA_CACHE_TTL], one hour by
    default). *)
Record State : Type := {
  client : option RedisClient;
  isConnected : bool;
  ttl : Z;
}.

Definition with_client (c : RedisClient) (s : State) : State :=
  {| client := Some c; isConnected := isConnected s; ttl := ttl s |}.

(** One command sent through [this.client]. *)
Definition command {B}
    (op : gmap string (Z * RedisText) → B * gmap string (Z * RedisText))
  : Task State B :=
  let* reply := act (λ s,
    match client s with
    | None => (inl (TypeError "Cannot read properties of null"), s)
    | Some c =>
        match replies c with
        | Some e :: rest =>
            (inl e, with_client {| store := store c; replies := rest |} s)
        | _ =>
            let '(b, m) := op (store c) in
            (inr b,
             with_client {| store := m; replies := tail (replies c) |} s)
        end
    end) in
  match reply with
  | inl e => throw e
  | inr b => ret b
  end.

(** [generateKey(tenantId, collection, identifier = null)]: an empty
    identifier is falsy, like none. *)
Definition generateKey (tenantId collection : string)
    (identifier : option string) : string :=
  let base := "master:" +:+ tenantId +:+ ":" +:+ collection in
  match identifier with
  | Some identifier =>
      if String.eqb identifier "" then base else base +:+ ":" +:+ identifier
  | None => base
  end.

(** [get(tenantId, collection, identifier = null)] *)
Definition get (tenantId collection : string) (identifier : option string)
  : Task State jsval :=
  let* connected := read isConnected in
  if negb connected then ret VNull else
  catch
    (let key := generateKey tenantId collection identifier in
     let* value := command (λ m, (snd <$> m !! key, m)) in
     match value with
     | Some (JsonText v) => ret v
     | Some MalformedText => throw (SyntaxError "Unexpected token in JSON")
     | Some EmptyText | None => ret VNull
     end)
    (λ error, ret VNull).

(** [customTTL || Math.floor(this.ttl / 1000)] *)
Definition ttlSeconds (customTTL : option Z) (s : State) : Z :=
  match customTTL with
  | Some n => if n =? 0 then ttl s / 1000 else n
  | None => ttl s / 1000
  end.

(** [set(tenantId, collection, data, identifier = null,
    customTTL = null)] *)
Definition set (tenantId collection : string) (data : jsval)
    (identifier : option string) (customTTL : option Z) : Task State bool :=
  let* connected := read isConnected in
  if negb connected then ret false else
  catch
    (let key := generateKey tenantId collection identifier in
     let* seconds := read (ttlSeconds customTTL) in
     command (λ m, (tt, <[key := (seconds, JsonText data)]> m));;
     ret true)
    (λ error, ret false).

(** [delete(tenantId, collection, identifier = null)] *)
Definition delete (tenantId collection : string) (identifier : option string)
  : Task State bool :=
  let* connected := read isConnected in
  if negb connected then ret false else
  catch
    (let key := generateKey tenantId collection identifier in
     command (λ m, (tt, base.delete key m));;
     ret true)
    (λ error, ret false).

(** [isAvailable()] *)
Definition isAvailable (s : State) : bool := isConnected s.

End MasterDataCache.

(* ===================================================================== *)
(** * Properties *)
(* ===================================================================== *)

(** ** Running a task *)

Module AsyncFacts.

Lemma run_bind {W A B} (t : Task W A) (g : A → Task W B) (w : W) :
  run (bind t g) w =
  match run t w with
  | (w', Returned a) => run (g a) w'
  | (w', Thrown e) => (w', Thrown e)
  | (w', Pending) => (w', Pending)
  end.
Proof.
  revert w. induction t as [[a|e|]|C f k IH]; intros w; simpl; try done.
  destruct (f w) as [[b w']|]; [apply IH | done].
Qed.

Lemma run_catch {W A} (t : Task W A) (h : JsError → Task W A) (w : W) :
  run (catch t h) w =
  match run t w with
  | (w', Thrown e) => run (h e) w'
  | r => r
  end.
Proof.
  revert w. induction t as [[a|e|]|C f k IH]; intros w; simpl; try done.
  destruct (f w) as [[b w']|]; [apply IH | done].
Qed.

Lemma run_finally {W A} (t : Task W A) (c : W → W) (w : W) :
  run (finally t c) w =
  match run t w with
  | (w', Pending) => (w', Pending)
  | (w', o) => (c w', o)
  end.
Proof.
  revert w. induction t as [[a|e|]|C f k IH]; intros w; simpl; try done.
  destruct (f w) as [[b w']|]; [apply IH | done].
Qed.

Lemma run_lift {S W A} (get : W → S) (put : S → W → W) (t : Task S A)
    (w : W) :
  (∀ s s' w, put s' (put s w) = put s' w) →
  (∀ w, put (get w) w = w) →
  (∀ s w, get (put s w) = s) →
  run (lift get put t) w =
  let '(s', o) := run t (get w) in (put s' w, o).
Proof.
  intros Hpp Hpg Hgp. revert w.
  assert (Hgen : ∀ w s, run (lift get put t) (put s w)
                        = let '(s', o) := run t s in (put s' w, o)).
  { induction t as [o|C f k IH]; intros w s; simpl.
    - done.
    - rewrite Hgp. destruct (f s) as [[b s']|]; [|done].
      rewrite Hpp. apply IH. }
  intros w. rewrite <- (Hpg w) at 1. apply Hgen.
Qed.

Lemma run_act {W B} (f : W → B * W) (w : W) :
  run (act f) w = ((f w).2, Returned (f w).1).
Proof. unfold act. simpl. by destruct (f w). Qed.

Lemma run_read {W B} (f : W → B) (w : W) :
  run (read f) w = (w, Returned (f w)).
Proof. done. Qed.

Lemma run_write {W} (f : W → W) (w : W) :
  run (write f) w = (f w, Returned tt).
Proof. done. Qed.

Lemma run_ret {W A} (a : A) (w : W) : run (ret a) w = (w, Returned a).
Proof. done. Qed.

Lemma run_throw {W A} (e : JsError) (w : W) :
  run (throw e : Task W A) w = (w, Thrown e).
Proof. done. Qed.

End AsyncFacts.
Import AsyncFacts.

Create Rewrite HintDb run.
#[export] Hint Rewrite @run_bind @run_catch @run_finally @run_read @run_write
  @run_ret @run_throw : run.

(** Unfold the run of a task as far as the state allows. *)
Ltac run_step := autorewrite with run; cbn beta iota zeta.

(** ** The tiered cache *)

Module CacheManagerFacts.
Import CacheManager.

(** What one command does to the manager. *)
Definition afterCommand (c : RedisClient)
    (s : gmap string (Z * RedisText)) (cm : State) : State :=
  with_l2Client {| store := s; replies := tail (replies c) |} cm.

Lemma run_command {B}
    (op : gmap string (Z * RedisText) → B * gmap string (Z * RedisText))
    (cm : State) (c : RedisClient) :
  l2Client cm = Some c →
  run (command op) cm =
  match replies c with
  | Some e :: _ => (afterCommand c (store c) cm, Thrown e)
  | _ => (afterCommand c (op (store c)).2 cm, Returned (op (store c)).1)
  end.
Proof.
  intros Hc. unfold command, afterCommand. rewrite run_bind, run_act.
  rewrite Hc.
  destruct (replies c) as [|[e|] rest]; simpl; destruct (op (store c)); done.
Qed.

Lemma l2Ready_client (cm : State) :
  l2Ready cm = true → ∃ c, l2Client cm = Some c.
Proof.
  unfold l2Ready. intros [_ H]%andb_prop.
  apply bool_decide_eq_true in H as [c Hc]. eauto.
Qed.

(** The tier-2 half of [get] always returns. *)
Lemma get_l2_returns (key : string) (cm : State) :
  ∃ cm' v, run (get_l2 key) cm = (cm', Returned v).
Proof.
  unfold get_l2. run_step.
  destruct (l2Ready cm) eqn:Hready; run_step; [|eauto].
  destruct (l2Ready_client _ Hready) as [c Hc].
  unfold l2Client_get. rewrite (run_command _ _ _ Hc).
  destruct (replies c) as [|[e|] rest]; run_step; simpl; eauto;
    destruct (store c !! key) as [[ttl [v| |]]|]; simpl; run_step; eauto.
Qed.

(** When the tier-2 read fails, the tier-2 half reports a miss and
    tier 1 is as it was. *)
Lemma get_l2_read_fails (key : string) (cm : State) (c : RedisClient)
    (e : JsError) (rest : list (option JsError)) :
  l2Client cm = Some c → replies c = Some e :: rest →
  ∃ cm', run (get_l2 key) cm = (cm', Returned VNull)
         ∧ l1Cache cm' = l1Cache cm.
Proof.
  intros Hc He. unfold get_l2. run_step.
  destruct (l2Ready cm) eqn:Hready; run_step; [|eauto].
  unfold l2Client_get. rewrite (run_command _ _ _ Hc), He. run_step. eauto.
Qed.

Lemma get_returns (tenantId : string) (cm : State) :
  ∃ cm' v, run (get tenantId) cm = (cm', Returned v).
Proof.
  unfold get. run_step.
  destruct (l1Cache cm !! generateKey tenantId) as [v|].
  - destruct (truthy v); [run_step; eauto | apply get_l2_returns].
  - apply get_l2_returns.
Qed.

Lemma l2Ready_with_l1Cache f cm : l2Ready (with_l1Cache f cm) = l2Ready cm.
Proof. done. Qed.

Lemma l2Ready_afterCommand c s cm :
  l2Ready (afterCommand c s cm) = isRedisConnected cm.
Proof. unfold l2Ready. simpl. by rewrite andb_true_r. Qed.

Lemma l2Ready_connected cm : l2Ready cm = true → isRedisConnected cm = true.
Proof. unfold l2Ready. by intros [? _]%andb_prop. Qed.

(** [set] always returns, with the value in tier 1 and nothing else of
    tier 1 touched. *)
Lemma set_returns (tenantId : string) (value : jsval) (ttl : option Z)
    (cm : State) :
  ∃ cm', run (set tenantId value ttl) cm = (cm', Returned tt)
         ∧ l1Cache cm' = <[generateKey tenantId := value]> (l1Cache cm)
         ∧ l2Ready cm' = l2Ready cm.
Proof.
  unfold set. run_step. rewrite l2Ready_with_l1Cache.
  destruct (l2Ready cm) eqn:Hready; run_step; [|eauto].
  destruct (l2Ready_client _ Hready) as [c Hc].
  unfold l2Client_setEx.
  rewrite (run_command _ (with_l1Cache _ cm) c Hc).
  pose proof (l2Ready_connected _ Hready) as Hcm.
  destruct (replies c) as [|[e|] rest]; run_step; simpl;
    eexists; (split; [reflexivity|]); (split; [reflexivity|]);
    by rewrite l2Ready_afterCommand.
Qed.

(** A truthy tier-1 entry is returned as it is. *)
Lemma get_l1_hit (tenantId : string) (v : jsval) (cm : State) :
  l1Cache cm !! generateKey tenantId = Some v → truthy v = true →
  run (get tenantId) cm = (cm, Returned v).
Proof. intros Hv Ht. unfold get. run_step. by rewrite Hv, Ht. Qed.

(** Without tier 2, anything but a truthy tier-1 entry is a miss. *)
Lemma get_without_l2 (tenantId : string) (cm : State) :
  truthy_opt (l1Cache cm !! generateKey tenantId) = false →
  l2Ready cm = false →
  run (get tenantId) cm = (cm, Returned VNull).
Proof.
  intros Hmiss Hready. unfold get, get_l2. run_step.
  destruct (l1Cache cm !! generateKey tenantId) as [v|]; simpl in Hmiss;
    [rewrite Hmiss|]; run_step; rewrite Hready; by run_step.
Qed.

(** C4. Neither [get] nor [set] lets a tier-2 error reach the caller:
    for every state of the cache and of Redis, [get] returns a value and
    [set] returns with the value stored in tier 1; and when tier 1 has
    no truthy entry and the tier-2 read is rejected, [get] returns
    [null]. *)
Theorem tier2_errors_are_absorbed (tenantId : string) (value : jsval)
    (ttl : option Z) (cm : State) :
  (∃ cm' v, run (get tenantId) cm = (cm', Returned v))
  ∧ (∀ c e rest,
       truthy_opt (l1Cache cm !! generateKey tenantId) = false →
       l2Client cm = Some c → replies c = Some e :: rest →
       ∃ cm', run (get tenantId) cm = (cm', Returned VNull))
  ∧ (∃ cm', run (set tenantId value ttl) cm = (cm', Returned tt)
            ∧ l1Cache cm' !! generateKey tenantId = Some value).
Proof.
  split; [apply get_returns|]. split.
  - intros c e rest Hmiss Hc He.
    destruct (get_l2_read_fails (generateKey tenantId) cm c e rest Hc He)
      as (cm' & Hrun & _).
    exists cm'. unfold get. run_step.
    destruct (l1Cache cm !! generateKey tenantId) as [v|]; simpl in Hmiss;
      [rewrite Hmiss|]; exact Hrun.
  - destruct (set_returns tenantId value ttl cm) as (cm' & Hrun & Hl1 & _).
    exists cm'. split; [done|]. rewrite Hl1. apply lookup_insert_eq.
Qed.

End CacheManagerFacts.

Module CacheRoundTrip.
Import CacheManager CacheManagerFacts.

(** [set] as a function of the state when tier 2 is up and takes the
    write. *)
Lemma set_through (tenantId : string) (value : jsval) (ttl : option Z)
    (cm : State) (c : RedisClient) :
  isRedisConnected cm = true → l2Client cm = Some c →
  (∀ e, head (replies c) ≠ Some (Some e)) →
  (run (set tenantId value ttl) cm).1 =
  afterCommand c (<[generateKey tenantId :=
                      (redisTTL ttl / 1000, JsonText value)]> (store c))
               (with_l1Cache <[generateKey tenantId := value]> cm).
Proof.
  intros Hcm Hc Hok.
  assert (Hready : l2Ready cm = true)
    by (unfold l2Ready; rewrite Hcm, Hc; done).
  unfold set. run_step. rewrite l2Ready_with_l1Cache, Hready. run_step.
  unfold l2Client_setEx.
  rewrite (run_command _ (with_l1Cache _ cm) c Hc).
  destruct (replies c) as [|[e|] rest]; run_step; try done.
  by destruct (Hok e).
Qed.

(** C10 (as amended). [set(k, v)] followed by [get(k)] returns [v]
    whenever [v] is truthy.  When [v] is falsy the tier-1 entry is passed
    over and tier 2 answers: [get] returns [null] when tier 2 is not
    in use, and returns [v], read back from Redis, when tier 2 is
    connected and takes both commands. *)
Theorem set_then_get (tenantId : string) (value : jsval) (ttl : option Z)
    (cm : State) :
  let cm1 := (run (set tenantId value ttl) cm).1 in
  (truthy value = true → (run (get tenantId) cm1).2 = Returned value)
  ∧ (truthy value = false → l2Ready cm = false →
     (run (get tenantId) cm1).2 = Returned VNull)
  ∧ (truthy value = false → isRedisConnected cm = true →
     ∀ c, l2Client cm = Some c →
          (∀ e, Some e ∉ take 2 (replies c)) →
          (run (get tenantId) cm1).2 = Returned value).
Proof.
  intros cm1. subst cm1.
  destruct (set_returns tenantId value ttl cm) as (cm1 & Hrun & Hl1 & Hready).
  split; [|split].
  - intros Ht. rewrite Hrun. cbn [fst].
    rewrite (get_l1_hit tenantId value cm1); [done| |done].
    rewrite Hl1. apply lookup_insert_eq.
  - intros Ht Hoff. rewrite Hrun. cbn [fst].
    rewrite get_without_l2; [done| |congruence].
    rewrite Hl1, lookup_insert_eq. exact Ht.
  - intros Ht Hcm c Hc Hok.
    rewrite (set_through tenantId value ttl cm c Hcm Hc).
    2:{ intros e He. apply (Hok e).
        destruct (replies c) as [|r rest]; simplify_eq/=. set_solver. }
    unfold get, get_l2. run_step.
    replace (l1Cache (afterCommand _ _ _) !! generateKey tenantId)
      with (Some value) by (simpl; by rewrite lookup_insert_eq).
    rewrite Ht. run_step.
    rewrite l2Ready_afterCommand. cbn [isRedisConnected with_l1Cache].
    rewrite Hcm. run_step.
    unfold l2Client_get.
    erewrite run_command; [|reflexivity].
    cbn [replies store afterCommand with_l2Client l2Client].
    destruct (replies c) as [|r [|[e|] rest]]; cbn [tail fst snd];
      rewrite ?lookup_insert_eq; cbn [fmap option_fmap option_map snd];
      run_step; try done.
    destruct (Hok e). destruct r; set_solver.
Qed.

End CacheRoundTrip.

Module CacheExamples.
Import CacheManager CacheManagerFacts CacheRoundTrip Scenarios.

Lemma tier2_errors_are_absorbed_witness :
  ∃ cm', run (get "acme") redisFailing = (cm', Returned VNull).
Proof.
  apply (proj1 (proj2 (tier2_errors_are_absorbed "acme" VNull None
                         redisFailing))
           {| store := ∅; replies := [Some (Error "ECONNRESET")] |}
           (Error "ECONNRESET") []); reflexivity.
Defined.

Lemma set_then_get_witness :
  (run (get "acme") (run (set "acme" (VStr "x") None) redisDown).1).2
  = Returned (VStr "x")
  ∧ (run (get "acme") (run (set "acme" (VNum 0) None) redisDown).1).2
    = Returned VNull
  ∧ (run (get "acme") (run (set "acme" (VNum 0) None) redisUp).1).2
    = Returned (VNum 0).
Proof.
  split; [|split].
  - apply (proj1 (set_then_get "acme" (VStr "x") None redisDown)).
    reflexivity.
  - apply (proj1 (proj2 (set_then_get "acme" (VNum 0) None redisDown)));
      reflexivity.
  - apply (proj2 (proj2 (set_then_get "acme" (VNum 0) None redisUp))
             eq_refl eq_refl {| store := ∅; replies := [] |} eq_refl).
    intros e He. inversion He.
Defined.

(** C10 (as stated) fails with Redis connected: [0] is falsy, and
    [get] after [set(k, 0)] does not report a miss, it returns the [0]
    read back from Redis. *)
Lemma falsy_value_read_back_from_tier2 :
  truthy (VNum 0) = false
  ∧ (run (get "acme") (run (set "acme" (VNum 0) None) redisUp).1).2
    = Returned (VNum 0).
Proof. split; reflexivity. Qed.

End CacheExamples.

(** ** The connection manager *)

Module ConnectionFacts.
Import TenantConnectionManager.

Lemma run_driver {A} (f : Mongoose.Driver → A * Mongoose.Driver) (s : State) :
  run (driver f) s =
  (with_mongoose (λ _, (f (mongoose s)).2) s, Returned (f (mongoose s)).1).
Proof. unfold driver. rewrite run_act. by destruct (f (mongoose s)). Qed.

Lemma run_awaitSignals (rejectOnError : bool) (timer : option JsError)
    (connection : nat) (s : State) :
  run (awaitSignals rejectOnError timer connection) s =
  let c := Mongoose.deref (mongoose s) connection in
  match Mongoose.listen rejectOnError (Mongoose.signals c)
                        (Mongoose.readyState c) with
  | (Pending, state, rest) =>
      match timer with
      | Some e =>
          (with_mongoose (Mongoose.listened connection state rest) s,
           Thrown e)
      | None => (s, Pending)
      end
  | (Thrown e, state, rest) =>
      (with_mongoose (Mongoose.listened connection state rest) s, Thrown e)
  | (Returned _, state, rest) =>
      (with_mongoose (Mongoose.listened connection state rest) s,
       Returned tt)
  end.
Proof.
  unfold awaitSignals. simpl.
  destruct (Mongoose.listen _ _ _) as [[[[]|e|] state] rest]; try done.
  by destruct timer.
Qed.

(** A promise that only listens for [connected] is never rejected. *)
Lemma listen_connected_only (sigs : list ConnEvent) (state : Z) :
  match Mongoose.listen false sigs state with
  | (Returned _, _, _) => EvConnected ∈ sigs
  | (Thrown _, _, _) => False
  | (Pending, state', rest) => (EvConnected ∉ sigs) ∧ rest = []
  end.
Proof.
  revert state. induction sigs as [|[|err| |] sigs IH]; intros state; simpl.
  - split; [set_solver | done].
  - set_solver.
  - specialize (IH state).
    destruct (Mongoose.listen false sigs state) as [[[[]|e|] st] rest];
      [set_solver | done | ].
    destruct IH as [Hn ->]. split; [|done].
    intros [?|?]%elem_of_cons; done.
  - specialize (IH 0).
    destruct (Mongoose.listen false sigs 0) as [[[[]|e|] st] rest];
      [set_solver | done | ].
    destruct IH as [Hn ->]. split; [|done].
    intros [?|?]%elem_of_cons; done.
  - specialize (IH 1).
    destruct (Mongoose.listen false sigs 1) as [[[[]|e|] st] rest];
      [set_solver | done | ].
    destruct IH as [Hn ->]. split; [|done].
    intros [?|?]%elem_of_cons; done.
Qed.




(** The error every failed open is replaced with. *)
Definition openFailure (tenantId : string) : JsError :=
  Error ("Failed to establish database connection for tenant " +:+ tenantId).

(** C7 (as amended). [createConnection] returns the connection, now
    tracked, when [connected] is the first signal to settle the wait.
    When an [error] signal settles it, and when no signal does before the
    ten-second timer, it fails with one and the same error, "Failed to
    establish database connection for tenant T"; [getConnection] for an
    untracked tenant is that call. *)
Theorem open_failures_share_one_error (tenantId : string) (s : State) :
  let sigs := match Mongoose.opens (mongoose s) with
              | sigs :: _ => sigs
              | [] => [EvConnected]
              end in
  match Mongoose.listen true sigs 2 with
  | (Returned _, _, _) =>
      ∃ s' connection,
        run (createConnection tenantId) s = (s', Returned connection)
        ∧ connections s' !! tenantId = Some connection
  | _ =>
      ∃ s', run (createConnection tenantId) s
            = (s', Thrown (openFailure tenantId))
  end
  ∧ (connections s !! tenantId = None →
     run (getConnection tenantId) s = run (createConnection tenantId) s).
Proof.
  intros sigs. split.
  - unfold createConnection. run_step. rewrite run_driver.
    cbn [Mongoose.createConnection fst snd]. run_step.
    rewrite run_awaitSignals. cbn zeta.
    unfold Mongoose.deref. cbn [with_mongoose mongoose Mongoose.objects].
    rewrite lookup_insert_eq.
    cbn [from_option id Mongoose.signals Mongoose.readyState].
    fold sigs.
    destruct (Mongoose.listen true sigs 2) as [[[[]|e|] st] rest]; run_step.
    + eexists _, _. split; [reflexivity|]. cbn [connections with_mongoose]. apply lookup_insert_eq.
    + eauto.
    + eauto.
  - intros Hnone. unfold getConnection. run_step. by rewrite Hnone.
Qed.

Lemma open_failures_share_one_error_witness :
  run (getConnection "acme") (Scenarios.managerWith [[]])
  = run (createConnection "acme") (Scenarios.managerWith [[]]).
Proof.
  apply (proj2 (open_failures_share_one_error "acme"
                  (Scenarios.managerWith [[]]))).
  reflexivity.
Defined.

(** C7 (as stated) fails: an open that times out and an open that is
    refused end [getConnection] with the same error, so the caller cannot
    tell them apart. *)
Lemma timeout_and_refusal_look_alike :
  (run (getConnection "acme") (Scenarios.managerWith [[]])).2
  = Thrown (Error "Failed to establish database connection for tenant acme")
  ∧ (run (getConnection "acme")
         (Scenarios.managerWith [[EvError (Error "ECONNREFUSED")]])).2
    = Thrown (Error "Failed to establish database connection for tenant acme").
Proof. split; reflexivity. Qed.

End ConnectionFacts.

(** ** The registry: health *)

Module HealthFacts.
Import DistributedModelRegistry.

(** C9. Whatever the state of the registry: [healthCheck()] reports
    [degraded] when the cache manager's [isRedisConnected] flag is down
    and [healthy] when it is up, never [unhealthy]; and with the
    statistics query of the connection manager either answering from
    that state or throwing, the status is [unhealthy] exactly when the
    query throws, and [degraded] exactly when it answers while the flag
    is down. *)
Theorem tier2_down_is_degraded (r : State) (thrown : option JsError) :
  let connected := CacheManager.isRedisConnected (cacheManager r) in
  let health :=
    healthCheck_on (CacheManager.isL2Available (cacheManager r))
      match thrown with
      | Some e => inl e
      | None => inr (TenantConnectionManager.getStats (connectionManager r))
      end in
  status (healthCheck r) = (if connected then healthy else degraded)
  ∧ checks_cache_l2 (healthCheck r) = connected
  ∧ (status health = unhealthy ↔ is_Some thrown)
  ∧ (status health = degraded ↔ thrown = None ∧ connected = false)
  ∧ (status health = healthy ↔ thrown = None ∧ connected = true).
Proof.
  intros connected health.
  assert (Hsize : (0 <=? TenantConnectionManager.totalConnections
                           (TenantConnectionManager.getStats
                              (connectionManager r))) = true).
  { apply Z.leb_le. simpl. lia. }
  assert (Hl2 : CacheManager.isL2Available (cacheManager r) = connected)
    by done.
  split; [|split].
  - unfold healthCheck, healthCheck_on. cbn [status].
    rewrite Hsize, Hl2. by destruct connected.
  - unfold healthCheck, healthCheck_on. cbn [checks_cache_l2]. exact Hl2.
  - subst health. rewrite Hl2.
    destruct thrown as [e|]; unfold healthCheck_on; cbn [status].
    + repeat split; try done; try (by intros [? ?]); eauto.
    + rewrite Hsize. destruct connected; cbn; repeat split; try done;
        try (by intros [? ?]); by intros [? ?]%is_Some_None.
Qed.

End HealthFacts.

(** ** Reasoning about a run by postconditions *)

Module Wp.

(** [wp t Q w]: running [t] alone from [w] ends in a state and an
    outcome that satisfy [Q]. *)
Definition wp {W A} (t : Task W A) (Q : W → Outcome A → Prop) (w : W)
  : Prop :=
  Q (run t w).1 (run t w).2.

Section Rules.
Context {W : Type}.
Implicit Types w : W.

Lemma wp_run {A} (t : Task W A) (Q : W → Outcome A → Prop) w w' o :
  run t w = (w', o) → wp t Q w → Q w' o.
Proof. unfold wp. by intros ->. Qed.

Lemma wp_mono {A} (t : Task W A) (Q Q' : W → Outcome A → Prop) w :
  wp t Q w → (∀ w' o, Q w' o → Q' w' o) → wp t Q' w.
Proof. unfold wp. auto. Qed.

Lemma wp_and {A} (t : Task W A) (Q Q' : W → Outcome A → Prop) w :
  wp t Q w → wp t Q' w → wp t (λ w' o, Q w' o ∧ Q' w' o) w.
Proof. unfold wp. auto. Qed.

Lemma wp_fin {A} (o : Outcome A) (Q : W → Outcome A → Prop) w :
  Q w o → wp (Fin o) Q w.
Proof. done. Qed.

Lemma wp_ret {A} (a : A) (Q : W → Outcome A → Prop) w :
  Q w (Returned a) → wp (ret a) Q w.
Proof. done. Qed.

Lemma wp_throw {A} (e : JsError) (Q : W → Outcome A → Prop) w :
  Q w (Thrown e) → wp (throw e) Q w.
Proof. done. Qed.

Lemma wp_read {B} (f : W → B) (Q : W → Outcome B → Prop) w :
  Q w (Returned (f w)) → wp (read f) Q w.
Proof. done. Qed.

Lemma wp_write (f : W → W) (Q : W → Outcome unit → Prop) w :
  Q (f w) (Returned tt) → wp (write f) Q w.
Proof. done. Qed.

Lemma wp_act {B} (f : W → B * W) (Q : W → Outcome B → Prop) w :
  Q (f w).2 (Returned (f w).1) → wp (act f) Q w.
Proof. unfold wp. by rewrite run_act. Qed.

Lemma wp_bind {A B} (t : Task W A) (g : A → Task W B)
    (Q : W → Outcome B → Prop) w :
  wp t (λ w' o, match o with
                | Returned a => wp (g a) Q w'
                | Thrown e => Q w' (Thrown e)
                | Pending => Q w' Pending
                end) w →
  wp (bind t g) Q w.
Proof.
  unfold wp. rewrite run_bind.
  by destruct (run t w) as [w' [a|e|]].
Qed.

Lemma wp_catch {A} (t : Task W A) (h : JsError → Task W A)
    (Q : W → Outcome A → Prop) w :
  wp t (λ w' o, match o with
                | Thrown e => wp (h e) Q w'
                | _ => Q w' o
                end) w →
  wp (catch t h) Q w.
Proof.
  unfold wp. rewrite run_catch.
  by destruct (run t w) as [w' [a|e|]].
Qed.

Lemma wp_finally {A} (t : Task W A) (c : W → W)
    (Q : W → Outcome A → Prop) w :
  wp t (λ w' o, match o with
                | Pending => Q w' Pending
                | _ => Q (c w') o
                end) w →
  wp (finally t c) Q w.
Proof.
  unfold wp. rewrite run_finally.
  by destruct (run t w) as [w' [a|e|]].
Qed.

Lemma wp_lift {S A} (get : W → S) (put : S → W → W) (t : Task S A)
    (Q : W → Outcome A → Prop) w :
  (∀ s s' w, put s' (put s w) = put s' w) →
  (∀ w, put (get w) w = w) →
  (∀ s w, get (put s w) = s) →
  wp t (λ s' o, Q (put s' w) o) (get w) →
  wp (lift get put t) Q w.
Proof.
  intros H1 H2 H3. unfold wp. rewrite run_lift by done.
  by destruct (run t (get w)).
Qed.

End Rules.

End Wp.
Import Wp.

(** ** The registry: what a run leaves alone *)

Module RegistryFacts.
Import DistributedModelRegistry.

Lemma wp_cache {A} (t : Task CacheManager.State A)
    (Q : State → Outcome A → Prop) (r : State) :
  wp t (λ cm' o, Q (with_cacheManager cm' r) o) (cacheManager r) →
  wp (cache t) Q r.
Proof. apply wp_lift; [done | by intros [] | done]. Qed.

Lemma wp_conn {A} (t : Task TenantConnectionManager.State A)
    (Q : State → Outcome A → Prop) (r : State) :
  wp t (λ tcm' o, Q (with_connectionManager tcm' r) o)
     (connectionManager r) →
  wp (conn t) Q r.
Proof. apply wp_lift; [done | by intros [] | done]. Qed.

(** A call into a component changes that component only. *)
Lemma cache_frame {A} (t : Task CacheManager.State A) (r : State) :
  wp (cache t) (λ r' _, ∃ cm', r' = with_cacheManager cm' r) r.
Proof. apply wp_cache. unfold wp. eauto. Qed.

Lemma conn_frame {A} (t : Task TenantConnectionManager.State A)
    (r : State) :
  wp (conn t) (λ r' _, ∃ tcm', r' = with_connectionManager tcm' r) r.
Proof. apply wp_conn. unfold wp. eauto. Qed.

Lemma wp_orThrow {A} (x : JsError + A) (Q : State → Outcome A → Prop)
    (r : State) :
  match x with
  | inl e => Q r (Thrown e)
  | inr a => Q r (Returned a)
  end →
  wp (orThrow x) Q r.
Proof. by destruct x. Qed.

(** Properties of the association lists. *)
Lemma assoc_assign {A} (k k' : string) (x : A) (l : list (string * A)) :
  assoc k' (assign k x l) = if String.eqb k' k then Some x else assoc k' l.
Proof.
  induction l as [|[k0 y] l IH]; simpl.
  - done.
  - destruct (String.eqb k k0) eqn:E; simpl.
    + apply String.eqb_eq in E as ->.
      by destruct (String.eqb k' k0).
    + destruct (String.eqb k' k0) eqn:E0; [|done].
      apply String.eqb_eq in E0 as ->.
      destruct (String.eqb k0 k) eqn:E1; [|done].
      apply String.eqb_eq in E1 as ->. by rewrite String.eqb_refl in E.
Qed.

Lemma assoc_filter_ne {A} (k : string) (l : list (string * A)) :
  assoc k (filter (λ e, e.1 ≠ k) l) = None.
Proof.
  induction l as [|[k0 y] l IH]; [done|].
  rewrite filter_cons. simpl. case_decide as Hne; simpl; [|done].
  destruct (String.eqb k k0) eqn:E; [|done].
  apply String.eqb_eq in E. by subst.
Qed.

Lemma assoc_filter_other {A} (k k' : string) (l : list (string * A)) :
  k' ≠ k → assoc k' (filter (λ e, e.1 ≠ k) l) = assoc k' l.
Proof.
  intros Hne. induction l as [|[k0 y] l IH]; [done|].
  rewrite filter_cons. simpl. case_decide as Hk; simpl.
  - by rewrite IH.
  - simpl in Hk. subst k0.
    destruct (String.eqb k' k) eqn:E; [|done].
    apply String.eqb_eq in E. by subst.
Qed.

(** Names that [Object.prototype] does not have behave as keys of a
    map. *)
Lemma inherited_proto (k : string) :
  inherited k = false → String.eqb k "__proto__" = false.
Proof.
  intros Hk. destruct (String.eqb k "__proto__") eqn:E; [|done].
  apply String.eqb_eq in E as ->. done.
Qed.

Lemma member_ordinary (own : option Handle) (k : string) :
  inherited k = false → Mongoose.member own k = own.
Proof.
  intros Hk. unfold Mongoose.member.
  rewrite (inherited_proto k Hk), Hk. by destruct own.
Qed.

Lemma put_ordinary {A} (k : string) (x : A) (l : list (string * A)) :
  inherited k = false → put k x l = assign k x l.
Proof. intros Hk. unfold put. by rewrite (inherited_proto k Hk). Qed.

Lemma elem_of_names {A} (k : string) (x : A) (l : list (string * A)) :
  assoc k l = Some x → k ∈ l.*1.
Proof.
  induction l as [|[k' y] l IH]; [done|]. cbn.
  destruct (String.eqb k k') eqn:E.
  - apply String.eqb_eq in E as ->. intros _. left.
  - intros H. right. by apply IH.
Qed.

Lemma ordinary_name (r : State) (k : string) (schema : Schema) :
  Cold.ordinary r → assoc k (registeredSchemas r) = Some schema →
  inherited k = false.
Proof.
  intros Hord Hk. unfold Cold.ordinary in Hord.
  rewrite Forall_forall in Hord. apply Hord.
  by eapply elem_of_names.
Qed.

End RegistryFacts.

(** ** The registry: handles come from the catalogue *)

Module CatalogueFacts.
Import DistributedModelRegistry RegistryFacts.

Lemma wp_Act {W A B} (f : W → option (B * W)) (k : B → Task W A)
    (Q : W → Outcome A → Prop) (w : W) :
  match f w with
  | Some (b, w') => wp (k b) Q w'
  | None => Q w Pending
  end →
  wp (Act f k) Q w.
Proof. unfold wp. simpl. by destruct (f w) as [[b w']|]. Qed.

(** Every name of [ms] is a name of the catalogue [S]. *)
Definition keys_in {A B} (ms : list (string * A)) (S : list (string * B))
  : Prop :=
  ∀ n, is_Some (assoc n ms) → is_Some (assoc n S).

Lemma keys_in_nil {A B} (S : list (string * B)) : keys_in (@nil (string * A)) S.
Proof. intros n [x Hx]. discriminate Hx. Qed.

Lemma keys_in_assign {A B} (k : string) (x : A) (ms : list (string * A))
    (S : list (string * B)) :
  is_Some (assoc k S) → keys_in ms S → keys_in (assign k x ms) S.
Proof.
  intros Hk Hms n. rewrite assoc_assign.
  destruct (String.eqb n k) eqn:E; [|apply Hms].
  apply String.eqb_eq in E as ->. done.
Qed.

Lemma keys_in_put {A B} (k : string) (x : A) (ms : list (string * A))
    (S : list (string * B)) :
  is_Some (assoc k S) → keys_in ms S → keys_in (put k x ms) S.
Proof.
  intros Hk Hms. unfold put. destruct (String.eqb k "__proto__"); [done|].
  by apply keys_in_assign.
Qed.

Section Kept.
Context (S : list (string * Schema)).

(** The catalogue is [S] after the run. *)
Definition kept {A} (r' : State) (_ : Outcome A) : Prop :=
  registeredSchemas r' = S.

(** ... and the handles returned are handles for names of [S]. *)
Definition kept_within (r' : State) (o : Outcome (list (string * Handle)))
  : Prop :=
  registeredSchemas r' = S ∧ ∀ ms, o = Returned ms → keys_in ms S.

Lemma cache_kept {A} (t : Task CacheManager.State A) (r : State) :
  registeredSchemas r = S → wp (cache t) kept r.
Proof.
  intros HS. eapply wp_mono; [apply cache_frame|].
  by intros r' o [cm' ->].
Qed.

Lemma conn_kept {A} (t : Task TenantConnectionManager.State A)
    (r : State) :
  registeredSchemas r = S → wp (conn t) kept r.
Proof.
  intros HS. eapply wp_mono; [apply conn_frame|].
  by intros r' o [cm' ->].
Qed.

Lemma bindModel_kept (indexes : bool) (connection : nat)
    (modelName : string) (schema : Schema) (r : State) :
  registeredSchemas r = S →
  wp (bindModel indexes connection modelName schema) kept r.
Proof.
  intros HS. unfold bindModel. apply wp_bind.
  eapply wp_mono; [by apply conn_kept|].
  intros r1 [[m|]|e|] H1; try done.
  apply wp_bind. eapply wp_mono; [by apply conn_kept|].
  intros r2 [[e|m]|e|] H2; try done.
  apply wp_bind, wp_orThrow. destruct indexes; [|done].
  apply wp_bind. eapply wp_mono; [by apply conn_kept|].
  intros r3 [[e|[]]|e|] H3; try done.
Qed.

Lemma reconstruct_kept (connection : nat)
    (entries : list (string * jsval)) (models : list (string * Handle))
    (r : State) :
  registeredSchemas r = S → keys_in models S →
  wp (reconstruct connection entries models) kept_within r.
Proof.
  revert models r.
  induction entries as [|[modelName modelInfo] rest IH];
    intros models r HS Hin; cbn [reconstruct].
  - apply wp_ret. split; [done|]. by intros ms [= <-].
  - apply wp_bind, wp_read. rewrite HS.
    destruct (assoc modelName S) as [schema|] eqn:Hschema;
      [|by apply IH].
    apply wp_bind. eapply wp_mono; [by apply bindModel_kept|].
    intros r1 [m|e|] H1; try (split; [done|]; by intros ms).
    apply IH; [done|]. apply keys_in_put; [by rewrite Hschema | done].
Qed.

Lemma bindAll_kept (connection : nat) (schemas : list (string * Schema))
    (models : list (string * Handle)) (r : State) :
  registeredSchemas r = S →
  Forall (λ e, is_Some (assoc e.1 S)) schemas → keys_in models S →
  wp (bindAll connection schemas models) kept_within r.
Proof.
  revert models r.
  induction schemas as [|[modelName schema] rest IH];
    intros models r HS Hall Hin; cbn [bindAll].
  - apply wp_ret. split; [done|]. by intros ms [= <-].
  - apply Forall_cons in Hall as [Hhead Hall].
    apply wp_bind. eapply wp_mono; [by apply bindModel_kept|].
    intros r1 [m|e|] H1; try (split; [done|]; by intros ms).
    apply IH; [done..|]. by apply keys_in_put.
Qed.

Lemma assoc_self {A} (l : list (string * A)) :
  Forall (λ e, is_Some (assoc e.1 l)) l.
Proof.
  induction l as [|[k x] l IH]; constructor; simpl.
  - by rewrite String.eqb_refl.
  - eapply Forall_impl; [exact IH|]. intros [k' y] Hy. simpl in *.
    by destruct (String.eqb k' k).
Qed.

Lemma getCachedModels_kept (tenantId : string) (r : State) :
  registeredSchemas r = S →
  wp (getCachedModels tenantId)
     (λ r' o, registeredSchemas r' = S
              ∧ ∀ ms, o = Returned (Some ms) → keys_in ms S) r.
Proof.
  intros HS. unfold getCachedModels. apply wp_bind.
  eapply wp_mono; [by apply cache_kept|].
  intros r1 [cachedData| |] H1; try (split; [done|]; by intros ms).
  destruct (truthy cachedData); cbn [negb];
    [|apply wp_bind, wp_write, wp_ret; split; [done|]; by intros ms].
  apply wp_catch, wp_bind. eapply wp_mono; [by apply conn_kept|].
  intros r2 [connection|e|] H2;
    try (split; [done|]; by intros ms).
  apply wp_bind, wp_orThrow.
  destruct (Object_entries _) as [e|entries];
    [split; [done|]; by intros ms|].
  apply wp_bind.
  eapply wp_mono; [apply reconstruct_kept; [done|apply keys_in_nil]|].
  intros r3 [models|e|] [H3 Hms];
    try (split; [done|]; by intros ms).
  apply wp_bind.
  destruct (strictEq _ _); apply wp_write, wp_ret;
    (split; [done|]); intros ms [= <-]; by apply Hms.
Qed.

Lemma createTenantModels_kept (tenantId : string) (r : State) :
  registeredSchemas r = S →
  wp (createTenantModels tenantId) kept_within r.
Proof.
  intros HS. unfold createTenantModels. apply wp_bind.
  eapply wp_mono; [by apply conn_kept|].
  intros r1 [connection|e|] H1;
    try (split; [done|]; by intros ms).
  apply wp_bind, wp_read. rewrite H1.
  apply bindAll_kept; [done | apply assoc_self | apply keys_in_nil].
Qed.

Lemma cacheModels_kept (tenantId : string)
    (models : list (string * Handle)) (r : State) :
  registeredSchemas r = S → wp (cacheModels tenantId models) kept r.
Proof.
  intros HS. unfold cacheModels.
  apply wp_bind, wp_read, wp_bind, wp_read, wp_bind, wp_orThrow.
  destruct (modelsMetadata r models); [done|by apply cache_kept].
Qed.

Lemma getModels_kept (tenantId : string) (r : State) :
  registeredSchemas r = S → wp (getModels tenantId) kept_within r.
Proof.
  intros HS. unfold getModels.
  destruct (String.eqb tenantId "");
    [apply wp_throw; split; [done|]; by intros ms|].
  assert (Hfail : ∀ r' e, registeredSchemas r' = S →
            wp (write (with_stats failure);; throw e) kept_within r').
  { intros r' e Hr'. apply wp_bind, wp_write, wp_throw.
    split; [done|]. by intros ms. }
  apply wp_catch, wp_bind.
  eapply wp_mono; [by apply getCachedModels_kept|].
  intros r1 [[models|]|e|] [H1 Hms]; cbn beta iota;
    [ apply wp_ret; split; [done|]; intros ms [= <-]; by apply Hms
    | | by apply Hfail | split; [done|]; by intros ms ].
  apply wp_bind, wp_write.
  assert (H1' : registeredSchemas
                  match modelCreationLocks r1 !! tenantId with
                  | Some _ => r1
                  | None => with_locks (<[tenantId:=false]>
                                          (modelCreationLocks r1)) r1
                  end = S) by (by destruct (_ !! _)).
  revert H1'. generalize (match modelCreationLocks r1 !! tenantId with
                          | Some _ => r1
                          | None => with_locks (<[tenantId:=false]>
                                                  (modelCreationLocks r1)) r1
                          end).
  intros r2 H2. unfold runExclusive. apply wp_Act.
  destruct (modelCreationLocks r2 !! tenantId) as [[|]|];
    [split; [done|]; by intros ms | |];
    (apply wp_finally, wp_bind;
     eapply wp_mono; [by apply getCachedModels_kept|];
     intros r3 [[models|]|e|] [H3 Hms3]; cbn beta iota;
     [ apply wp_ret; split; [done|]; intros ms [= <-]; by apply Hms3
     | | by apply Hfail | split; [done|]; by intros ms ];
     apply wp_bind;
     eapply wp_mono; [by apply createTenantModels_kept|];
     intros r4 [models| e|] [H4 Hms4]; cbn beta iota;
     [ | by apply Hfail | split; [done|]; by intros ms ];
     apply wp_bind;
     eapply wp_mono; [by apply cacheModels_kept|];
     intros r5 [[]|e|] H5; cbn beta iota;
     [ | by apply Hfail | split; [done|]; by intros ms ];
     apply wp_bind, wp_write, wp_ret; split; [done|];
     intros ms [= <-]; by apply Hms4).
Qed.

End Kept.

(** While a name is not in the catalogue, no [getModels] of any tenant
    returns a handle for it, whatever the caches and connections hold:
    a cache hit skips the names that are not registered, and a cold
    materialization binds the catalogue only. *)
Lemma getModels_skips_unregistered (modelName tenantId : string)
    (r r' : State) (ms : list (string * Handle)) :
  assoc modelName (registeredSchemas r) = None →
  run (getModels tenantId) r = (r', Returned ms) →
  assoc modelName ms = None.
Proof.
  intros Hnone Hrun.
  pose proof (getModels_kept (registeredSchemas r) tenantId r eq_refl)
    as Hwp.
  apply (wp_run _ _ _ _ _ Hrun) in Hwp as [_ Hkeys].
  specialize (Hkeys ms eq_refl modelName).
  destruct (assoc modelName ms) as [m|]; [|done].
  rewrite Hnone in Hkeys. by destruct Hkeys.
Qed.

End CatalogueFacts.

(** ** The registry on the scenarios of the specification *)

Module RegistryExamples.
Import DistributedModelRegistry CatalogueFacts Scenarios.

(** C3 (what the code does). Register [User] and [Project] and call
    [getModels("acme")] twice on a fresh registry, with Redis down or
    up: the first call returns two handles and leaves the tier-1 hit
    counter at 0 and the cold-materialization counter at 1; the second
    call returns the same handles from the cache and leaves the cold
    counter at 1, but it is the tier-2 hit counter that goes to 1, the
    tier-1 hit counter stays at 0. *)
Theorem second_call_is_counted_as_tier2_hit (cm : CacheManager.State) :
  cm = redisDown ∨ cm = redisUp →
  let first := run (getModels "acme") (registered cm (managerWith [])) in
  let second := run (getModels "acme") first.1 in
  first.2 = Returned [("User", handle "User" (AppSchema 0));
                      ("Project", handle "Project" (AppSchema 1))]
  ∧ cacheHits_l1 (stats first.1) = 0
  ∧ modelCreations (stats first.1) = 1
  ∧ second.2 = first.2
  ∧ modelCreations (stats second.1) = 1
  ∧ cacheHits_l1 (stats second.1) = 0
  ∧ cacheHits_l2 (stats second.1) = 1.
Proof. intros [-> | ->]; vm_compute; repeat split. Qed.

Lemma second_call_is_counted_as_tier2_hit_witness :
  cacheHits_l2
    (stats (run (getModels "acme")
                (run (getModels "acme")
                     (registered redisDown (managerWith []))).1).1) = 1.
Proof.
  apply (second_call_is_counted_as_tier2_hit redisDown (or_introl eq_refl)).
Defined.

(** C2 (what the code does). On a tenant that is not cached,
    [getModel] of a name that is not in the catalogue registers it with
    the master-data schema and returns its handle.  On a tenant whose
    models are cached it registers the name and then throws "Model ...
    not found": the cache hit rebuilds the cached names only. *)
Theorem unknown_name_on_cached_tenant (cm : CacheManager.State) :
  cm = redisDown ∨ cm = redisUp →
  (run (getModel "acme" "UnknownCollection")
       (registered cm (managerWith []))).2
  = Returned (handle "UnknownCollection" MasterDataSchema)
  ∧ (run (getModel "acme" "UnknownCollection") (acmeCached cm)).2
    = Thrown (Error "Model UnknownCollection not found for tenant acme")
  ∧ isSchemaRegistered "UnknownCollection"
      (run (getModel "acme" "UnknownCollection") (acmeCached cm)).1 = true.
Proof. intros [-> | ->]; vm_compute; repeat split. Qed.

Lemma unknown_name_on_cached_tenant_witness :
  (run (getModel "acme" "UnknownCollection") (acmeCached redisUp)).2
  = Thrown (Error "Model UnknownCollection not found for tenant acme").
Proof.
  apply (unknown_name_on_cached_tenant redisUp (or_intror eq_refl)).
Defined.

End RegistryExamples.

(** ** The registry: a failed materialization *)

Module FailureFacts.
Import DistributedModelRegistry RegistryFacts CatalogueFacts.

(** Tier 2 holds the text of [v] under [k]. *)
Definition stored (cm : CacheManager.State) (k : string) (v : jsval)
  : Prop :=
  ∃ c ttl, CacheManager.l2Client cm = Some c
           ∧ CacheManager.store c !! k = Some (ttl, CacheManager.JsonText v).

(** From [cm] to [cm'] the cache was only read: Redis holds what it
    held, and an entry of tier 1 was there before or is the copy of what
    tier 2 holds under its key. *)
Definition readonly (cm cm' : CacheManager.State) : Prop :=
  CacheManager.store <$> CacheManager.l2Client cm'
  = CacheManager.store <$> CacheManager.l2Client cm
  ∧ ∀ k v, CacheManager.l1Cache cm' !! k = Some v →
           CacheManager.l1Cache cm !! k = Some v ∨ stored cm k v.

Lemma readonly_refl cm : readonly cm cm.
Proof. split; auto. Qed.

Lemma readonly_trans cm1 cm2 cm3 :
  readonly cm1 cm2 → readonly cm2 cm3 → readonly cm1 cm3.
Proof.
  intros [Hs12 Hl12] [Hs23 Hl23]. split; [congruence|].
  intros k v Hv. destruct (Hl23 k v Hv) as [H2|(c & ttl & Hc & Hk)].
  - by apply Hl12.
  - right. rewrite Hc in Hs12. simpl in Hs12.
    destruct (CacheManager.l2Client cm1) as [c1|] eqn:Hc1; [|done].
    exists c1, ttl. split; [done|]. simpl in Hs12. congruence.
Qed.

Lemma get_l2_readonly (key : string) (cm : CacheManager.State) :
  ∃ cm' v, run (CacheManager.get_l2 key) cm = (cm', Returned v)
           ∧ readonly cm cm'.
Proof.
  unfold CacheManager.get_l2. run_step.
  destruct (CacheManager.l2Ready cm) eqn:Hready; run_step;
    [|eauto using readonly_refl].
  destruct (CacheManagerFacts.l2Ready_client _ Hready) as [c Hc].
  unfold CacheManager.l2Client_get.
  rewrite (CacheManagerFacts.run_command _ _ _ Hc).
  assert (Hafter : readonly cm
            (CacheManagerFacts.afterCommand c (CacheManager.store c) cm)).
  { split; [by rewrite Hc | auto]. }
  destruct (CacheManager.replies c) as [|[e|] rest]; run_step;
    cbn [fst snd]; eauto;
    destruct (CacheManager.store c !! key) as [[ttl [v| |]]|] eqn:Hk;
    cbn [fmap option_fmap option_map snd CacheManager.text_truthy
         CacheManager.JSON_parse];
    run_step; eauto;
    (eexists _, _; split; [reflexivity|]; split; [by rewrite Hc|];
     intros k v' Hv'; cbn in Hv';
     destruct (decide (key = k)) as [<-|Hne];
     [ rewrite lookup_insert_eq in Hv'; injection Hv' as <-;
       right; by exists c, ttl
     | rewrite lookup_insert_ne in Hv' by done; by left ]).
Qed.

Lemma get_readonly (tenantId : string) (cm : CacheManager.State) :
  ∃ cm' v, run (CacheManager.get tenantId) cm = (cm', Returned v)
           ∧ readonly cm cm'.
Proof.
  unfold CacheManager.get. run_step.
  destruct (CacheManager.l1Cache cm !! _) as [v|];
    [destruct (truthy v)|]; try apply get_l2_readonly.
  run_step. eauto using readonly_refl.
Qed.

(** From [r] to [r'] no error and no materialization was counted and
    the cache was only read. *)
Definition quiet (r r' : State) : Prop :=
  errors (stats r') = errors (stats r)
  ∧ modelCreations (stats r') = modelCreations (stats r)
  ∧ readonly (cacheManager r) (cacheManager r').

Lemma quiet_refl r : quiet r r.
Proof. split; [done|]. split; [done|]. apply readonly_refl. Qed.

Lemma quiet_trans r1 r2 r3 : quiet r1 r2 → quiet r2 r3 → quiet r1 r3.
Proof.
  intros (? & ? & ?) (? & ? & ?).
  split; [congruence|]. split; [congruence|]. by eapply readonly_trans.
Qed.

Lemma quiet_conn r tcm : quiet r (with_connectionManager tcm r).
Proof. split; [done|]. split; [done|]. apply readonly_refl. Qed.

Lemma quiet_locks r l : quiet r (with_locks l r).
Proof. split; [done|]. split; [done|]. apply readonly_refl. Qed.

(** A relation between the state before and the state after that
    steps of the connection manager respect. *)
Section ConnectionSteps.
Context (R : State → State → Prop).
Context (R_trans : ∀ r1 r2 r3, R r1 r2 → R r2 r3 → R r1 r3).
Context (R_conn : ∀ r tcm, R r (with_connectionManager tcm r)).

Lemma conn_steps {A} (t : Task TenantConnectionManager.State A)
    (r0 r : State) :
  R r0 r → wp (conn t) (λ r' _, R r0 r') r.
Proof.
  intros Hq. eapply wp_mono; [apply conn_frame|].
  intros r' o [tcm ->]. eapply R_trans; [exact Hq | apply R_conn].
Qed.

Lemma bindModel_steps (indexes : bool) (connection : nat)
    (modelName : string) (schema : Schema) (r0 r : State) :
  R r0 r →
  wp (bindModel indexes connection modelName schema)
     (λ r' _, R r0 r') r.
Proof.
  intros Hq. unfold bindModel. apply wp_bind.
  eapply wp_mono; [by apply conn_steps|].
  intros r1 [[m|]|e|] H1; try done.
  apply wp_bind. eapply wp_mono; [by apply conn_steps|].
  intros r2 [[e|m]|e|] H2; try done.
  apply wp_bind, wp_orThrow. destruct indexes; [|done].
  apply wp_bind. eapply wp_mono; [by apply conn_steps|].
  intros r3 [[e|[]]|e|] H3; try done.
Qed.

Lemma reconstruct_steps (connection : nat)
    (entries : list (string * jsval)) (models : list (string * Handle))
    (r0 r : State) :
  R r0 r →
  wp (reconstruct connection entries models) (λ r' _, R r0 r') r.
Proof.
  revert models r.
  induction entries as [|[modelName modelInfo] rest IH];
    intros models r Hq; cbn [reconstruct]; [done|].
  apply wp_bind, wp_read.
  destruct (assoc modelName (registeredSchemas r)) as [schema|];
    [|by apply IH].
  apply wp_bind. eapply wp_mono; [by apply bindModel_steps|].
  intros r1 [m|e|] H1; try done. by apply IH.
Qed.

Lemma bindAll_steps (connection : nat)
    (schemas : list (string * Schema)) (models : list (string * Handle))
    (r0 r : State) :
  R r0 r →
  wp (bindAll connection schemas models) (λ r' _, R r0 r') r.
Proof.
  revert models r.
  induction schemas as [|[modelName schema] rest IH];
    intros models r Hq; cbn [bindAll]; [done|].
  apply wp_bind. eapply wp_mono; [by apply bindModel_steps|].
  intros r1 [m|e|] H1; try done. by apply IH.
Qed.

Lemma createTenantModels_steps (tenantId : string) (r0 r : State) :
  R r0 r → wp (createTenantModels tenantId) (λ r' _, R r0 r') r.
Proof.
  intros Hq. unfold createTenantModels. apply wp_bind.
  eapply wp_mono; [by apply conn_steps|].
  intros r1 [connection|e|] H1; try done.
  apply wp_bind, wp_read. by apply bindAll_steps.
Qed.

End ConnectionSteps.

(** [createTenantModels] changes the connection manager only. *)
Lemma createTenantModels_frame (tenantId : string) (r : State) :
  wp (createTenantModels tenantId)
     (λ r' _, ∃ tcm, r' = with_connectionManager tcm r) r.
Proof.
  apply (createTenantModels_steps
           (λ r r', ∃ tcm, r' = with_connectionManager tcm r)).
  - intros r1 r2 r3 [tcm ->] [tcm' ->]. by exists tcm'.
  - by eexists.
  - exists (connectionManager r). by destruct r.
Qed.

(** [getCachedModels] is quiet and does not throw. *)
Lemma getCachedModels_quiet (tenantId : string) (r0 r : State) :
  quiet r0 r →
  wp (getCachedModels tenantId)
     (λ r' o, quiet r0 r' ∧ ∀ e, o ≠ Thrown e) r.
Proof.
  intros Hq. unfold getCachedModels. apply wp_bind, wp_cache.
  destruct (get_readonly tenantId (cacheManager r)) as (cm' & v & Hrun & Hro).
  unfold wp at 1. rewrite Hrun. cbn [fst snd].
  assert (H1 : quiet r0 (with_cacheManager cm' r)).
  { eapply quiet_trans; [exact Hq|]. split; [done|]. by split. }
  revert H1. generalize (with_cacheManager cm' r). intros r1 H1.
  destruct (truthy v); cbn [negb].
  - apply wp_catch, wp_bind. eapply wp_mono; [by apply (conn_steps quiet quiet_trans quiet_conn)|].
    intros r2 [connection|e|] H2; [|by apply wp_ret|done].
    apply wp_bind, wp_orThrow.
    destruct (Object_entries _) as [e|entries]; [by apply wp_ret|].
    apply wp_bind. eapply wp_mono; [by apply (reconstruct_steps quiet quiet_trans quiet_conn)|].
    intros r3 [models|e|] H3; [|by apply wp_ret|done].
    assert (H4 : ∀ f, (f = hit_l1 ∨ f = hit_l2) → quiet r0 (with_stats f r3)).
    { intros f Hf. eapply quiet_trans; [exact H3|].
      destruct Hf as [-> | ->];
        (split; [done|]; split; [done|]; apply readonly_refl). }
    apply wp_bind.
    destruct (strictEq _ _); apply wp_write, wp_ret; split; auto.
  - apply wp_bind, wp_write, wp_ret. split; [|done].
    eapply quiet_trans; [exact H1|].
    split; [done|]. split; [done|]. apply readonly_refl.
Qed.

(** [cacheModels] throws only before it has written anything, and is
    never left suspended. *)
Lemma cacheModels_throws_early (tenantId : string)
    (models : list (string * Handle)) (r : State) :
  wp (cacheModels tenantId models)
     (λ r' o, match o with
              | Returned _ => True
              | Thrown _ => r' = r
              | Pending => False
              end) r.
Proof.
  unfold cacheModels.
  apply wp_bind, wp_read, wp_bind, wp_read, wp_bind, wp_orThrow.
  destruct (modelsMetadata r models) as [e|metadata]; [done|].
  apply wp_cache.
  destruct (CacheManagerFacts.set_returns tenantId
              (VObj [("tenantId", VStr tenantId);
                     ("timestamp", VNum (clock r));
                     ("models", VObj metadata)])
              None (cacheManager r)) as (cm' & Hrun & _).
  unfold wp. by rewrite Hrun.
Qed.

Lemma run_runExclusive {A} (tenantId : string) (callback : Task State A)
    (r : State) :
  run (runExclusive tenantId callback) r =
  match modelCreationLocks r !! tenantId with
  | Some true => (r, Pending)
  | _ => run (finally callback
                (λ r, with_locks (<[tenantId := false]>
                                    (modelCreationLocks r)) r))
             (with_locks (<[tenantId := true]> (modelCreationLocks r)) r)
  end.
Proof.
  unfold runExclusive. cbn [run].
  by destruct (modelCreationLocks r !! tenantId) as [[|]|].
Qed.

(** When [getModels] throws, one error was counted, no materialization
    was, and the cache was only read. *)
Lemma getModels_thrown (tenantId : string) (r : State) :
  tenantId ≠ "" →
  wp (getModels tenantId)
     (λ r' o, ∀ e, o = Thrown e →
        errors (stats r') = errors (stats r) + 1
        ∧ modelCreations (stats r') = modelCreations (stats r)
        ∧ readonly (cacheManager r) (cacheManager r')) r.
Proof.
  intros Hne. unfold getModels.
  destruct (String.eqb tenantId "") eqn:E;
    [by apply String.eqb_eq in E|].
  assert (Hfail : ∀ r1 e, quiet r r1 →
    wp (A := list (string * Handle))
       (write (with_stats failure);; throw e)
       (λ r' o, ∀ e, o = Thrown e →
          errors (stats r') = errors (stats r) + 1
          ∧ modelCreations (stats r') = modelCreations (stats r)
          ∧ readonly (cacheManager r) (cacheManager r')) r1).
  { intros r1 e (He & Hc & Hro). apply wp_bind, wp_write, wp_throw.
    intros _ _. cbn. by rewrite He. }
  apply wp_catch. eapply wp_mono with
    (Q := λ r1 o, ∀ e, o = Thrown e → quiet r r1).
  2:{ intros r1 [ms|e|] H1; [done | apply Hfail; by eapply H1 | done]. }
  apply wp_bind.
  eapply wp_mono; [apply getCachedModels_quiet, quiet_refl|].
  intros r1 [[models|]|e|] [H1 Hno]; cbn beta iota;
    [done | | by destruct (Hno e) | done].
  apply wp_bind, wp_write.
  assert (H2 : quiet r match modelCreationLocks r1 !! tenantId with
                       | Some _ => r1
                       | None => with_locks (<[tenantId:=false]>
                                               (modelCreationLocks r1)) r1
                       end).
  { destruct (_ !! _); [done|].
    eapply quiet_trans; [exact H1 | apply quiet_locks]. }
  revert H2. generalize (match modelCreationLocks r1 !! tenantId with
                         | Some _ => r1
                         | None => with_locks (<[tenantId:=false]>
                                                 (modelCreationLocks r1)) r1
                         end).
  intros r2 H2. unfold wp. rewrite run_runExclusive.
  destruct (modelCreationLocks r2 !! tenantId) as [[|]|] eqn:Hlock;
    [done | |];
    (apply wp_finally, wp_bind;
     eapply wp_mono;
       [apply getCachedModels_quiet;
        eapply quiet_trans; [exact H2 | apply quiet_locks]|];
     intros r3 [[models|]|e|] [H3 Hno3]; cbn beta iota;
       [done | | by destruct (Hno3 e) | done];
     apply wp_bind;
     eapply wp_mono;
       [by apply (createTenantModels_steps quiet quiet_trans quiet_conn)|];
     intros r4 [models|e|] H4; cbn beta iota;
       [ | intros e' _; eapply quiet_trans; [exact H4 | apply quiet_locks]
         | done ];
     apply wp_bind;
     eapply wp_mono; [apply cacheModels_throws_early|];
     intros r5 [[]|e|] H5; cbn beta iota;
       [ apply wp_bind, wp_write, wp_ret; done
       | intros e' _; subst r5;
         eapply quiet_trans; [exact H4 | apply quiet_locks]
       | done ]).
Qed.



End FailureFacts.

(** ** Lists of callers *)

Module PoolFacts.

Section Lists.
Context {X : Type}.
Implicit Types (l : list X) (i j : nat) (x : X).

Lemma lookup_lt l i x : l !! i = Some x → (i < length l)%nat.
Proof.
  revert i. induction l as [|y l IH]; intros [|i]; simpl; try done.
  - lia.
  - intros H. apply IH in H. lia.
Qed.

Lemma lookup_some l i : (i < length l)%nat → ∃ x, l !! i = Some x.
Proof.
  revert i. induction l as [|y l IH]; intros [|i]; simpl; try lia.
  - eauto.
  - intros H. apply IH. lia.
Qed.

Lemma insert_length l i x : length (<[i := x]> l) = length l.
Proof.
  revert i. induction l as [|y l IH]; intros [|i]; simpl; try done.
  by rewrite IH.
Qed.

Lemma lookup_insert_eq l i x :
  (i < length l)%nat → <[i := x]> l !! i = Some x.
Proof.
  revert i. induction l as [|y l IH]; intros [|i]; simpl; try lia.
  - done.
  - intros H. apply IH. lia.
Qed.

Lemma lookup_insert_ne l i j x : i ≠ j → <[i := x]> l !! j = l !! j.
Proof.
  revert i j. induction l as [|y l IH]; intros [|i] [|j] Hne; simpl;
    try done.
  apply IH. congruence.
Qed.

Lemma lookup_replicate (n : nat) x i :
  replicate n x !! i = if decide (i < n)%nat then Some x else None.
Proof.
  revert i. induction n as [|n IH]; intros [|i]; simpl; try done.
  rewrite IH. repeat case_decide; (done || lia).
Qed.

(** A list either satisfies a decidable property everywhere or has an
    element that fails it. *)
Lemma all_or_not (P : X → bool) l :
  (∀ i x, l !! i = Some x → P x = true)
  ∨ (∃ i x, l !! i = Some x ∧ P x = false).
Proof.
  induction l as [|y l [IH|(i & x & Hi & Hx)]].
  - left. by intros [|i] x.
  - destruct (P y) eqn:Hy.
    + left. intros [|i] x; simpl; [by intros [= <-] | apply IH].
    + right. by exists 0%nat, y.
  - right. by exists (S i), x.
Qed.

End Lists.

End PoolFacts.

(** ** Interleaved callers: every execution is finite *)

Module Termination.
Import Concurrent.

Section Finite.
Context {W A : Type}.

(** [t'] is what is left of [t] after its next action. *)
Definition rest_of (t' t : Task W A) : Prop :=
  match t with
  | Fin _ => False
  | Act f k => ∃ b, t' = k b
  end.

Lemma rest_of_wf : well_founded rest_of.
Proof.
  intros t. induction t as [o|B f k IH]; constructor; intros t' Ht'.
  - destruct Ht'.
  - destruct Ht' as [b ->]. apply IH.
Qed.

Lemma step_rest_of (t t' : Task W A) (w w' : W) :
  step t w = Some (t', w') → rest_of t' t.
Proof.
  destruct t as [o|B f k]; simpl; [done|].
  destruct (f w) as [[b w1]|]; [|done]. intros [= <- <-]. by exists b.
Qed.

(** One caller of the pool has moved on. *)
Definition pool_rest (ts' ts : list (Task W A)) : Prop :=
  ∃ i t t', ts !! i = Some t ∧ rest_of t' t ∧ ts' = <[i := t']> ts.

Lemma pool_rest_cons (t : Task W A) (ts : list (Task W A)) :
  Acc rest_of t → Acc pool_rest ts → Acc pool_rest (t :: ts).
Proof.
  intros Ht. revert ts. induction Ht as [t _ IHt]. intros ts Hts.
  induction Hts as [ts Hts IHts]. constructor.
  intros ts' (i & u & u' & Hi & Hu & ->). destruct i as [|i]; simpl in *.
  - injection Hi as ->. apply IHt; [done|]. by constructor.
  - apply IHts. by exists i, u, u'.
Qed.

Lemma pool_rest_wf : well_founded pool_rest.
Proof.
  intros ts. induction ts as [|t ts IH].
  - constructor. intros ts' (i & u & u' & Hi & _). by destruct i.
  - apply pool_rest_cons; [apply rest_of_wf | exact IH].
Qed.

(** No schedule keeps the callers busy for ever: a turn that runs an
    action leaves strictly less to do. *)
Lemma moves_wf : well_founded (@moves W A).
Proof.
  intros c.
  pose proof (pool_rest_wf c.2) as Hacc.
  remember c.2 as ts eqn:Hts. revert c Hts.
  induction Hacc as [ts _ IH]. intros c ->. constructor.
  intros c' (i & (t & Hi & [[t' w'] Hstep]) & ->).
  eapply IH; [|reflexivity].
  unfold turn. rewrite Hi, Hstep. simpl.
  exists i, t, t'. split; [done|]. split; [|done].
  by eapply step_rest_of.
Qed.

End Finite.

End Termination.

(** ** Interleaved callers: a mutex and what it protects *)

Module Rely.
Import Concurrent.
Import DistributedModelRegistry.

Section Logic.
Context {Core : Type}.
(** What of the state matters, the invariant of it, whether the mutex
    is held, and a fact that never ceases to hold once it holds. *)
Context (core : State → Core) (GI : Core → Prop).
Context (held : Core → bool) (written : Core → Prop).

(** A caller is outside the mutex, knowing at most [written], or it is
    the one inside, and then it knows [core] exactly: the callers outside
    do not change it. *)
Inductive mode : Type :=
| Out (w : bool)
| In (C : Core).

Definition holds (m : mode) (c : Core) : Prop :=
  match m with
  | Out w => w = true → written c
  | In C => c = C ∧ held c = true
  end.

(** What an action may do to [core], by the mode before and after. *)
Definition tr (m m' : mode) (c c' : Core) : Prop :=
  match m, m' with
  | Out _, Out _ => c' = c
  | Out _, In _ => held c = false ∧ (written c → written c')
  | In _, In _ => written c → written c'
  | In _, Out _ => held c' = false ∧ (written c → written c')
  end.

(** [rg m t Φ]: in mode [m], whatever the others do in between, every
    action of [t] keeps the invariant and its mode's promise, [t] is only
    ever blocked outside and by a held mutex, and it ends in a mode and
    with an outcome that satisfy [Φ]. *)
Fixpoint rg {A} (m : mode) (t : Task State A)
    (Φ : mode → Outcome A → Prop) : Prop :=
  match t with
  | Fin o => Φ m o
  | Act f k =>
      ∀ r, GI (core r) → holds m (core r) →
        match f r with
        | None =>
            match m with
            | Out _ => held (core r) = true
            | In _ => False
            end
        | Some (b, r') =>
            GI (core r')
            ∧ ∃ m', tr m m' (core r) (core r')
                    ∧ holds m' (core r')
                    ∧ rg m' (k b) Φ
        end
  end.

Lemma rg_mono {A} (m : mode) (t : Task State A)
    (Φ Φ' : mode → Outcome A → Prop) :
  (∀ m' o, Φ m' o → Φ' m' o) → rg m t Φ → rg m t Φ'.
Proof.
  intros HΦ. revert m. induction t as [o|B f k IH]; intros m; simpl.
  - apply HΦ.
  - intros Hrg r HGI Hm. specialize (Hrg r HGI Hm).
    destruct (f r) as [[b r']|]; [|done].
    destruct Hrg as (HGI' & m' & Htr & Hm' & Hk).
    split; [done|]. exists m'. repeat split; try done. by apply IH.
Qed.

Lemma rg_bind {A B} (m : mode) (t : Task State A) (g : A → Task State B)
    (Φ : mode → Outcome B → Prop) :
  rg m t (λ m' o, match o with
                  | Returned a => rg m' (g a) Φ
                  | Thrown e => Φ m' (Thrown e)
                  | Pending => Φ m' Pending
                  end) →
  rg m (bind t g) Φ.
Proof.
  revert m. induction t as [[a|e|]|C f k IH]; intros m; simpl; try done.
  intros Hrg r HGI Hm. specialize (Hrg r HGI Hm).
  destruct (f r) as [[b r']|]; [|done].
  destruct Hrg as (HGI' & m' & Htr & Hm' & Hk).
  split; [done|]. exists m'. repeat split; try done. by apply IH.
Qed.

Lemma rg_catch {A} (m : mode) (t : Task State A)
    (h : JsError → Task State A) (Φ : mode → Outcome A → Prop) :
  rg m t (λ m' o, match o with
                  | Thrown e => rg m' (h e) Φ
                  | _ => Φ m' o
                  end) →
  rg m (catch t h) Φ.
Proof.
  revert m. induction t as [[a|e|]|C f k IH]; intros m; simpl; try done.
  intros Hrg r HGI Hm. specialize (Hrg r HGI Hm).
  destruct (f r) as [[b r']|]; [|done].
  destruct Hrg as (HGI' & m' & Htr & Hm' & Hk).
  split; [done|]. exists m'. repeat split; try done. by apply IH.
Qed.

(** [finally] hands the outcome over to the clean-up, which is one more
    action in the mode the body ended in. *)
Lemma rg_finally {A} (m : mode) (t : Task State A) (c : State → State)
    (Φ : mode → Outcome A → Prop) :
  rg m t (λ m' o, match o with
                  | Pending => Φ m' Pending
                  | _ => rg m' (write c;; Fin o) Φ
                  end) →
  rg m (finally t c) Φ.
Proof.
  revert m. induction t as [[a|e|]|C f k IH]; intros m; simpl; try done.
  intros Hrg r HGI Hm. specialize (Hrg r HGI Hm).
  destruct (f r) as [[b r']|]; [|done].
  destruct Hrg as (HGI' & m' & Htr & Hm' & Hk).
  split; [done|]. exists m'. repeat split; try done. by apply IH.
Qed.

(** *** The pool of callers *)

Section Pool.
Context {A : Type} (Φ : mode → Outcome A → Prop).
Context (Φ_outside : ∀ C o, ¬ Φ (In C) o).

(** Every caller follows [rg] in its mode, at most one caller is
    inside, and the mutex is held only while one is. *)
Definition pool_inv (c : State * list (Task State A)) (ms : list mode)
  : Prop :=
  GI (core c.1)
  ∧ length ms = length c.2
  ∧ (∀ i t m, c.2 !! i = Some t → ms !! i = Some m →
              rg m t Φ ∧ holds m (core c.1))
  ∧ (∀ i j C C', ms !! i = Some (In C) → ms !! j = Some (In C') → i = j)
  ∧ (held (core c.1) = true → ∃ i C, ms !! i = Some (In C)).

Lemma pool_inv_turn (i : nat) (c : State * list (Task State A))
    (ms : list mode) :
  pool_inv c ms → ∃ ms', pool_inv (turn i c) ms'.
Proof.
  intros Hinv. unfold turn.
  destruct (c.2 !! i) as [t|] eqn:Hi; [|by exists ms].
  destruct (step t c.1) as [[t' r']|] eqn:Hstep; [|by exists ms].
  destruct c as [r ts].
  destruct Hinv as (HGI & Hlen & Hall & Huniq & Hheld). simpl in *.
  assert (Hlt : (i < length ms)%nat)
    by (rewrite Hlen; by eapply PoolFacts.lookup_lt).
  destruct (PoolFacts.lookup_some ms i Hlt) as [m Hm].
  destruct (Hall i t m Hi Hm) as [Hrg Hholds].
  destruct t as [o|B f k]; [done|]. simpl in Hstep, Hrg.
  specialize (Hrg r HGI Hholds).
  destruct (f r) as [[b r1]|]; [|done]. injection Hstep as <- <-.
  destruct Hrg as (HGI' & m' & Htr & Hm' & Hk).
  (* what the step means for a caller that is inside *)
  assert (Hother : ∀ j C, j ≠ i → ms !! j = Some (In C) →
            core r1 = core r ∧ ∃ w w', m = Out w ∧ m' = Out w').
  { intros j C Hne Hj.
    destruct (PoolFacts.lookup_some ts j) as [tj Htj];
      [rewrite <- Hlen; by eapply PoolFacts.lookup_lt|].
    destruct (Hall j tj _ Htj Hj) as [_ [_ Hh]].
    destruct m as [w|C1]; [|by destruct Hne; eapply Huniq].
    destruct m' as [w'|C1']; simpl in Htr; [eauto|].
    destruct Htr as [Hfree _]. congruence. }
  assert (Hwritten : written (core r) → written (core r1)).
  { destruct m, m'; simpl in Htr; [intros; by rewrite Htr | tauto..]. }
  exists (<[i := m']> ms). split; [done|]. simpl.
  split; [by rewrite !PoolFacts.insert_length|]. split; [|split].
  - intros j tj mj Htj Hmj. destruct (decide (j = i)) as [->|Hne].
    + rewrite PoolFacts.lookup_insert_eq in Htj
        by (by eapply PoolFacts.lookup_lt).
      rewrite PoolFacts.lookup_insert_eq in Hmj by done.
      injection Htj as <-. injection Hmj as <-. done.
    + rewrite PoolFacts.lookup_insert_ne in Htj by done.
      rewrite PoolFacts.lookup_insert_ne in Hmj by done.
      destruct (Hall j tj mj Htj Hmj) as [Hrgj Hhj]. split; [done|].
      destruct mj as [w|C]; simpl in *; [auto|].
      destruct (Hother j C Hne Hmj) as [-> _]. done.
  - intros j1 j2 C1 C2 H1 H2.
    destruct (decide (j1 = i)) as [->|Hne1];
      destruct (decide (j2 = i)) as [->|Hne2]; [done| | |].
    + rewrite PoolFacts.lookup_insert_ne in H2 by done.
      rewrite PoolFacts.lookup_insert_eq in H1 by done.
      destruct (Hother j2 C2 Hne2 H2) as [_ (w & w' & _ & ->)]. done.
    + rewrite PoolFacts.lookup_insert_ne in H1 by done.
      rewrite PoolFacts.lookup_insert_eq in H2 by done.
      destruct (Hother j1 C1 Hne1 H1) as [_ (w & w' & _ & ->)]. done.
    + rewrite PoolFacts.lookup_insert_ne in H1 by done.
      rewrite PoolFacts.lookup_insert_ne in H2 by done. by eapply Huniq.
  - intros Hheld'. destruct m' as [w'|C'].
    + destruct m as [w|C]; simpl in Htr.
      * rewrite Htr in Hheld'. destruct (Hheld Hheld') as (j & C & Hj).
        exists j, C. rewrite PoolFacts.lookup_insert_ne; [done|].
        intros <-. congruence.
      * destruct Htr as [Hfree _]. congruence.
    + exists i, C'. by rewrite PoolFacts.lookup_insert_eq.
Qed.

Lemma pool_inv_exec (schedule : list nat) (c : State * list (Task State A))
    (ms : list mode) :
  pool_inv c ms → ∃ ms', pool_inv (exec schedule c) ms'.
Proof.
  revert c ms. induction schedule as [|i schedule IH]; intros c ms Hinv.
  - by exists ms.
  - destruct (pool_inv_turn i c ms Hinv) as [ms1 H1].
    apply (IH _ ms1 H1).
Qed.

(** A caller that has its outcome is outside. *)
Lemma pool_inv_result (c : State * list (Task State A)) (ms : list mode)
    (i : nat) (o : Outcome A) :
  pool_inv c ms → c.2 !! i = Some (Fin o) →
  ∃ w, Φ (Out w) o ∧ holds (Out w) (core c.1).
Proof.
  intros (HGI & Hlen & Hall & Huniq & Hheld) Hi.
  destruct (PoolFacts.lookup_some ms i) as [m Hm];
    [rewrite Hlen; by eapply PoolFacts.lookup_lt|].
  destruct (Hall i _ m Hi Hm) as [Hrg Hh]. simpl in Hrg.
  destruct m as [w|C]; [eauto | by destruct (Φ_outside C o)].
Qed.

(** When every caller has its outcome the mutex is free. *)
Lemma pool_inv_settled (c : State * list (Task State A)) (ms : list mode) :
  pool_inv c ms → settled c → held (core c.1) = false.
Proof.
  intros Hinv Hset. destruct (held (core c.1)) eqn:Hh; [|done].
  destruct Hinv as (HGI & Hlen & Hall & Huniq & Hheld).
  destruct (Hheld Hh) as (i & C & Hi).
  destruct (PoolFacts.lookup_some c.2 i) as [t Ht];
    [rewrite <- Hlen; by eapply PoolFacts.lookup_lt|].
  destruct (Hall i t _ Ht Hi) as [Hrg _].
  destruct (Hset i t Ht) as [o Ho]. destruct t as [o'|]; [|done].
  by destruct (Φ_outside C o').
Qed.

(** As long as a caller has no outcome, some caller can take a turn. *)
Lemma pool_inv_enabled (c : State * list (Task State A)) (ms : list mode) :
  pool_inv c ms → ¬ settled c → ∃ i, enabled i c.
Proof.
  intros (HGI & Hlen & Hall & Huniq & Hheld) Hnot.
  assert (Hrun : ∀ i t m, c.2 !! i = Some t → ms !! i = Some m →
            result t = None →
            (∀ w, m = Out w → held (core c.1) = false) → enabled i c).
  { intros i t m Hi Hm Hres Hfree. exists t. split; [done|].
    destruct (Hall i t m Hi Hm) as [Hrg Hh].
    destruct t as [o|B f k]; [done|]. simpl in *.
    specialize (Hrg c.1 HGI Hh).
    destruct (f c.1) as [[b r']|]; [done|].
    destruct m as [w|C]; [|done]. rewrite (Hfree w eq_refl) in Hrg. done. }
  destruct (held (core c.1)) eqn:Hh.
  - destruct (Hheld eq_refl) as (i & C & Hi).
    destruct (PoolFacts.lookup_some c.2 i) as [t Ht];
      [rewrite <- Hlen; by eapply PoolFacts.lookup_lt|].
    exists i. apply (Hrun i t (In C) Ht Hi); [|done].
    destruct (Hall i t _ Ht Hi) as [Hrg _].
    destruct t as [o|]; [|done]. by destruct (Φ_outside C o).
  - destruct (PoolFacts.all_or_not
                (λ t : Task State A, bool_decide (is_Some (result t))) c.2)
      as [Hall'|(i & t & Hi & Hres)].
    { destruct Hnot. intros i t Hi.
      exact (bool_decide_eq_true_1 _ (Hall' i t Hi)). }
    destruct (PoolFacts.lookup_some ms i) as [m Hm];
      [rewrite Hlen; by eapply PoolFacts.lookup_lt|].
    exists i. apply (Hrun i t m Hi Hm); [|done].
    apply bool_decide_eq_false in Hres.
    destruct (result t); [by destruct Hres|done].
Qed.

End Pool.

End Logic.

End Rely.

(** ** Schedules *)

Module Schedules.
Import Concurrent.

Section Runs.
Context {W A : Type}.
Implicit Types (c : W * list (Task W A)) (t : Task W A).

Lemma turn_length (i : nat) c : length (turn i c).2 = length c.2.
Proof.
  unfold turn. destruct (c.2 !! i) as [t|]; [|done].
  destruct (step t c.1) as [[t' w']|]; [|done].
  apply PoolFacts.insert_length.
Qed.

Lemma exec_length (schedule : list nat) c :
  length (exec schedule c).2 = length c.2.
Proof.
  revert c. induction schedule as [|i schedule IH]; intros c; [done|].
  change (exec (i :: schedule) c) with (exec schedule (turn i c)).
  rewrite IH. apply turn_length.
Qed.

Lemma settled_dec c : settled c ∨ ¬ settled c.
Proof.
  destruct (PoolFacts.all_or_not
              (λ t : Task W A, bool_decide (is_Some (result t))) c.2)
    as [Hall|(i & t & Hi & Hres)].
  - left. intros i t Hi. exact (bool_decide_eq_true_1 _ (Hall i t Hi)).
  - right. intros Hset. apply bool_decide_eq_false in Hres.
    by destruct Hres, (Hset i t Hi).
Qed.

(** One caller alone: its turns one after the other are [run], up to
    where it has its outcome or cannot go on. *)
Lemma alone t (w : W) :
  ∃ schedule,
    (exec schedule (w, [t])).1 = (run t w).1
    ∧ ((exec schedule (w, [t])).2 = [Fin (run t w).2]
       ∨ ¬ settled (exec schedule (w, [t]))
         ∧ ∀ i, ¬ enabled i (exec schedule (w, [t]))).
Proof.
  revert w. induction t as [o|B f k IH]; intros w.
  - exists []. split; [done|by left].
  - destruct (f w) as [[b w']|] eqn:Hf.
    + destruct (IH b w') as (schedule & Hw & Hts).
      exists (0%nat :: schedule).
      assert (Hturn : turn 0 (w, [Act f k]) = (w', [k b]))
        by (unfold turn; cbn; by rewrite Hf).
      cbn [exec foldl run]. fold (exec schedule (turn 0 (w, [Act f k]))).
      by rewrite Hturn, Hf.
    + exists []. cbn. rewrite Hf. split; [done|]. right. split.
      * intros Hset. by destruct (Hset 0%nat (Act f k) eq_refl).
      * intros [|i] (t & Hi & Hstep); [|done].
        injection Hi as <-. cbn in Hstep. rewrite Hf in Hstep.
        by destruct Hstep.
Qed.

(** Under an invariant that gives progress, the callers can all be
    brought to their outcomes. *)
Lemma settles (I : W * list (Task W A) → Prop) :
  (∀ i c, I c → I (turn i c)) →
  (∀ c, I c → ¬ settled c → ∃ i, enabled i c) →
  ∀ c, I c → ∃ schedule, settled (exec schedule c).
Proof.
  intros Hturn Hprogress c.
  induction (Termination.moves_wf c) as [c _ IH]. intros Hc.
  destruct (settled_dec c) as [Hset|Hnot]; [by exists []|].
  destruct (Hprogress c Hc Hnot) as [i Hi].
  destruct (IH (turn i c)) as [schedule Hs];
    [by exists i|by apply Hturn|].
  by exists (i :: schedule).
Qed.

End Runs.

End Schedules.

(** ** Concurrent callers of one uncached tenant *)

Module SingleFlight.
Import Concurrent Cold Rely.
Import DistributedModelRegistry.
Local Open Scope list_scope.

Section Tenant.
Context (T : string) (r0 : State) (Hcold : uncached T r0)
        (Hord : ordinary r0).

Local Notation key := (CacheManager.generateKey T) (only parsing).

(** What of the state the callers of [getModels T] depend on. *)
Record Core : Type := {
  cS : list (string * Schema);
  cclock : Z;
  cl1 : option jsval;
  cl2 : option (Z * CacheManager.RedisText);
  ctracked : option nat;
  cdriver : Mongoose.Driver;
  ccreations : Z;
  cheld : bool;
}.

Definition core (r : State) : Core :=
  {| cS := registeredSchemas r;
     cclock := clock r;
     cl1 := CacheManager.l1Cache (cacheManager r) !! key;
     cl2 := CacheManager.l2Client (cacheManager r)
              ≫= λ c, CacheManager.store c !! key;
     ctracked := TenantConnectionManager.connections (connectionManager r) !! T;
     cdriver := TenantConnectionManager.mongoose (connectionManager r);
     ccreations := modelCreations (stats r);
     cheld := bool_decide (modelCreationLocks r !! T = Some true) |}.

(** The constants of the materialization. *)
Definition S0 : list (string * Schema) := registeredSchemas r0.
Definition d0 : Mongoose.Driver :=
  TenantConnectionManager.mongoose (connectionManager r0).
Definition c0 : nat := fresh (dom (Mongoose.objects d0)).
Definition m0 : Z := modelCreations (stats r0).
Definition M0 : list (string * Handle) := materialized r0.

(** [cacheData.models] for [M0]. *)
Definition info0 : list (string * jsval) :=
  (λ e, (e.1, VObj [("name", VStr e.1);
                    ("collectionName",
                     VStr (Mongoose.toCollectionName d0 e.1));
                    ("schemaRegistered", VBool true)]))
    <$> S0.

Definition D0 : jsval :=
  VObj [("tenantId", VStr T);
        ("timestamp", VNum (clock r0));
        ("models", VObj info0)].

Definition written (c : Core) : Prop := cl1 c = Some D0.

(** The connection of the tenant is open and has every handle. *)
Definition established (c : Core) : Prop :=
  ctracked c = Some c0
  ∧ Mongoose.readyState (Mongoose.deref (cdriver c) c0) = 1
  ∧ ∀ n m, assoc n M0 = Some (Bound m) →
           Mongoose.models (Mongoose.deref (cdriver c) c0) !! n = Some m.

(** The driver while the materialization is under way: the connection
    object, if there is one already, and how many [model] and
    [createIndexes] calls were made. *)
Definition drv (connection : option Mongoose.Connection) (k j : nat)
  : Mongoose.Driver :=
  {| Mongoose.objects := match connection with
                         | Some c => <[c0 := c]> (Mongoose.objects d0)
                         | None => Mongoose.objects d0
                         end;
     Mongoose.opens := match connection with
                       | Some _ => tail (Mongoose.opens d0)
                       | None => Mongoose.opens d0
                       end;
     Mongoose.closes := Mongoose.closes d0;
     Mongoose.modelFaults := drop k (Mongoose.modelFaults d0);
     Mongoose.indexFaults := drop j (Mongoose.indexFaults d0);
     Mongoose.toCollectionName := Mongoose.toCollectionName d0 |}.

Definition sigs0 : list ConnEvent :=
  match Mongoose.opens d0 with
  | sigs :: _ => sigs
  | [] => [EvConnected]
  end.

Definition conn0 (state : Z) (models : gmap string Model)
    (sigs : list ConnEvent) : Mongoose.Connection :=
  {| Mongoose.name := TenantConnectionManager.dbPrefix +:+ T;
     Mongoose.readyState := state;
     Mongoose.models := models;
     Mongoose.signals := sigs |}.

Definition mkModel (n : string) (s : Schema) : Model :=
  {| Mongoose.modelName := n;
     Mongoose.schema := s;
     Mongoose.db := c0;
     Mongoose.collectionName := Mongoose.toCollectionName d0 n |}.

(** [connection.models] after the schemas [l] were bound. *)
Definition modelsOf (l : list (string * Schema)) : gmap string Model :=
  foldl (λ acc '(n, s), <[n := mkModel n s]> acc) ∅ l.

Definition connected (l : list (string * Schema)) : Mongoose.Connection :=
  conn0 1 (modelsOf l) (Mongoose.listen true sigs0 2).2.

Definition core_of (l1 : option jsval)
    (l2 : option (Z * CacheManager.RedisText)) (tracked : option nat)
    (d : Mongoose.Driver) (creations : Z) (held : bool) : Core :=
  {| cS := S0; cclock := clock r0; cl1 := l1; cl2 := l2;
     ctracked := tracked; cdriver := d; ccreations := creations;
     cheld := held |}.

(** Before anything happened, and after the materialization. *)
Definition pristine : Core := core_of None None None d0 m0 false.

Definition dfinal : Mongoose.Driver :=
  drv (Some (connected S0)) (length S0) (length S0).

Definition done (l2 : option (Z * CacheManager.RedisText)) : Core :=
  core_of (Some D0) l2 (Some c0) dfinal (m0 + 1) false.

(** The invariant of [core]. *)
Definition GI (c : Core) : Prop :=
  cS c = S0
  ∧ (cl1 c = None ∨ cl1 c = Some D0)
  ∧ (cl2 c = None
     ∨ (cl1 c = Some D0 ∧ ∃ ttl, cl2 c = Some (ttl, CacheManager.JsonText D0)))
  ∧ (cl1 c = Some D0 → established c)
  ∧ (cheld c = false → c = pristine ∨ ∃ l2, c = done l2)
  ∧ (ccreations c = m0 ∨ ccreations c = m0 + 1)
  ∧ dom (Mongoose.objects (cdriver c)) ⊆ {[c0]} ∪ dom (Mongoose.objects d0).

Local Notation mode := (@Rely.mode Core) (only parsing).
Local Notation rg := (Rely.rg core GI cheld written) (only parsing).
Local Notation holds := (Rely.holds cheld written) (only parsing).
Local Notation tr := (Rely.tr cheld written) (only parsing).

(** A caller that learns that the cache is written. *)
Definition up (m : mode) : mode :=
  match m with
  | Out _ => Out true
  | In C => In C
  end.

Definition knows_written (m : mode) : Prop :=
  ∀ c, holds m c → written c.

Definition misses (m : mode) : Prop :=
  ∀ C, m = In C → cl1 C = None.

(** An action that leaves [core] alone may be taken in every mode, and
    the caller may come to know [written] by it. *)
Lemma stay (m m' : mode) (r r' : State) :
  core r' = core r → holds m (core r) →
  m' = m ∨ (m' = up m ∧ written (core r)) →
  tr m m' (core r) (core r') ∧ holds m' (core r').
Proof.
  intros -> Hm [-> | [-> Hw]].
  - destruct m; simpl; auto.
  - destruct m; simpl in *; auto.
Qed.

Lemma truthy_D0 : truthy D0 = true.
Proof. done. Qed.

(** The obligations of an action that leaves [core] alone. *)
Lemma step_stay {A} (m m' : mode) (r r' : State) (t : Task State A)
    (Φ : mode → Outcome A → Prop) :
  core r' = core r → GI (core r) → holds m (core r) →
  m' = m ∨ (m' = up m ∧ written (core r)) →
  rg m' t Φ →
  GI (core r')
  ∧ ∃ m', tr m m' (core r) (core r') ∧ holds m' (core r') ∧ rg m' t Φ.
Proof.
  intros Hc HGI Hm Hm' Hrg. split; [by rewrite Hc|]. exists m'.
  destruct (stay m m' r r' Hc Hm Hm'). done.
Qed.

Lemma knows_written_up (m : mode) (c : Core) :
  holds m c → written c → knows_written (up m).
Proof.
  intros Hm Hw c' Hc'. destruct m as [w|C]; simpl in *; [auto|].
  destruct Hm as [-> _], Hc' as [-> _]. done.
Qed.

Ltac exec :=
  cbn [lift bind catch finally read write act ret throw cache conn
       CacheManager.command orThrow TenantConnectionManager.orThrow
       TenantConnectionManager.driver];
  intros ?r ?HGI ?Hm.

(** A change of the cache manager that keeps the two entries of the
    tenant keeps [core]. *)
Lemma core_cache (r : State) (cm' : CacheManager.State) :
  CacheManager.l1Cache cm' !! key
  = CacheManager.l1Cache (cacheManager r) !! key →
  (CacheManager.l2Client cm' ≫= λ c, CacheManager.store c !! key)
  = (CacheManager.l2Client (cacheManager r)
       ≫= λ c, CacheManager.store c !! key) →
  core (with_cacheManager cm' r) = core r.
Proof. intros H1 H2. unfold core. cbn. by rewrite H1, H2. Qed.

Ltac cache_same Hc :=
  apply core_cache;
  cbn [CacheManager.l1Cache CacheManager.l2Client CacheManager.with_l2Client
       CacheManager.with_l1Cache CacheManager.store];
  rewrite ?Hc; cbn [mbind option_bind CacheManager.store]; try done.

(** [CacheManager.get] in any mode. *)
Lemma rg_get (m : mode) :
  rg m (cache (CacheManager.get T))
     (λ m' o, (m' = up m ∧ knows_written m' ∧ o = Returned D0)
              ∨ (m' = m ∧ misses m ∧ o = Returned VNull)).
Proof.
  unfold cache, CacheManager.get. exec.
  pose proof HGI as (_ & Hl1 & _).
  cbn [cl1 core] in Hl1. destruct Hl1 as [Hl1 | Hl1]; rewrite Hl1.
  - assert (Hmisses : misses m).
    { intros C ->. destruct Hm as [<- _]. exact Hl1. }
    apply (step_stay m m); [done..|by left|].
    unfold CacheManager.get_l2. exec.
    apply (step_stay m m); [done..|by left|].
    destruct (CacheManager.l2Ready (cacheManager r1)) eqn:Hready;
      [|by right].
    unfold CacheManager.l2Client_get. exec.
    pose proof HGI1 as (_ & _ & Hl2 & _). cbn [cl1 cl2 core] in Hl2.
    clear Hl1.
    destruct (CacheManager.l2Client (cacheManager r2)) as [c|] eqn:Hc.
    2:{ apply (step_stay m m); [done..|by left|]. by right. }
    cbn [mbind option_bind] in Hl2.
    assert (Hmiss : ∀ replies',
      GI (core (with_cacheManager
                  (CacheManager.with_l2Client
                     {| CacheManager.store := CacheManager.store c;
                        CacheManager.replies := replies' |}
                     (cacheManager r2)) r2))
      ∧ ∃ m', tr m m' (core r2)
                (core (with_cacheManager
                         (CacheManager.with_l2Client
                            {| CacheManager.store := CacheManager.store c;
                               CacheManager.replies := replies' |}
                            (cacheManager r2)) r2))
              ∧ holds m'
                  (core (with_cacheManager
                           (CacheManager.with_l2Client
                              {| CacheManager.store := CacheManager.store c;
                                 CacheManager.replies := replies' |}
                              (cacheManager r2)) r2))
              ∧ rg m' (Fin (Returned VNull))
                   (λ m' o, (m' = up m ∧ knows_written m' ∧ o = Returned D0)
                            ∨ (m' = m ∧ misses m ∧ o = Returned VNull))).
    { intros replies'. apply (step_stay m m); [cache_same Hc|done..|by left|].
      by right. }
    destruct (CacheManager.replies c) as [|[e|] rest] eqn:Hreplies;
      [|apply Hmiss|].
    all: destruct Hl2 as [Hl2 | [Hl1 [ttl Hl2]]]; rewrite Hl2;
           cbn [fmap option_fmap option_map snd CacheManager.text_truthy
                CacheManager.JSON_parse bind catch lift ret write act];
           [apply Hmiss|].
    all: apply (step_stay m (up m));
           [cache_same Hc|done..|right; split; [done|exact Hl1]|].
    all: intros r3 HGI3 Hm3.
    all: pose proof (knows_written_up m _ Hm1 Hl1) as Hk.
    all: apply (step_stay (up m) (up m));
           [cache_same Hc; rewrite lookup_insert_eq; symmetry;
            exact (Hk (core r3) Hm3)
           |done..|by left|].
    all: by left.
  - apply (step_stay m (up m)); [done..|right; split; [done|exact Hl1]|].
    rewrite truthy_D0. cbn [lift ret].
    left. split; [done|]. split; [|done]. by eapply knows_written_up.
Qed.

(** A change of the connection manager that keeps the connection of
    the tenant and the driver keeps [core]. *)
Lemma core_conn (r : State) (tcm' : TenantConnectionManager.State) :
  TenantConnectionManager.connections tcm' !! T
  = TenantConnectionManager.connections (connectionManager r) !! T →
  TenantConnectionManager.mongoose tcm'
  = TenantConnectionManager.mongoose (connectionManager r) →
  core (with_connectionManager tcm' r) = core r.
Proof. intros H1 H2. unfold core. cbn. by rewrite H1, H2. Qed.

(** *** The hit path *)

Lemma assoc_M0 (n : string) :
  assoc n M0 = (λ s, Bound (mkModel n s)) <$> assoc n S0.
Proof.
  unfold M0, materialized, S0, mkModel, c0, d0.
  induction (registeredSchemas r0) as [|[n' s] l IH]; [done|].
  cbn. destruct (String.eqb n n') eqn:E; [|exact IH].
  apply String.eqb_eq in E as ->. done.
Qed.

(** [getConnection] when the cache is written: the connection is
    there. *)
Lemma rg_getConnection_hit (m : mode) :
  knows_written m →
  rg m (conn (TenantConnectionManager.getConnection T))
     (λ m' o, m' = m ∧ o = Returned c0).
Proof.
  intros Hk. unfold conn, TenantConnectionManager.getConnection. exec.
  pose proof HGI as (_ & _ & _ & Hest & _).
  destruct (Hest (Hk _ Hm)) as (Htracked & _).
  cbn [ctracked core] in Htracked. rewrite Htracked.
  apply (step_stay m m); [done..|by left|]. exec.
  pose proof HGI0 as (_ & _ & _ & Hest0 & _).
  destruct (Hest0 (Hk _ Hm0)) as (_ & Hstate & _).
  cbn [cdriver core] in Hstate. rewrite Hstate.
  apply (step_stay m m); [done..|by left|].
  cbn [Z.eqb Pos.eqb]. unfold TenantConnectionManager.updateTimestamp. exec.
  apply (step_stay m m); [by apply core_conn|done..|by left|]. done.
Qed.

Lemma ordinary_S0 (n : string) (s : Schema) :
  assoc n S0 = Some s → inherited n = false.
Proof. apply RegistryFacts.ordinary_name, Hord. Qed.

(** What the loop of [getCachedModels] rebuilds from [entries]. *)
Definition rebuilt (entries : list (string * jsval))
    (acc : list (string * Handle)) : list (string * Handle) :=
  foldl (λ acc e, match assoc e.1 M0 with
                  | Some m => assign e.1 m acc
                  | None => acc
                  end) acc entries.

Lemma rg_reconstruct (m : mode) (entries : list (string * jsval))
    (acc : list (string * Handle)) :
  knows_written m →
  rg m (reconstruct c0 entries acc)
     (λ m' o, m' = m ∧ o = Returned (rebuilt entries acc)).
Proof.
  intros Hk. revert acc.
  induction entries as [|[n info] rest IH]; intros acc; cbn [reconstruct].
  - done.
  - exec. pose proof HGI as (HS & _). cbn [cS core] in HS. rewrite HS.
    apply (step_stay m m); [done..|by left|].
    unfold rebuilt. cbn [foldl fst]. rewrite assoc_M0.
    destruct (assoc n S0) as [s|] eqn:Hs; cbn [fmap option_fmap option_map];
      [|apply IH].
    unfold bindModel, connectionModel. exec.
    pose proof HGI0 as (_ & _ & _ & Hest & _).
    destruct (Hest (Hk _ Hm0)) as (_ & _ & Hmodels).
    specialize (Hmodels n (mkModel n s)). rewrite assoc_M0, Hs in Hmodels.
    cbn [cdriver core] in Hmodels. rewrite (Hmodels eq_refl).
    rewrite (RegistryFacts.member_ordinary _ n (ordinary_S0 n s Hs)).
    cbn [fmap option_fmap option_map].
    apply (step_stay m m); [done..|by left|]. cbn [bind ret].
    rewrite (RegistryFacts.put_ordinary n _ _ (ordinary_S0 n s Hs)).
    apply IH.
Qed.

(** *** Lists with names that differ *)

Lemma assign_fresh {X} (n : string) (x : X) (l : list (string * X)) :
  n ∉ l.*1 → assign n x l = l ++ [(n, x)].
Proof.
  induction l as [|[n' y] l IH]; intros Hn; cbn; [done|].
  cbn in Hn. apply not_elem_of_cons in Hn as [Hne Hn].
  destruct (String.eqb n n') eqn:E; [by apply String.eqb_eq in E|].
  by rewrite IH.
Qed.

Lemma assoc_None {X} (n : string) (l : list (string * X)) :
  n ∉ l.*1 → assoc n l = None.
Proof.
  induction l as [|[n' y] l IH]; intros Hn; cbn; [done|].
  cbn in Hn. apply not_elem_of_cons in Hn as [Hne Hn].
  destruct (String.eqb n n') eqn:E; [by apply String.eqb_eq in E|].
  by apply IH.
Qed.

Lemma assoc_app_fresh {X} (n : string) (x : X) (l l' : list (string * X)) :
  n ∉ l.*1 → assoc n (l ++ (n, x) :: l') = Some x.
Proof.
  induction l as [|[n' y] l IH]; intros Hn; cbn.
  - by rewrite String.eqb_refl.
  - cbn in Hn. apply not_elem_of_cons in Hn as [Hne Hn].
    destruct (String.eqb n n') eqn:E; [by apply String.eqb_eq in E|].
    by apply IH.
Qed.

(** Assigning the entries of a list without repeated names one after
    the other builds the list of the entries. *)
Lemma foldl_assign {X Y} (f : string → X → Y) (l : list (string * X))
    (acc : list (string * Y)) :
  NoDup (acc.*1 ++ l.*1) →
  foldl (λ acc '(n, x), assign n (f n x) acc) acc l
  = acc ++ ((λ '(n, x), (n, f n x)) <$> l).
Proof.
  revert acc. induction l as [|[n x] l IH]; intros acc Hnd; cbn.
  - by rewrite app_nil_r.
  - cbn in Hnd. apply NoDup_app in Hnd as (Hacc & Hdisj & Hl).
    rewrite assign_fresh.
    2:{ intros Hin. apply (Hdisj n Hin). left. }
    rewrite IH.
    + by rewrite <- app_assoc.
    + rewrite fmap_app. cbn. rewrite <- app_assoc. cbn.
      apply NoDup_app. split; [done|]. split; [|done].
      intros y Hy. by apply Hdisj.
Qed.

Lemma names_M0 : M0.*1 = S0.*1.
Proof.
  unfold M0, materialized, S0.
  induction (registeredSchemas r0) as [|[n s] l IH]; [done|].
  cbn. by rewrite IH.
Qed.

Lemma NoDup_S0 : NoDup S0.*1.
Proof. by destruct Hcold as (_ & _ & _ & _ & _ & H & _). Qed.

(** The metadata of bound handles of registered names. *)
Lemma metadataFrom_bound (r : State) (l : list (string * Schema))
    (acc : list (string * jsval)) :
  registeredSchemas r = S0 →
  Forall (λ e, is_Some (assoc e.1 S0)) l →
  NoDup (acc.*1 ++ l.*1) →
  modelsMetadataFrom r ((λ '(n, s), (n, Bound (mkModel n s))) <$> l) acc
  = inr (acc ++ ((λ e, (e.1, VObj [("name", VStr e.1);
                                   ("collectionName",
                                    VStr (Mongoose.toCollectionName d0 e.1));
                                   ("schemaRegistered", VBool true)]))
                   <$> l)).
Proof.
  intros HS. revert acc.
  induction l as [|[n s] l IH]; intros acc Hreg Hnd; cbn.
  - by rewrite app_nil_r.
  - apply Forall_cons in Hreg as [[s' Hs'] Hreg]. cbn in Hs'.
    cbn in Hnd. apply NoDup_app in Hnd as (Hacc & Hdisj & Hl).
    rewrite (RegistryFacts.put_ordinary n _ _ (ordinary_S0 n s' Hs')).
    rewrite assign_fresh.
    2:{ intros Hin. apply (Hdisj n Hin). left. }
    unfold isSchemaRegistered. rewrite HS, Hs'.
    rewrite bool_decide_eq_true_2 by done.
    rewrite IH.
    + by rewrite <- app_assoc.
    + done.
    + rewrite fmap_app. cbn. rewrite <- app_assoc. cbn.
      apply NoDup_app. split; [done|]. split; [|done].
      intros y Hy. by apply Hdisj.
Qed.

Lemma metadata_M0 (r : State) :
  registeredSchemas r = S0 → modelsMetadata r M0 = inr info0.
Proof.
  intros HS.
  exact (metadataFrom_bound r S0 [] HS (CatalogueFacts.assoc_self S0)
           NoDup_S0).
Qed.

Lemma rebuilt_metadata : rebuilt info0 [] = M0.
Proof.
  unfold rebuilt, info0.
  pose proof NoDup_S0 as Hnd. rewrite <- names_M0 in Hnd.
  assert (Hgen : ∀ l acc,
    acc ++ ((λ '(n, s), (n, Bound (mkModel n s))) <$> l) = M0 →
    foldl (λ acc e, match assoc e.1 M0 with
                    | Some m => assign e.1 m acc
                    | None => acc
                    end) acc
      ((λ e : string * Schema,
          (e.1, VObj [("name", VStr e.1);
                      ("collectionName",
                       VStr (Mongoose.toCollectionName d0 e.1));
                      ("schemaRegistered", VBool true)])) <$> l)
    = M0).
  { induction l as [|[n s] l IH]; intros acc Heq; cbn.
    - by rewrite app_nil_r in Heq.
    - cbn in Heq. rewrite <- Heq in Hnd. rewrite fmap_app in Hnd.
      cbn in Hnd. apply NoDup_app in Hnd as (_ & Hdisj & _).
      assert (Hn : n ∉ acc.*1).
      { intros Hin. apply (Hdisj n Hin). left. }
      rewrite <- Heq at 1. rewrite assoc_app_fresh by done.
      rewrite assign_fresh by done. apply IH.
      by rewrite <- app_assoc. }
  by apply (Hgen S0 []).
Qed.

Lemma entries_D0 : Object_entries (prop "models" D0) = inr info0.
Proof. done. Qed.

Lemma cacheLevel_D0 : strictEq (prop "cacheLevel" D0) "L1" = false.
Proof. done. Qed.

(** [getCachedModels] in any mode: it returns the handles, and then the
    cache is written, or it misses. *)
Lemma rg_getCachedModels (m : mode) :
  rg m (getCachedModels T)
     (λ m' o, (m' = up m ∧ knows_written m' ∧ o = Returned (Some M0))
              ∨ (m' = m ∧ misses m ∧ o = Returned None)).
Proof.
  unfold getCachedModels. apply rg_bind.
  eapply rg_mono; [|apply rg_get].
  intros m' o [(-> & Hk & ->)|(-> & Hmi & ->)].
  - rewrite truthy_D0. cbn [negb]. apply rg_catch, rg_bind.
    eapply rg_mono; [|by apply rg_getConnection_hit].
    intros m' o [-> ->]. rewrite entries_D0. cbn [orThrow bind ret].
    apply rg_bind. eapply rg_mono; [|by apply rg_reconstruct].
    intros m' o [-> ->]. rewrite cacheLevel_D0. exec.
    apply (step_stay (up m) (up m)); [done..|by left|].
    left. rewrite rebuilt_metadata. by destruct m.
  - cbn [truthy negb]. exec.
    apply (step_stay m m); [done..|by left|]. by right.
Qed.

(** *** The states the materialization goes through *)

Lemma core_fields (r : State) (C : Core) :
  core r = C →
  registeredSchemas r = cS C
  ∧ clock r = cclock C
  ∧ CacheManager.l1Cache (cacheManager r) !! key = cl1 C
  ∧ (CacheManager.l2Client (cacheManager r)
       ≫= λ c, CacheManager.store c !! key) = cl2 C
  ∧ TenantConnectionManager.connections (connectionManager r) !! T
    = ctracked C
  ∧ TenantConnectionManager.mongoose (connectionManager r) = cdriver C
  ∧ modelCreations (stats r) = ccreations C
  ∧ bool_decide (modelCreationLocks r !! T = Some true) = cheld C.
Proof. by intros <-. Qed.

(** The obligations of an action of the caller inside that changes
    [core] from [C] to [C']. *)
Lemma step_in {A} (C C' : Core) (r r' : State) (t : Task State A)
    (Φ : mode → Outcome A → Prop) :
  holds (In C) (core r) → core r' = C' → GI C' → cheld C' = true →
  (written C → written C') → rg (In C') t Φ →
  GI (core r')
  ∧ ∃ m', tr (In C) m' (core r) (core r') ∧ holds m' (core r') ∧ rg m' t Φ.
Proof.
  intros [HC _] Hc' HGI Hh Hw Hrg. rewrite Hc', HC.
  split; [done|]. exists (In C').
  split; [exact Hw|]. split; [by split|done].
Qed.

(** ... and of the action by which it leaves. *)
Lemma step_leave {A} (C C' : Core) (r r' : State) (t : Task State A)
    (Φ : mode → Outcome A → Prop) :
  holds (In C) (core r) → core r' = C' → GI C' → cheld C' = false →
  written C' → rg (Out true) t Φ →
  GI (core r')
  ∧ ∃ m', tr (In C) m' (core r) (core r') ∧ holds m' (core r') ∧ rg m' t Φ.
Proof.
  intros [HC _] Hc' HGI Hh Hw Hrg. rewrite Hc', HC.
  split; [done|]. exists (Out true).
  split; [by split|]. split; [by intros _|done].
Qed.

Lemma reliable_d0 : reliable d0.
Proof. by destruct Hcold as (_ & _ & _ & _ & _ & _ & H). Qed.

Lemma listen_returned (b : bool) (sigs : list ConnEvent) (state : Z) :
  (Mongoose.listen b sigs state).1.1 = Returned tt →
  (Mongoose.listen b sigs state).1.2 = 1.
Proof.
  revert state. induction sigs as [|[|e| |] sigs IH]; intros state; cbn;
    try done; try apply IH.
  destruct b; [done|apply IH].
Qed.

Definition rest0 : list ConnEvent := (Mongoose.listen true sigs0 2).2.

Lemma listen_sigs0 : Mongoose.listen true sigs0 2 = (Returned tt, 1, rest0).
Proof.
  assert (Hc : connects sigs0).
  { unfold sigs0. destruct reliable_d0 as [Hopens _].
    destruct (Mongoose.opens d0) as [|s l]; [done|].
    by apply Forall_cons in Hopens as [? _]. }
  pose proof (listen_returned true sigs0 2 Hc) as Hs. unfold rest0.
  unfold connects in Hc.
  destruct (Mongoose.listen true sigs0 2) as [[o s] rest]. cbn in *.
  by subst.
Qed.

Lemma tail_drop {X} (k : nat) (l : list X) : tail (drop k l) = drop (S k) l.
Proof.
  revert l. induction k as [|k IH]; intros [|x l]; cbn; done.
Qed.

Lemma no_fault (k : nat) (l : list (option JsError)) :
  Forall (λ fault, fault = None) l →
  drop k l = [] ∨ ∃ rest, drop k l = None :: rest.
Proof.
  intros Hl. apply (Forall_drop _ k) in Hl.
  destruct (drop k l) as [|x rest]; [by left|].
  apply Forall_cons in Hl as [-> _]. right. eauto.
Qed.

(** The driver at the steps of the materialization. *)
Lemma deref_drv (c : Mongoose.Connection) (k j : nat) :
  Mongoose.deref (drv (Some c) k j) c0 = c.
Proof. unfold Mongoose.deref, drv. cbn. by rewrite lookup_insert_eq. Qed.

Lemma createConnection_d0 :
  Mongoose.createConnection (TenantConnectionManager.dbPrefix +:+ T) d0
  = (c0, drv (Some (conn0 2 ∅ sigs0)) 0 0).
Proof. done. Qed.

Lemma listened_drv (st state : Z) (ms : gmap string Model)
    (sigs rest : list ConnEvent) (k j : nat) :
  Mongoose.listened c0 state rest (drv (Some (conn0 st ms sigs)) k j)
  = drv (Some (conn0 state ms rest)) k j.
Proof.
  unfold Mongoose.listened, Mongoose.with_objects, drv. cbn.
  by rewrite alter_insert_eq.
Qed.

Lemma model_drv (st : Z) (ms : gmap string Model) (sigs : list ConnEvent)
    (k j : nat) (n : string) (s : Schema) :
  Mongoose.model c0 n s (drv (Some (conn0 st ms sigs)) k j)
  = (inr (mkModel n s),
     drv (Some (conn0 st (<[n := mkModel n s]> ms) sigs)) (S k) j).
Proof.
  destruct reliable_d0 as (_ & Hfaults & _).
  unfold Mongoose.model, drv. cbn. rewrite alter_insert_eq, tail_drop.
  by destruct (no_fault k _ Hfaults) as [-> | [rest ->]].
Qed.

Lemma createIndexes_drv (c : option Mongoose.Connection) (k j : nat) :
  Mongoose.createIndexes (drv c k j) = (inr tt, drv c k (S j)).
Proof.
  destruct reliable_d0 as (_ & _ & Hfaults).
  unfold Mongoose.createIndexes, drv. cbn. rewrite tail_drop.
  by destruct (no_fault j _ Hfaults) as [-> | [rest ->]].
Qed.

Lemma dom_drv (c : Mongoose.Connection) (k j : nat) :
  dom (Mongoose.objects (drv (Some c) k j))
  = {[c0]} ∪ dom (Mongoose.objects d0).
Proof. unfold drv. cbn. by rewrite dom_insert_L. Qed.

(** The invariant in the states of the caller inside. *)
Lemma GI_cold (tracked : option nat) (d : Mongoose.Driver) :
  dom (Mongoose.objects d) ⊆ {[c0]} ∪ dom (Mongoose.objects d0) →
  GI (core_of None None tracked d m0 true).
Proof.
  intros Hdom. unfold GI. cbn.
  repeat split; try done; auto.
Qed.

Lemma modelsOf_snoc (l : list (string * Schema)) (n : string) (s : Schema) :
  modelsOf (l ++ [(n, s)]) = <[n := mkModel n s]> (modelsOf l).
Proof. unfold modelsOf. by rewrite foldl_snoc. Qed.

Lemma modelsOf_fresh (l : list (string * Schema)) (n : string) :
  n ∉ l.*1 → modelsOf l !! n = None.
Proof.
  induction l as [|[n' s] l IH] using rev_ind; intros Hn; [done|].
  rewrite modelsOf_snoc. rewrite fmap_app in Hn. cbn in Hn.
  apply not_elem_of_app in Hn as [Hl Hn'].
  apply not_elem_of_cons in Hn' as [Hne _].
  rewrite lookup_insert_ne by done. by apply IH.
Qed.

Lemma modelsOf_lookup (l : list (string * Schema)) (n : string) :
  NoDup l.*1 → modelsOf l !! n = mkModel n <$> assoc n l.
Proof.
  induction l as [|[n' s] l IH] using rev_ind; intros Hnd; [done|].
  rewrite modelsOf_snoc. rewrite fmap_app in Hnd. cbn in Hnd.
  apply NoDup_app in Hnd as (Hl & Hdisj & _).
  destruct (decide (n = n')) as [->|Hne].
  - rewrite lookup_insert_eq, assoc_app_fresh; [done|].
    intros Hin. apply (Hdisj n' Hin). left.
  - rewrite lookup_insert_ne by done. rewrite IH by done.
    clear IH Hdisj Hl. induction l as [|[n1 s1] l IH]; cbn.
    + destruct (String.eqb n n') eqn:E; [|done].
      by apply String.eqb_eq in E.
    + by destruct (String.eqb n n1).
Qed.

Lemma established_final (l1 : option jsval)
    (l2 : option (Z * CacheManager.RedisText)) (creations : Z)
    (held : bool) :
  established (core_of l1 l2 (Some c0) dfinal creations held).
Proof.
  unfold established, dfinal. cbn. rewrite deref_drv. cbn.
  split; [done|]. split; [done|]. intros n m Hm.
  rewrite modelsOf_lookup by apply NoDup_S0.
  rewrite assoc_M0 in Hm.
  destruct (assoc n S0) as [s|]; [|done]. cbn in Hm |- *. congruence.
Qed.

(** What tier 2 may hold for the tenant once the cache is written. *)
Definition l2_ok (l2 : option (Z * CacheManager.RedisText)) : Prop :=
  l2 = None ∨ ∃ ttl, l2 = Some (ttl, CacheManager.JsonText D0).

Lemma GI_written (l2 : option (Z * CacheManager.RedisText))
    (creations : Z) :
  l2_ok l2 → creations = m0 ∨ creations = m0 + 1 →
  GI (core_of (Some D0) l2 (Some c0) dfinal creations true).
Proof.
  intros Hl2 Hcr. unfold GI. cbn.
  split; [done|]. split; [by right|]. split.
  { destruct Hl2 as [->|Hl2]; [by left | by right]. }
  split; [intros _; apply established_final|].
  split; [done|]. split; [done|].
  unfold dfinal, drv. cbn. by rewrite dom_insert_L.
Qed.

Lemma GI_done (l2 : option (Z * CacheManager.RedisText)) :
  l2_ok l2 → GI (done l2).
Proof.
  intros Hl2. unfold GI, done. cbn.
  split; [done|]. split; [by right|]. split.
  { destruct Hl2 as [->|Hl2]; [by left | by right]. }
  split; [intros _; apply established_final|].
  split; [intros _; right; by exists l2|]. split; [by right|].
  unfold dfinal, drv. cbn. by rewrite dom_insert_L.
Qed.

Lemma core_r0 : core r0 = pristine.
Proof.
  destruct Hcold as (_ & Hl1 & Hl2 & Htr & Hlock & _).
  unfold core, pristine, core_of. rewrite Hl1, Hl2, Htr.
  by rewrite bool_decide_eq_false_2.
Qed.

Lemma GI_pristine : GI pristine.
Proof.
  unfold GI, pristine. cbn.
  repeat split; try done; auto. set_solver.
Qed.

(** [core] of a state, by its parts. *)
Lemma core_eq (r : State) (l1 : option jsval)
    (l2 : option (Z * CacheManager.RedisText)) (tracked : option nat)
    (d : Mongoose.Driver) (creations : Z) (held : bool) :
  registeredSchemas r = S0 → clock r = clock r0 →
  CacheManager.l1Cache (cacheManager r) !! key = l1 →
  (CacheManager.l2Client (cacheManager r)
     ≫= λ c, CacheManager.store c !! key) = l2 →
  TenantConnectionManager.connections (connectionManager r) !! T = tracked →
  TenantConnectionManager.mongoose (connectionManager r) = d →
  modelCreations (stats r) = creations →
  bool_decide (modelCreationLocks r !! T = Some true) = held →
  core r = core_of l1 l2 tracked d creations held.
Proof.
  intros HS Hc <- <- <- <- <- <-. unfold core, core_of. by rewrite HS, Hc.
Qed.

(** The caller inside while it materializes: nothing is cached, the
    connection is tracked or not, the driver is at [d]. *)
Definition cold (tracked : option nat) (d : Mongoose.Driver) : Core :=
  core_of None None tracked d m0 true.

(** The caller inside once tier 1 is written. *)
Definition warm (l2 : option (Z * CacheManager.RedisText)) (creations : Z)
  : Core :=
  core_of (Some D0) l2 (Some c0) dfinal creations true.

Ltac known_eq Heq :=
  let H := fresh in
  pose proof (core_fields _ _ Heq) as H;
  unfold cold, warm in H;
  cbn [cS cclock cl1 cl2 ctracked cdriver ccreations cheld core_of] in H;
  destruct H as (?HS & ?Hclock & ?Hl1 & ?Hl2 & ?Htr & ?Hd & ?Hcr & ?Hheld).

Ltac known Hm := known_eq (proj1 Hm).

Ltac parts :=
  apply core_eq;
  cbn [registeredSchemas clock cacheManager connectionManager stats
       modelCreationLocks with_connectionManager with_cacheManager
       with_stats with_locks
       TenantConnectionManager.connections TenantConnectionManager.mongoose
       TenantConnectionManager.with_mongoose
       CacheManager.l1Cache CacheManager.l2Client CacheManager.with_l1Cache
       CacheManager.with_l2Client CacheManager.store
       modelCreations creation];
  try done.

Lemma GI_cold_drv (tracked : option nat) (c : Mongoose.Connection)
    (k j : nat) :
  GI (cold tracked (drv (Some c) k j)).
Proof. apply GI_cold. by rewrite dom_drv. Qed.

(** An action of the caller inside that leaves [core] alone. *)
Lemma step_same {A} (C : Core) (r r' : State) (t : Task State A)
    (Φ : mode → Outcome A → Prop) :
  core r' = core r → GI (core r) → holds (In C) (core r) →
  rg (In C) t Φ →
  GI (core r')
  ∧ ∃ m', tr (In C) m' (core r) (core r') ∧ holds m' (core r') ∧ rg m' t Φ.
Proof. intros Hc HGI Hm Hrg. apply (step_stay (In C) (In C)); auto. Qed.

Lemma rg_getConnection_cold :
  rg (In (cold None d0)) (conn (TenantConnectionManager.getConnection T))
     (λ m' o, m' = In (cold (Some c0) (drv (Some (connected [])) 0 0))
              ∧ o = Returned c0).
Proof.
  unfold conn, TenantConnectionManager.getConnection. exec. known Hm.
  rewrite Htr. apply step_same; [done..|].
  unfold TenantConnectionManager.createConnection. exec. known Hm0.
  rewrite Hd0, createConnection_d0.
  apply (step_in _ (cold None (drv (Some (conn0 2 ∅ sigs0)) 0 0)));
    [exact Hm0|parts|apply GI_cold_drv|done..|].
  unfold TenantConnectionManager.awaitSignals. exec. known Hm1.
  rewrite Hd1, deref_drv. cbn [Mongoose.signals Mongoose.readyState conn0].
  rewrite listen_sigs0.
  apply (step_in _ (cold None (drv (Some (connected [])) 0 0)));
    [exact Hm1|parts; by rewrite Hd1, listened_drv
    |apply GI_cold_drv|done..|].
  exec. known Hm2.
  apply (step_in _ (cold (Some c0) (drv (Some (connected [])) 0 0)));
    [exact Hm2|parts; by rewrite lookup_insert_eq
    |apply GI_cold_drv|done..|].
  unfold TenantConnectionManager.updateTimestamp. exec.
  apply step_same; [by apply core_conn|done..|]. done.
Qed.

Definition bound (l : list (string * Schema)) : list (string * Handle) :=
  (λ '(n, s), (n, Bound (mkModel n s))) <$> l.

Lemma bound_S0 : bound S0 = M0.
Proof. done. Qed.

Lemma names_bound (l : list (string * Schema)) : (bound l).*1 = l.*1.
Proof. induction l as [|[n s] l IH]; [done|]. cbn. f_equal. exact IH. Qed.

(** The loop of [createTenantModels], with [pre] bound already. *)
Lemma rg_bindAll (post pre : list (string * Schema)) :
  S0 = pre ++ post →
  rg (In (cold (Some c0)
            (drv (Some (connected pre)) (length pre) (length pre))))
     (bindAll c0 post (bound pre))
     (λ m' o, m' = In (cold (Some c0) dfinal) ∧ o = Returned M0).
Proof.
  revert pre. induction post as [|[n s] post IH]; intros pre Heq;
    cbn [bindAll].
  - rewrite app_nil_r in Heq. subst pre. done.
  - assert (Hn : n ∉ pre.*1).
    { pose proof NoDup_S0 as Hnd. rewrite Heq, fmap_app in Hnd.
      apply NoDup_app in Hnd as (_ & Hdisj & _).
      intros Hin. apply (Hdisj n Hin). left. }
    assert (Hplain : inherited n = false).
    { apply (ordinary_S0 n s). rewrite Heq. by apply assoc_app_fresh. }
    unfold bindModel, connectionModel. exec. known Hm.
    rewrite Hd, deref_drv. cbn [Mongoose.models connected conn0].
    rewrite modelsOf_fresh by done.
    rewrite (RegistryFacts.member_ordinary _ n Hplain).
    cbn [fmap option_fmap option_map].
    apply step_same; [done..|]. exec. known Hm0.
    rewrite Hd0. unfold connected. rewrite model_drv.
    apply (step_in _ (cold (Some c0)
                        (drv (Some (connected (pre ++ [(n, s)])))
                             (S (length pre)) (length pre))));
      [exact Hm0|parts; unfold connected; by rewrite modelsOf_snoc
      |apply GI_cold_drv|done..|].
    exec. known Hm1. rewrite Hd1, createIndexes_drv.
    apply (step_in _ (cold (Some c0)
                        (drv (Some (connected (pre ++ [(n, s)])))
                             (S (length pre)) (S (length pre)))));
      [exact Hm1|parts|apply GI_cold_drv|done..|].
    cbn [orThrow bind ret].
    rewrite (RegistryFacts.put_ordinary n _ _ Hplain), assign_fresh.
    2:{ by rewrite names_bound. }
    specialize (IH (pre ++ [(n, s)])).
    rewrite length_app in IH. cbn [length] in IH.
    rewrite Nat.add_1_r in IH. unfold bound in IH. rewrite fmap_app in IH.
    apply IH. by rewrite <- app_assoc.
Qed.

Lemma rg_createTenantModels :
  rg (In (cold None d0)) (createTenantModels T)
     (λ m' o, m' = In (cold (Some c0) dfinal) ∧ o = Returned M0).
Proof.
  unfold createTenantModels. apply rg_bind.
  eapply rg_mono; [|apply rg_getConnection_cold].
  intros m' o [-> ->]. exec. known Hm. rewrite HS.
  apply step_same; [done..|]. by apply (rg_bindAll S0 []).
Qed.

Lemma rg_cacheModels :
  rg (In (cold (Some c0) dfinal)) (cacheModels T M0)
     (λ m' o, ∃ l2, l2_ok l2 ∧ m' = In (warm l2 m0) ∧ o = Returned tt).
Proof.
  unfold cacheModels. exec. known Hm.
  apply step_same; [done..|]. exec. known Hm0.
  apply step_same; [done..|].
  rewrite Hclock, (metadata_M0 r1 HS0). cbn [orThrow bind ret].
  fold D0. unfold CacheManager.set. exec. known Hm1.
  apply (step_in _ (warm None m0));
    [exact Hm1|parts; by rewrite lookup_insert_eq
    |apply GI_written; [by left|by left]|done..|].
  exec. apply step_same; [done..|].
  destruct (CacheManager.l2Ready (cacheManager r3)); cbn [lift ret];
    [|exists None; by repeat split; try left].
  unfold CacheManager.l2Client_setEx. exec. known Hm3.
  destruct (CacheManager.l2Client (cacheManager r4)) as [c|] eqn:Hc.
  2:{ apply step_same; [done..|]. exists None. by repeat split; try left. }
  destruct (CacheManager.replies c) as [|[e|] rest] eqn:Hreplies.
  2:{ apply step_same; [cache_same Hc|done..|].
      exists None. by repeat split; try left. }
  all: apply (step_in _ (warm (Some (CacheManager.redisTTL None / 1000,
                                     CacheManager.JsonText D0)) m0));
         [exact Hm3
         |parts; rewrite ?Hc; cbn [mbind option_bind CacheManager.store];
          by rewrite lookup_insert_eq
         |apply GI_written; [right; by eexists|by left]|done..|].
  all: eexists; split; [|done]; right; by eexists.
Qed.

(** The caller that finds nothing cached inside the mutex
    materializes, writes the cache and counts the creation. *)
Lemma rg_materialize :
  rg (In (cold None d0))
     (let* models := createTenantModels T in
      cacheModels T models;;
      write (with_stats creation);;
      ret models)
     (λ m' o, ∃ l2, l2_ok l2 ∧ m' = In (warm l2 (m0 + 1))
                    ∧ o = Returned M0).
Proof.
  apply rg_bind. eapply rg_mono; [|apply rg_createTenantModels].
  intros m' o [-> ->]. apply rg_bind.
  eapply rg_mono; [|apply rg_cacheModels].
  intros m' o (l2 & Hl2 & -> & ->). exec. known Hm.
  apply (step_in _ (warm l2 (m0 + 1)));
    [exact Hm|parts; by rewrite Hcr
    |apply GI_written; [done|by right]|done..|].
  by exists l2.
Qed.

(** Leaving the mutex. *)
Lemma rg_release (l2 : option (Z * CacheManager.RedisText))
    (o : Outcome (list (string * Handle)))
    (Φ : mode → Outcome (list (string * Handle)) → Prop) :
  l2_ok l2 → Φ (Out true) o →
  rg (In (warm l2 (m0 + 1)))
     (write (λ r, with_locks (<[T := false]> (modelCreationLocks r)) r);;
      Fin o) Φ.
Proof.
  intros Hl2 HΦ. exec. known Hm.
  apply (step_leave _ (done l2));
    [exact Hm|parts; by rewrite lookup_insert_eq
    |by apply GI_done|done..].
Qed.

(** Entering the mutex: it is free, so either nothing has happened
    yet or the materialization is over. *)
Lemma rg_runExclusive {A} (w : bool) (callback : Task State A)
    (Φ : mode → Outcome A → Prop) :
  rg (In (cold None d0))
     (finally callback
        (λ r, with_locks (<[T := false]> (modelCreationLocks r)) r)) Φ →
  (∀ l2, l2_ok l2 →
     rg (In (warm l2 (m0 + 1)))
        (finally callback
           (λ r, with_locks (<[T := false]> (modelCreationLocks r)) r)) Φ) →
  rg (Out w) (runExclusive T callback) Φ.
Proof.
  intros Hfirst Hlater. unfold runExclusive. cbn [rg]. intros r HGI Hm.
  assert (Henter : cheld (core r) = false →
    GI (core (with_locks (<[T := true]> (modelCreationLocks r)) r))
    ∧ ∃ m', tr (Out w) m' (core r)
              (core (with_locks (<[T := true]> (modelCreationLocks r)) r))
            ∧ holds m'
                (core (with_locks (<[T := true]> (modelCreationLocks r)) r))
            ∧ rg m' (finally callback
                       (λ r, with_locks (<[T := false]>
                                           (modelCreationLocks r)) r)) Φ).
  { intros Hfree. pose proof HGI as (_ & _ & Hl2 & _ & Hout & _).
    destruct (Hout Hfree) as [Hc | [l2 Hc]].
    - known_eq Hc.
      assert (Hc' : core (with_locks (<[T := true]> (modelCreationLocks r)) r)
                    = cold None d0)
        by (parts; by rewrite lookup_insert_eq).
      rewrite Hc'. split; [apply GI_cold, union_subseteq_r|].
      exists (In (cold None d0)).
      split; [|split; [by split|done]].
      split; [done|]. rewrite Hc. intros Hw. discriminate Hw.
    - assert (Hok : l2_ok l2).
      { rewrite Hc in Hl2. cbn in Hl2.
        destruct Hl2 as [->|[_ Hl2]]; [by left|by right]. }
      unfold done in Hc. known_eq Hc.
      assert (Hc' : core (with_locks (<[T := true]> (modelCreationLocks r)) r)
                    = warm l2 (m0 + 1))
        by (parts; by rewrite lookup_insert_eq).
      rewrite Hc'. split; [apply GI_written; [done|by right]|].
      exists (In (warm l2 (m0 + 1))).
      split; [|split; [by split|by apply Hlater]].
      split; [done|]. done. }
  destruct (modelCreationLocks r !! T) as [[|]|] eqn:Hlock.
  - cbn [cheld core]. by rewrite Hlock.
  - apply Henter. cbn [cheld core]. by rewrite Hlock.
  - apply Henter. cbn [cheld core]. by rewrite Hlock.
Qed.

(** What every caller ends with. *)
Definition served (m : mode) (o : Outcome (list (string * Handle))) : Prop :=
  m = Out true ∧ o = Returned M0.

Lemma rg_getModels : rg (Out false) (getModels T) served.
Proof.
  destruct Hcold as (HT & _). unfold getModels.
  destruct (String.eqb T "") eqn:E; [by apply String.eqb_eq in E|].
  apply rg_catch, rg_bind. eapply rg_mono; [|apply rg_getCachedModels].
  intros m' o [(-> & Hk & ->)|(-> & Hmi & ->)]; [done|].
  unfold getMutex. exec.
  apply (step_stay (Out false) (Out false)); [|done..|by left|].
  { destruct (modelCreationLocks r !! T) as [b|] eqn:Hlock; [done|].
    unfold core. cbn. rewrite Hlock, lookup_insert_eq. done. }
  apply rg_runExclusive.
  - apply rg_finally, rg_bind. eapply rg_mono; [|apply rg_getCachedModels].
    intros m' o [(-> & Hk & ->)|(-> & _ & ->)].
    { specialize (Hk (cold None d0) (conj eq_refl eq_refl)).
      discriminate Hk. }
    eapply rg_mono; [|apply rg_materialize].
    intros m' o (l2 & Hl2 & -> & ->). by apply rg_release.
  - intros l2 Hl2.
    apply rg_finally, rg_bind. eapply rg_mono; [|apply rg_getCachedModels].
    intros m' o [(-> & Hk & ->)|(-> & Hnone & ->)].
    { by apply rg_release. }
    specialize (Hnone _ eq_refl). discriminate Hnone.
Qed.

(** *** The callers together *)

Lemma served_outside (C : Core) (o : Outcome (list (string * Handle))) :
  ¬ served (In C) o.
Proof. by intros [? _]. Qed.

Local Notation pool_inv :=
  (Rely.pool_inv core GI cheld written served) (only parsing).

Lemma pool_start (N : nat) :
  pool_inv (r0, replicate N (getModels T)) (replicate N (Out false)).
Proof.
  unfold Rely.pool_inv. cbn [fst snd].
  split; [rewrite core_r0; apply GI_pristine|].
  split.
  { induction N as [|N IH]; [done|]. cbn. by rewrite IH. }
  split; [|split].
  - intros i t m. rewrite !PoolFacts.lookup_replicate.
    case_decide; [|done]. intros [= <-] [= <-].
    split; [apply rg_getModels|done].
  - intros i j C C'. rewrite PoolFacts.lookup_replicate.
    by case_decide.
  - by rewrite core_r0.
Qed.

Lemma pool_reached (N : nat) (schedule : list nat) :
  ∃ ms, pool_inv (exec schedule (r0, replicate N (getModels T))) ms.
Proof.
  eapply pool_inv_exec, pool_start.
Qed.

(** A caller that has its outcome has the handles, and the cache is
    written. *)
Lemma pool_served (c : State * list (Task State (list (string * Handle))))
    (ms : list mode) (i : nat) (o : Outcome (list (string * Handle))) :
  pool_inv c ms → c.2 !! i = Some (Fin o) →
  o = Returned M0 ∧ written (core c.1).
Proof.
  intros Hinv Hi.
  destruct (pool_inv_result _ _ _ _ _ served_outside c ms i o Hinv Hi)
    as (w & [[= ->] ->] & Hw).
  split; [done|]. by apply Hw.
Qed.

Lemma fresh_c0 : Mongoose.objects d0 !! c0 = None.
Proof. apply not_elem_of_dom, is_fresh. Qed.

Lemma size_dfinal :
  size (Mongoose.objects dfinal) = S (size (Mongoose.objects d0)).
Proof.
  unfold dfinal, drv. cbn [Mongoose.objects].
  by rewrite map_size_insert_None by apply fresh_c0.
Qed.

(** At most one materialization, whatever the callers have done. *)
Lemma pool_bounded (r : State) :
  GI (core r) →
  (modelCreations (stats r) = m0 ∨ modelCreations (stats r) = m0 + 1)
  ∧ (connectionCount r ≤ S (connectionCount r0))%nat.
Proof.
  intros (_ & _ & _ & _ & _ & Hcr & Hdom). split; [exact Hcr|].
  unfold connectionCount. cbn [cdriver core] in Hdom. fold d0.
  rewrite <- !size_dom. apply subseteq_size in Hdom.
  rewrite size_union in Hdom.
  - by rewrite size_singleton in Hdom.
  - apply disjoint_singleton_l, is_fresh.
Qed.

(** When every caller has its outcome, there was exactly one. *)
Lemma pool_settled (c : State * list (Task State (list (string * Handle))))
    (ms : list mode) :
  pool_inv c ms → settled c → (0 < length c.2)%nat →
  ∃ l2, core c.1 = done l2.
Proof.
  intros Hinv Hset Hlen.
  pose proof (pool_inv_settled _ _ _ _ _ served_outside c ms Hinv Hset)
    as Hfree.
  destruct (PoolFacts.lookup_some c.2 0 Hlen) as [t Ht].
  destruct (Hset 0%nat t Ht) as [o Ho].
  destruct t as [o'|]; [|done].
  destruct (pool_served c ms 0 o' Hinv Ht) as [_ Hw].
  destruct Hinv as ((_ & _ & _ & _ & Hout & _) & _).
  destruct (Hout Hfree) as [Hc|Hc]; [|done].
  unfold written in Hw. rewrite Hc in Hw. discriminate Hw.
Qed.

(** *** What holds after any schedule *)

Local Notation reached N schedule :=
  (exec schedule (r0, replicate N (getModels T))) (only parsing).

Lemma reached_served (N : nat) (schedule : list nat) (i : nat)
    (o : Outcome (list (string * Handle))) :
  (reached N schedule).2 !! i = Some (Fin o) →
  o = Returned (materialized r0).
Proof.
  intros Hi. destruct (pool_reached N schedule) as [ms Hinv].
  by destruct (pool_served _ ms i o Hinv Hi).
Qed.

Lemma reached_bounded (N : nat) (schedule : list nat) :
  modelCreations (stats (reached N schedule).1)
  ≤ modelCreations (stats r0) + 1
  ∧ (connectionCount (reached N schedule).1 ≤ S (connectionCount r0))%nat.
Proof.
  destruct (pool_reached N schedule) as [ms [HGI _]].
  destruct (pool_bounded _ HGI) as [Hcr Hn]. split; [|done].
  unfold m0 in Hcr. lia.
Qed.

Lemma reached_progress (N : nat) (schedule : list nat) :
  ¬ settled (reached N schedule) → ∃ i, enabled i (reached N schedule).
Proof.
  destruct (pool_reached N schedule) as [ms Hinv].
  exact (pool_inv_enabled core GI cheld written served served_outside
           _ ms Hinv).
Qed.

Lemma reached_settles (N : nat) (schedule : list nat) :
  ∃ schedule', settled (exec schedule' (reached N schedule)).
Proof.
  apply (Schedules.settles (λ c, ∃ ms, pool_inv c ms)).
  - intros i c [ms Hinv]. by eapply pool_inv_turn.
  - intros c [ms Hinv].
    exact (pool_inv_enabled core GI cheld written served served_outside
             _ ms Hinv).
  - apply pool_reached.
Qed.

Lemma reached_settled (N : nat) (schedule : list nat) :
  (0 < N)%nat → settled (reached N schedule) →
  ∃ l2, core (reached N schedule).1 = done l2.
Proof.
  intros HN Hset. destruct (pool_reached N schedule) as [ms Hinv].
  apply (pool_settled _ ms Hinv Hset).
  rewrite Schedules.exec_length. cbn [snd].
  clear -HN. induction N as [|N IH]; cbn; lia.
Qed.

(** One caller alone materializes. *)
Lemma alone_done :
  (run (getModels T) r0).2 = Returned (materialized r0)
  ∧ ∃ l2, core (run (getModels T) r0).1 = done l2.
Proof.
  destruct (Schedules.alone (getModels T) r0) as (schedule & Hw & Hts).
  change [getModels T] with (replicate 1 (getModels T)) in Hw, Hts.
  destruct Hts as [Hts|[Hnot Hstuck]].
  - assert (Hset : settled (reached 1 schedule)).
    { intros [|i] t; rewrite Hts; [|done]. intros [= <-]. by eexists. }
    destruct (reached_settled 1 schedule) as [l2 Hc]; [lia|done|].
    split; [|exists l2; by rewrite <- Hw].
    apply (reached_served 1 schedule 0). by rewrite Hts.
  - destruct (reached_progress 1 schedule Hnot) as [i Hi].
    by destruct (Hstuck i).
Qed.

Lemma done_counts (r : State) (l2 : option (Z * CacheManager.RedisText)) :
  core r = done l2 →
  modelCreations (stats r) = modelCreations (stats r0) + 1
  ∧ connectionCount r = S (connectionCount r0)
  ∧ TenantConnectionManager.mongoose (connectionManager r) = dfinal.
Proof.
  intros Hc. unfold done in Hc. known_eq Hc.
  split; [done|]. split; [|done].
  unfold connectionCount. rewrite Hd. apply size_dfinal.
Qed.

(** Once every caller has its outcome: one materialization was
    counted, one connection was opened, and MongoDB was asked for
    exactly what one caller alone asks for. *)
Lemma reached_counts (N : nat) (schedule : list nat) :
  (0 < N)%nat → settled (reached N schedule) →
  modelCreations (stats (reached N schedule).1)
  = modelCreations (stats r0) + 1
  ∧ connectionCount (reached N schedule).1 = S (connectionCount r0)
  ∧ TenantConnectionManager.mongoose
      (connectionManager (reached N schedule).1)
    = TenantConnectionManager.mongoose
        (connectionManager (run (getModels T) r0).1).
Proof.
  intros HN Hset.
  destruct (reached_settled N schedule HN Hset) as [l2 Hc].
  destruct alone_done as [_ [l2' Hc']].
  destruct (done_counts _ l2 Hc) as (Hcr & Hn & Hd).
  destruct (done_counts _ l2' Hc') as (_ & _ & Hd').
  by rewrite Hd, Hd'.
Qed.

Lemma alone_counts :
  (run (getModels T) r0).2 = Returned (materialized r0)
  ∧ modelCreations (stats (run (getModels T) r0).1)
    = modelCreations (stats r0) + 1
  ∧ connectionCount (run (getModels T) r0).1 = S (connectionCount r0).
Proof.
  destruct alone_done as [Ho [l2 Hc]].
  destruct (done_counts _ l2 Hc) as (Hcr & Hn & _). done.
Qed.

End Tenant.

(** X26. When N ≥ 2 callers invoke [getModels T] concurrently for a
    tenant that is uncached (no cache entry in either tier, no
    connection, mutex free, MongoDB in order) and no name of the
    catalogue is a property name of [Object.prototype], then after any
    schedule of their turns: a caller that has its outcome has the
    handles of the cold materialization, the same for all; never more
    than one
    materialization was counted nor more than one connection opened;
    as long as a caller is without outcome some caller can go on, no
    schedule runs for ever, and the callers can all be brought to their
    outcomes; and once all have their outcomes exactly one
    materialization was counted, exactly one connection was opened, and
    the driver is where one caller alone leaves it (one open, one pass
    of schema binds). *)
Theorem concurrent_callers_share_one_materialization
    (T : string) (r0 : State) (N : nat) (schedule : list nat) :
  uncached T r0 → ordinary r0 → (2 ≤ N)%nat →
  (∀ i o, (exec schedule (r0, replicate N (getModels T))).2 !! i
          = Some (Fin o) →
          o = Returned (materialized r0))
  ∧ modelCreations (stats (exec schedule (r0, replicate N (getModels T))).1)
    ≤ modelCreations (stats r0) + 1
  ∧ (connectionCount (exec schedule (r0, replicate N (getModels T))).1
     ≤ S (connectionCount r0))%nat
  ∧ (¬ settled (exec schedule (r0, replicate N (getModels T))) →
     ∃ i, enabled i (exec schedule (r0, replicate N (getModels T))))
  ∧ Acc moves (exec schedule (r0, replicate N (getModels T)))
  ∧ (∃ schedule',
       settled (exec schedule'
                  (exec schedule (r0, replicate N (getModels T)))))
  ∧ (settled (exec schedule (r0, replicate N (getModels T))) →
     modelCreations
       (stats (exec schedule (r0, replicate N (getModels T))).1)
     = modelCreations (stats r0) + 1
     ∧ connectionCount (exec schedule (r0, replicate N (getModels T))).1
       = S (connectionCount r0)
     ∧ TenantConnectionManager.mongoose
         (connectionManager
            (exec schedule (r0, replicate N (getModels T))).1)
       = TenantConnectionManager.mongoose
           (connectionManager (run (getModels T) r0).1)
     ∧ (run (getModels T) r0).2 = Returned (materialized r0)).
Proof.
  intros Hcold Hord HN.
  split; [intros i o; by apply (reached_served T r0 Hcold Hord)|].
  destruct (reached_bounded T r0 Hcold Hord N schedule) as [Hcr Hn].
  split; [done|]. split; [done|].
  split; [by apply reached_progress|].
  split; [apply Termination.moves_wf|].
  split; [by apply reached_settles|].
  intros Hset.
  destruct (reached_counts T r0 Hcold Hord N schedule)
    as (Hcr' & Hn' & Hd); [lia|done|].
  destruct (alone_counts T r0 Hcold Hord) as [Ho _]. done.
Qed.

Lemma concurrent_callers_share_one_materialization_witness :
  uncached "acme" (Scenarios.registered Scenarios.redisUp
                     (Scenarios.managerWith []))
  ∧ ordinary (Scenarios.registered Scenarios.redisUp
                (Scenarios.managerWith []))
  ∧ (2 ≤ 2)%nat
  ∧ settled (exec (concat (replicate 60 [0; 1]%nat))
               (Scenarios.registered Scenarios.redisUp
                  (Scenarios.managerWith []),
                replicate 2 (getModels "acme")))
  ∧ modelCreations
      (stats (exec (concat (replicate 60 [0; 1]%nat))
                (Scenarios.registered Scenarios.redisUp
                   (Scenarios.managerWith []),
                 replicate 2 (getModels "acme"))).1) = 1
  ∧ connectionCount
      (exec (concat (replicate 60 [0; 1]%nat))
         (Scenarios.registered Scenarios.redisUp
            (Scenarios.managerWith []),
          replicate 2 (getModels "acme"))).1 = 1%nat.
Proof.
  assert (Hcold : uncached "acme" (Scenarios.registered Scenarios.redisUp
                                     (Scenarios.managerWith []))).
  { split; [discriminate|]. split; [vm_compute; reflexivity|].
    split; [vm_compute; reflexivity|]. split; [vm_compute; reflexivity|].
    split; [intros H; vm_compute in H; discriminate H|].
    split; [apply (bool_decide_unpack _); vm_compute; reflexivity|].
    split; [|split]; vm_compute; constructor. }
  assert (Hset : settled (exec (concat (replicate 60 [0; 1]%nat))
                            (Scenarios.registered Scenarios.redisUp
                               (Scenarios.managerWith []),
                             replicate 2 (getModels "acme")))).
  { intros i t Hi.
    assert (Hts : (exec (concat (replicate 60 [0; 1]%nat))
                     (Scenarios.registered Scenarios.redisUp
                        (Scenarios.managerWith []),
                      replicate 2 (getModels "acme"))).2
                  = [Fin (Returned
                            [("User", Scenarios.handle "User" (AppSchema 0));
                             ("Project",
                              Scenarios.handle "Project" (AppSchema 1))]);
                     Fin (Returned
                            [("User", Scenarios.handle "User" (AppSchema 0));
                             ("Project",
                              Scenarios.handle "Project" (AppSchema 1))])])
      by (vm_compute; reflexivity).
    rewrite Hts in Hi. clear Hts.
    destruct i as [|[|i]]; [| |discriminate Hi].
    - injection Hi as <-. eexists. reflexivity.
    - injection Hi as <-. eexists. reflexivity. }
  assert (Hord : ordinary (Scenarios.registered Scenarios.redisUp
                             (Scenarios.managerWith [])))
    by (vm_compute; repeat constructor).
  split; [exact Hcold|]. split; [exact Hord|]. split; [lia|].
  split; [exact Hset|].
  destruct (concurrent_callers_share_one_materialization
              "acme" (Scenarios.registered Scenarios.redisUp
                        (Scenarios.managerWith []))
              2 (concat (replicate 60 [0; 1]%nat)) Hcold Hord)
    as (_ & _ & _ & _ & _ & _ & Hcounts); [lia|].
  destruct (Hcounts Hset) as (Hcr & Hn & _). split; [exact Hcr|exact Hn].
Defined.

End SingleFlight.

(** ** Invalidation in the tiered cache *)

Module CacheInvalidation.
Import CacheManager CacheManagerFacts.

(** No reply of the script of [c] rejects the next command. *)
Definition accepts (c : RedisClient) : Prop :=
  ∀ e rest, replies c ≠ Some e :: rest.

(** The tier-2 entry of a key, if there is a client. *)
Definition l2Entry (key : string) (cm : State) : option (Z * RedisText) :=
  l2Client cm ≫= λ c, store c !! key.

Lemma generateKey_inj (t1 t2 : string) :
  generateKey t1 = generateKey t2 → t1 = t2.
Proof.
  unfold generateKey, keyPrefix_models. intros H.
  exact (String.app_inj "models:" _ _ H).
Qed.

(** [delete] as a function of the state. *)
Lemma run_delete (tenantId : string) (cm : State) :
  run (delete tenantId) cm =
  let cm1 := with_l1Cache (base.delete (generateKey tenantId)) cm in
  if l2Ready cm then
    match l2Client cm with
    | Some c =>
        match replies c with
        | Some e :: _ => (afterCommand c (store c) cm1, Returned tt)
        | _ => (afterCommand c (base.delete (generateKey tenantId) (store c))
                  cm1, Returned tt)
        end
    | None => (cm1, Returned tt)
    end
  else (cm1, Returned tt).
Proof.
  unfold delete. run_step. rewrite l2Ready_with_l1Cache.
  destruct (l2Ready cm) eqn:Hready; run_step; [|done].
  destruct (l2Ready_client _ Hready) as [c Hc]. rewrite Hc.
  unfold l2Client_del.
  rewrite (run_command _ (with_l1Cache _ cm) c Hc).
  destruct (replies c) as [|[e|] rest]; by run_step.
Qed.

Lemma run_set (tenantId : string) (value : jsval) (ttl : option Z)
    (cm : State) :
  run (set tenantId value ttl) cm =
  let cm1 := with_l1Cache <[generateKey tenantId := value]> cm in
  if l2Ready cm then
    match l2Client cm with
    | Some c =>
        match replies c with
        | Some e :: _ => (afterCommand c (store c) cm1, Returned tt)
        | _ => (afterCommand c
                  (<[generateKey tenantId :=
                       (redisTTL ttl / 1000, JsonText value)]> (store c))
                  cm1, Returned tt)
        end
    | None => (cm1, Returned tt)
    end
  else (cm1, Returned tt).
Proof.
  unfold set. run_step. rewrite l2Ready_with_l1Cache.
  destruct (l2Ready cm) eqn:Hready; run_step; [|done].
  destruct (l2Ready_client _ Hready) as [c Hc]. rewrite Hc.
  unfold l2Client_setEx.
  rewrite (run_command _ (with_l1Cache _ cm) c Hc).
  destruct (replies c) as [|[e|] rest]; by run_step.
Qed.

(** [get] when tier 1 has no truthy entry, as a function of the
    state. *)
Lemma run_get_l2 (key : string) (cm : State) :
  run (get_l2 key) cm =
  if l2Ready cm then
    match l2Client cm with
    | Some c =>
        match replies c with
        | Some e :: _ => (afterCommand c (store c) cm, Returned VNull)
        | _ =>
            match store c !! key with
            | Some (_, JsonText v) =>
                (with_l1Cache <[key := v]> (afterCommand c (store c) cm),
                 Returned v)
            | _ => (afterCommand c (store c) cm, Returned VNull)
            end
        end
    | None => (cm, Returned VNull)
    end
  else (cm, Returned VNull).
Proof.
  unfold get_l2. run_step.
  destruct (l2Ready cm) eqn:Hready; run_step; [|done].
  destruct (l2Ready_client _ Hready) as [c Hc]. rewrite Hc.
  unfold l2Client_get. rewrite (run_command _ _ _ Hc).
  destruct (replies c) as [|[e|] rest]; run_step; try done;
    cbn [fst snd];
    destruct (store c !! key) as [[ttl [v| |]]|]; cbn; by run_step.
Qed.

Lemma run_get (tenantId : string) (cm : State) :
  run (get tenantId) cm =
  match l1Cache cm !! generateKey tenantId with
  | Some v => if truthy v then (cm, Returned v)
              else run (get_l2 (generateKey tenantId)) cm
  | None => run (get_l2 (generateKey tenantId)) cm
  end.
Proof.
  unfold get. run_step.
  destruct (l1Cache cm !! generateKey tenantId) as [v|]; [|done].
  by destruct (truthy v).
Qed.

Lemma accepts_replies {X} (c : RedisClient) (x y : X) :
  accepts c →
  match replies c with
  | Some e :: _ => x
  | _ => y
  end = y.
Proof.
  intros Hc. destruct (replies c) as [|[e|] rest] eqn:E; try done.
  by destruct (Hc e rest).
Qed.

(** Without an entry in either tier, [get] misses, whatever Redis
    replies. *)
Lemma get_misses (tenantId : string) (cm : State) :
  l1Cache cm !! generateKey tenantId = None →
  (l2Ready cm = true → l2Entry (generateKey tenantId) cm = None) →
  ∃ cm', run (get tenantId) cm = (cm', Returned VNull).
Proof.
  intros Hl1 Hl2. rewrite run_get, Hl1, run_get_l2.
  destruct (l2Ready cm) eqn:Hready; [|eauto].
  specialize (Hl2 eq_refl). unfold l2Entry in Hl2.
  destruct (l2Client cm) as [c|]; [|eauto]. cbn in Hl2. rewrite Hl2.
  destruct (replies c) as [|[e|] rest]; eauto.
Qed.

(** X1. [delete] never fails and takes the entry of the tenant out of
    tier 1, whatever Redis replies; and when tier 2 is not in use, or
    Redis accepts the [DEL], the next [get] for the tenant is a miss. *)
Theorem delete_then_get_misses (tenantId : string) (cm : State) :
  ∃ cm1,
    run (delete tenantId) cm = (cm1, Returned tt)
    ∧ l1Cache cm1 !! generateKey tenantId = None
    ∧ (l2Ready cm = false ∨ (∃ c, l2Client cm = Some c ∧ accepts c) →
       ∃ cm2, run (get tenantId) cm1 = (cm2, Returned VNull)).
Proof.
  assert (Hdel : ∃ cm1,
    run (delete tenantId) cm = (cm1, Returned tt)
    ∧ l1Cache cm1 !! generateKey tenantId = None
    ∧ (l2Ready cm = false ∨ (∃ c, l2Client cm = Some c ∧ accepts c) →
       l2Ready cm1 = true → l2Entry (generateKey tenantId) cm1 = None)).
  { rewrite run_delete. cbn zeta. destruct (l2Ready cm) eqn:Hready.
    - destruct (l2Client cm) as [c|] eqn:Hc.
      + destruct (replies c) as [|[e|] rest] eqn:He;
          (eexists; split; [reflexivity|];
           split; [cbn; apply lookup_delete_eq|]);
          intros [?|(c' & [= <-] & Hacc)] _; try done;
          try (cbn; apply lookup_delete_eq).
        by destruct (Hacc e rest).
      + eexists. split; [reflexivity|].
        split; [cbn; apply lookup_delete_eq|].
        intros _ _. unfold l2Entry. cbn. by rewrite Hc.
    - eexists. split; [reflexivity|].
      split; [cbn; apply lookup_delete_eq|].
      intros _. by rewrite l2Ready_with_l1Cache, Hready. }
  destruct Hdel as (cm1 & Hrun & Hl1 & Hentry).
  exists cm1. split; [exact Hrun|]. split; [exact Hl1|].
  intros Hl2. exact (get_misses tenantId cm1 Hl1 (Hentry Hl2)).
Qed.

(** X2. When Redis rejects the [DEL], [delete] still returns, but the
    tier-2 entry is still there: if Redis answers the next [GET], [get]
    returns the value that was to be deleted and puts it back into
    tier 1. *)
Theorem rejected_delete_is_undone_by_get (tenantId : string) (cm : State)
    (c : RedisClient) (e : JsError) (rest : list (option JsError))
    (seconds : Z) (v : jsval) :
  l2Ready cm = true → l2Client cm = Some c →
  replies c = Some e :: rest → (∀ e' rest', rest ≠ Some e' :: rest') →
  store c !! generateKey tenantId = Some (seconds, JsonText v) →
  ∃ cm1 cm2,
    run (delete tenantId) cm = (cm1, Returned tt)
    ∧ run (get tenantId) cm1 = (cm2, Returned v)
    ∧ l1Cache cm2 !! generateKey tenantId = Some v.
Proof.
  intros Hready Hc He Hrest Hv. rewrite run_delete. cbn zeta.
  rewrite Hready, Hc, He. eexists _, _. split; [reflexivity|].
  rewrite run_get. unfold afterCommand at 1.
  cbn [with_l2Client with_l1Cache l1Cache].
  rewrite lookup_delete_eq, run_get_l2, l2Ready_afterCommand.
  cbn [with_l1Cache isRedisConnected].
  rewrite (l2Ready_connected _ Hready).
  unfold afterCommand at 1. cbn [with_l2Client l2Client replies store].
  rewrite He. cbn [tail]. rewrite Hv.
  destruct rest as [|[e'|] rest'].
  - split; [reflexivity|]. cbn. apply lookup_insert_eq.
  - by destruct (Hrest e' rest').
  - split; [reflexivity|]. cbn. apply lookup_insert_eq.
Qed.

Lemma rejected_delete_is_undone_by_get_witness :
  ∃ cm1 cm2,
    run (delete "acme")
        {| l1Cache := {[ "models:acme" := VObj [] ]};
           l2Client := Some {| store := {[ "models:acme" :=
                                             (1800, JsonText (VObj [])) ]};
                               replies := [Some (Error "ECONNRESET")] |};
           isRedisConnected := true |} = (cm1, Returned tt)
    ∧ run (get "acme") cm1 = (cm2, Returned (VObj []))
    ∧ l1Cache cm2 !! generateKey "acme" = Some (VObj []).
Proof.
  eapply (rejected_delete_is_undone_by_get "acme" _ _
            (Error "ECONNRESET") [] 1800 (VObj []));
    [reflexivity|reflexivity|reflexivity|intros e' rest' H; discriminate H|].
  vm_compute. reflexivity.
Defined.

(** *** One tenant at a time *)

Lemma l2Entry_afterCommand (key : string) (c : RedisClient)
    (s : gmap string (Z * RedisText)) (cm : State) :
  l2Entry key (afterCommand c s cm) = s !! key.
Proof. done. Qed.

Lemma l2Entry_with_l1Cache (key : string)
    (f : gmap string jsval → gmap string jsval) (cm : State) :
  l2Entry key (with_l1Cache f cm) = l2Entry key cm.
Proof. done. Qed.

Lemma l2Entry_client (key : string) (c : RedisClient) (cm : State) :
  l2Client cm = Some c → l2Entry key cm = store c !! key.
Proof. unfold l2Entry. by intros ->. Qed.

(** The entries of [key] in the two tiers are the same in [cm] and
    [cm']. *)
Definition sameEntries (key : string) (cm cm' : State) : Prop :=
  l1Cache cm' !! key = l1Cache cm !! key
  ∧ l2Entry key cm' = l2Entry key cm.

(** The operations for one tenant use the key of that tenant only. *)
Lemma entries_of_others (tenantId other : string)
    (value : jsval) (ttl : option Z) (cm : State) :
  other ≠ tenantId →
  sameEntries (generateKey other) cm (run (set tenantId value ttl) cm).1
  ∧ sameEntries (generateKey other) cm (run (delete tenantId) cm).1
  ∧ sameEntries (generateKey other) cm (run (get tenantId) cm).1.
Proof.
  intros Hne.
  assert (Hkey : generateKey tenantId ≠ generateKey other)
    by (intros H; by apply generateKey_inj in H).
  assert (Hsame : ∀ c s f,
    l2Client cm = Some c →
    s !! generateKey other = store c !! generateKey other →
    f (l1Cache cm) !! generateKey other = l1Cache cm !! generateKey other →
    sameEntries (generateKey other) cm (afterCommand c s (with_l1Cache f cm))).
  { intros c s f Hc Hs Hf. split; [exact Hf|].
    by rewrite l2Entry_afterCommand, (l2Entry_client _ c cm Hc). }
  assert (Hl1 : ∀ f,
    f (l1Cache cm) !! generateKey other = l1Cache cm !! generateKey other →
    sameEntries (generateKey other) cm (with_l1Cache f cm)).
  { intros f Hf. by split. }
  assert (Hget_l2 :
    sameEntries (generateKey other) cm
      (run (get_l2 (generateKey tenantId)) cm).1).
  { rewrite run_get_l2. destruct (l2Ready cm); [|done].
    destruct (l2Client cm) as [c|] eqn:Hc; [|done].
    assert (Hid : sameEntries (generateKey other) cm
                    (afterCommand c (store c) cm))
      by (by apply (Hsame c (store c) id)).
    destruct (replies c) as [|[e|] rest]; [|exact Hid|];
      (destruct (store c !! generateKey tenantId) as [[? [v| |]]|];
       cbn [fst]; try exact Hid;
       destruct Hid as [Hid1 Hid2]; split; [|exact Hid2];
       cbn; by rewrite lookup_insert_ne). }
  split; [|split].
  - rewrite run_set. cbn zeta.
    assert (Hf : <[generateKey tenantId := value]> (l1Cache cm)
                   !! generateKey other = l1Cache cm !! generateKey other)
      by (by rewrite lookup_insert_ne).
    destruct (l2Ready cm); [|by apply Hl1].
    destruct (l2Client cm) as [c|] eqn:Hc; [|by apply Hl1].
    destruct (replies c) as [|[e|] rest]; cbn [fst]; apply Hsame;
      try done; by rewrite lookup_insert_ne.
  - rewrite run_delete. cbn zeta.
    assert (Hf : base.delete (generateKey tenantId) (l1Cache cm)
                   !! generateKey other = l1Cache cm !! generateKey other)
      by (by rewrite lookup_delete_ne).
    destruct (l2Ready cm); [|by apply Hl1].
    destruct (l2Client cm) as [c|] eqn:Hc; [|by apply Hl1].
    destruct (replies c) as [|[e|] rest]; cbn [fst]; apply Hsame;
      try done; by rewrite lookup_delete_ne.
  - rewrite run_get.
    destruct (l1Cache cm !! generateKey tenantId) as [v|]; [|done].
    by destruct (truthy v).
Qed.

(** An operation has written nothing under [key]: tier 2 holds for it
    what it held, and tier 1 holds no value for it that it did not hold
    before.  (Tier 1 is an LRU cache: an operation may make it drop an
    entry, which the map that stands for it here never does.) *)
Definition notWritten (key : string) (cm cm' : State) : Prop :=
  l2Entry key cm' = l2Entry key cm
  ∧ ∀ v, l1Cache cm' !! key = Some v → l1Cache cm !! key = Some v.

Lemma sameEntries_notWritten (key : string) (cm cm' : State) :
  sameEntries key cm cm' → notWritten key cm cm'.
Proof. intros [Hl1 Hl2]. split; [exact Hl2|]. intros v. by rewrite Hl1. Qed.

(** X3. [set], [delete] and [get] for one tenant write nothing under
    the key of another tenant, whatever Redis replies: the other
    tenant's tier-2 entry is as before, and tier 1 has no value for the
    other tenant that it did not have before. *)
Theorem other_tenants_are_untouched (tenantId other : string)
    (value : jsval) (ttl : option Z) (cm : State) :
  other ≠ tenantId →
  notWritten (generateKey other) cm (run (set tenantId value ttl) cm).1
  ∧ notWritten (generateKey other) cm (run (delete tenantId) cm).1
  ∧ notWritten (generateKey other) cm (run (get tenantId) cm).1.
Proof.
  intros Hne.
  destruct (entries_of_others tenantId other value ttl cm Hne)
    as (Hset & Hdelete & Hget).
  split; [|split]; by apply sameEntries_notWritten.
Qed.

(** Both tenants cached in both tiers. *)
Definition twoTenants : State :=
  {| l1Cache := {[ "models:acme" := VStr "acme's";
                   "models:globex" := VStr "globex's" ]};
     l2Client :=
       Some {| store := {[ "models:acme" := (1800, JsonText (VStr "acme's"));
                           "models:globex" :=
                             (1800, JsonText (VStr "globex's")) ]};
               replies := [] |};
     isRedisConnected := true |}.

Lemma other_tenants_are_untouched_witness :
  notWritten (generateKey "globex") twoTenants
    (run (set "acme" (VObj []) None) twoTenants).1
  ∧ notWritten (generateKey "globex") twoTenants
      (run (delete "acme") twoTenants).1
  ∧ notWritten (generateKey "globex") twoTenants
      (run (get "acme") twoTenants).1.
Proof.
  apply (other_tenants_are_untouched "acme" "globex"). discriminate.
Defined.

(** *** Clearing the cache *)

Lemma lookup_foldr_delete {X} (keys : list string) (s : gmap string X)
    (k : string) :
  foldr base.delete s keys !! k = if decide (k ∈ keys) then None else s !! k.
Proof.
  induction keys as [|k' keys IH]; cbn.
  - by rewrite decide_False by apply not_elem_of_nil.
  - destruct (decide (k = k')) as [->|Hne].
    + rewrite lookup_delete_eq. by rewrite decide_True by left.
    + rewrite lookup_delete_ne by done. rewrite IH.
      destruct (decide (k ∈ keys)) as [Hin|Hnin].
      * by rewrite decide_True by (by right).
      * rewrite decide_False; [done|].
        intros [?|?]%elem_of_cons; done.
Qed.

(** What [KEYS models:*] lists. *)
Definition modelKeys (s : gmap string (Z * RedisText)) : list string :=
  filter (λ k, String.prefix keyPrefix_models k = true)
         (fst <$> map_to_list s).

Lemma elem_of_modelKeys (s : gmap string (Z * RedisText)) (k : string) :
  k ∈ modelKeys s
  ↔ String.prefix keyPrefix_models k = true ∧ is_Some (s !! k).
Proof.
  unfold modelKeys. rewrite list_elem_of_filter, list_elem_of_fmap.
  split.
  - intros [Hp ([k' x] & -> & Hin)]. split; [done|].
    apply elem_of_map_to_list in Hin. by eexists.
  - intros [Hp [x Hx]]. split; [done|]. exists (k, x). split; [done|].
    by apply elem_of_map_to_list.
Qed.

(** [clear] as a function of the state. *)
Lemma run_clear (cm : State) :
  run clear cm =
  let cm1 := with_l1Cache (λ _, ∅) cm in
  if l2Ready cm then
    match l2Client cm with
    | Some c =>
        match replies c with
        | Some e :: _ => (afterCommand c (store c) cm1, Returned tt)
        | _ =>
            if bool_decide (modelKeys (store c) = [])
            then (afterCommand c (store c) cm1, Returned tt)
            else
              match tail (replies c) with
              | Some e :: rest =>
                  (with_l2Client {| store := store c; replies := rest |} cm1,
                   Returned tt)
              | _ =>
                  (with_l2Client
                     {| store := foldr base.delete (store c)
                                   (modelKeys (store c));
                        replies := tail (tail (replies c)) |} cm1,
                   Returned tt)
              end
        end
    | None => (cm1, Returned tt)
    end
  else (cm1, Returned tt).
Proof.
  unfold clear, clear_l2. run_step. rewrite l2Ready_with_l1Cache.
  destruct (l2Ready cm) eqn:Hready; run_step; [|done].
  destruct (l2Ready_client _ Hready) as [c Hc]. rewrite Hc.
  unfold l2Client_keys.
  rewrite (run_command _ (with_l1Cache _ cm) c Hc).
  fold (modelKeys (store c)).
  destruct (replies c) as [|[e|] rest] eqn:He; run_step; [|done|];
    cbn [fst snd]; destruct (bool_decide (modelKeys (store c) = []));
    run_step; try done; unfold l2Client_del;
    (erewrite run_command by reflexivity);
    cbn [replies store tail]; rewrite He; cbn [tail].
  - by run_step.
  - unfold afterCommand. rewrite He. cbn [tail].
    destruct rest as [|[e|] rest]; by run_step.
Qed.

Lemma prefix_generateKey (tenantId : string) :
  String.prefix keyPrefix_models (generateKey tenantId) = true.
Proof. unfold generateKey, keyPrefix_models. cbn. by destruct tenantId. Qed.

(** What [clear] leaves. *)
Lemma clear_outcome (cm : State) :
  ∃ cm',
    run clear cm = (cm', Returned tt)
    ∧ l1Cache cm' = ∅
    ∧ (∀ k, String.prefix keyPrefix_models k = false →
            l2Entry k cm' = l2Entry k cm)
    ∧ ((∃ c, l2Client cm = Some c
             ∧ Forall (λ reply, reply = None) (take 2 (replies c))) →
       (l2Ready cm = true →
        ∀ k, String.prefix keyPrefix_models k = true → l2Entry k cm' = None)
       ∧ ∀ tenantId, ∃ cm2, run (get tenantId) cm' = (cm2, Returned VNull))
    ∧ (l2Ready cm = false →
       ∀ tenantId, ∃ cm2, run (get tenantId) cm' = (cm2, Returned VNull)).
Proof.
  assert (Hmiss : ∀ cm',
    l1Cache cm' = ∅ →
    (l2Ready cm' = true →
     ∀ k, String.prefix keyPrefix_models k = true → l2Entry k cm' = None) →
    ∀ tenantId, ∃ cm2, run (get tenantId) cm' = (cm2, Returned VNull)).
  { intros cm' Hl1 Hl2 tenantId. apply get_misses; [by rewrite Hl1|].
    intros Hready. apply (Hl2 Hready), prefix_generateKey. }
  assert (Hkept : ∀ k s,
    String.prefix keyPrefix_models k = false →
    foldr base.delete s (modelKeys s) !! k = s !! k).
  { intros k s Hk. rewrite lookup_foldr_delete, decide_False; [done|].
    intros [Hp _]%elem_of_modelKeys. by rewrite Hp in Hk. }
  assert (Hgone : ∀ k s,
    String.prefix keyPrefix_models k = true →
    foldr base.delete s (modelKeys s) !! k = None).
  { intros k s Hk. rewrite lookup_foldr_delete.
    destruct (decide (k ∈ modelKeys s)) as [|Hnin]; [done|].
    destruct (s !! k) as [x|] eqn:Hx; [|done].
    destruct Hnin. apply elem_of_modelKeys. by split; [|eexists]. }
  assert (Hempty : ∀ k s,
    modelKeys s = [] → String.prefix keyPrefix_models k = true →
    s !! k = None).
  { intros k s Hnil Hk. destruct (s !! k) as [x|] eqn:Hx; [|done].
    assert (Hin : k ∈ modelKeys s)
      by (apply elem_of_modelKeys; by split; [|eexists]).
    rewrite Hnil in Hin. by apply not_elem_of_nil in Hin. }
  rewrite run_clear. cbn zeta.
  destruct (l2Ready cm) eqn:Hready.
  2:{ eexists. split; [reflexivity|]. split; [done|]. split; [done|].
      split; [intros _; split; [done|]|intros _];
        (apply Hmiss; [done|]; by rewrite l2Ready_with_l1Cache, Hready). }
  destruct (l2Ready_client _ Hready) as [c Hc]. rewrite Hc.
  pose proof (l2Ready_connected _ Hready) as Hconn.
  destruct (replies c) as [|[e|] rest] eqn:He.
  - (* the script is exhausted: both commands are accepted *)
    destruct (bool_decide (modelKeys (store c) = [])) eqn:Hnil.
    + apply bool_decide_eq_true in Hnil.
      eexists. split; [reflexivity|]. split; [done|].
      split; [intros k Hk; by rewrite l2Entry_afterCommand,
                (l2Entry_client _ c cm Hc)|].
      split; [|done]. intros _.
      assert (Hl2 : ∀ k, String.prefix keyPrefix_models k = true →
                l2Entry k (afterCommand c (store c)
                             (with_l1Cache (λ _, ∅) cm)) = None)
        by (intros k Hk; rewrite l2Entry_afterCommand; by apply Hempty).
      split; [by intros _|]. apply Hmiss; [done|by intros _].
    + cbn [tail]. eexists. split; [reflexivity|]. split; [done|].
      split; [intros k Hk; cbn; rewrite Hkept by done;
              by rewrite (l2Entry_client _ c cm Hc)|].
      split; [|done]. intros _.
      assert (Hl2 : ∀ k, String.prefix keyPrefix_models k = true →
                l2Entry k (with_l2Client
                             {| store := foldr base.delete (store c)
                                           (modelKeys (store c));
                                replies := tail [] |}
                             (with_l1Cache (λ _, ∅) cm)) = None)
        by (intros k Hk; cbn; by apply Hgone).
      split; [by intros _|]. apply Hmiss; [done|by intros _].
  - (* [KEYS] is rejected *)
    eexists. split; [reflexivity|]. split; [done|].
    split; [intros k Hk; by rewrite l2Entry_afterCommand,
              (l2Entry_client _ c cm Hc)|].
    split; [|done]. intros (c' & Hc' & Hquiet).
    injection Hc' as <-. rewrite He in Hquiet.
    cbn in Hquiet. by apply Forall_cons in Hquiet as [? _].
  - destruct (bool_decide (modelKeys (store c) = [])) eqn:Hnil.
    + apply bool_decide_eq_true in Hnil.
      eexists. split; [reflexivity|]. split; [done|].
      split; [intros k Hk; by rewrite l2Entry_afterCommand,
                (l2Entry_client _ c cm Hc)|].
      split; [|done]. intros _.
      assert (Hl2 : ∀ k, String.prefix keyPrefix_models k = true →
                l2Entry k (afterCommand c (store c)
                             (with_l1Cache (λ _, ∅) cm)) = None)
        by (intros k Hk; rewrite l2Entry_afterCommand; by apply Hempty).
      split; [by intros _|]. apply Hmiss; [done|by intros _].
    + cbn [tail]. destruct rest as [|[e|] rest].
      * eexists. split; [reflexivity|]. split; [done|].
        split; [intros k Hk; cbn; rewrite Hkept by done;
                by rewrite (l2Entry_client _ c cm Hc)|].
        split; [|done]. intros _.
        assert (Hl2 : ∀ k, String.prefix keyPrefix_models k = true →
                  l2Entry k (with_l2Client
                               {| store := foldr base.delete (store c)
                                             (modelKeys (store c));
                                  replies := tail [] |}
                               (with_l1Cache (λ _, ∅) cm)) = None)
          by (intros k Hk; cbn; by apply Hgone).
        split; [by intros _|]. apply Hmiss; [done|by intros _].
      * (* [DEL] is rejected *)
        eexists. split; [reflexivity|]. split; [done|].
        split; [intros k Hk; cbn; by rewrite (l2Entry_client _ c cm Hc)|].
        split; [|done]. intros (c' & Hc' & Hquiet).
        injection Hc' as <-. rewrite He in Hquiet.
        cbn in Hquiet. apply Forall_cons in Hquiet as [_ Hquiet].
        by apply Forall_cons in Hquiet as [? _].
      * eexists. split; [reflexivity|]. split; [done|].
        split; [intros k Hk; cbn; rewrite Hkept by done;
                by rewrite (l2Entry_client _ c cm Hc)|].
        split; [|done]. intros _.
        assert (Hl2 : ∀ k, String.prefix keyPrefix_models k = true →
                  l2Entry k (with_l2Client
                               {| store := foldr base.delete (store c)
                                             (modelKeys (store c));
                                  replies := tail (None :: rest) |}
                               (with_l1Cache (λ _, ∅) cm)) = None)
          by (intros k Hk; cbn; by apply Hgone).
        split; [by intros _|]. apply Hmiss; [done|by intros _].
Qed.

(** X4. [clear] never fails and empties tier 1.  In tier 2 it leaves
    every key that does not start with "models:" as it is, whatever
    Redis replies; and when tier 2 is in use and Redis accepts the
    [KEYS] and the [DEL], no key that starts with "models:" is left.
    After that, or when tier 2 is not in use, [get] misses for every
    tenant. *)
Theorem clear_removes_model_keys_only (cm : State) :
  ∃ cm',
    run clear cm = (cm', Returned tt)
    ∧ l1Cache cm' = ∅
    ∧ (∀ k, String.prefix keyPrefix_models k = false →
            l2Entry k cm' = l2Entry k cm)
    ∧ ((∃ c, l2Client cm = Some c
             ∧ Forall (λ reply, reply = None) (take 2 (replies c))) →
       (l2Ready cm = true →
        ∀ k, String.prefix keyPrefix_models k = true → l2Entry k cm' = None)
       ∧ ∀ tenantId, ∃ cm2, run (get tenantId) cm' = (cm2, Returned VNull))
    ∧ (l2Ready cm = false →
       ∀ tenantId, ∃ cm2, run (get tenantId) cm' = (cm2, Returned VNull)).
Proof.
  destruct (clear_outcome cm) as (cm' & Hrun & Hrest).
  exists cm'. by split.
Qed.

End CacheInvalidation.

(** ** The life of a tenant connection *)

Module ConnectionLifecycle.
Import TenantConnectionManager ConnectionFacts.

(** [closeConnection] as a function of the state. *)
Lemma run_closeConnection (tenantId : string) (s : State) :
  run (closeConnection tenantId) s =
  match connections s !! tenantId with
  | Some connection =>
      ({| connections := base.delete tenantId (connections s);
          connectionTimestamps :=
            base.delete tenantId (connectionTimestamps s);
          clock := clock s;
          mongoose := (Mongoose.close connection (mongoose s)).2 |},
       Returned tt)
  | None => (s, Returned tt)
  end.
Proof.
  unfold closeConnection. run_step.
  destruct (connections s !! tenantId) as [connection|]; [|done].
  run_step. rewrite run_driver.
  destruct (Mongoose.close connection (mongoose s)) as [[e|[]] d];
    by run_step.
Qed.

(** The signals a connection opened in [s] will emit. *)
Definition nextSignals (s : State) : list ConnEvent :=
  match Mongoose.opens (mongoose s) with
  | sigs :: _ => sigs
  | [] => [EvConnected]
  end.

(** [createConnection] as a function of the state. *)
Lemma run_createConnection (tenantId : string) (s : State) :
  run (createConnection tenantId) s =
  let connection := fresh (dom (Mongoose.objects (mongoose s))) in
  let opened :=
    (Mongoose.createConnection (dbPrefix +:+ tenantId) (mongoose s)).2 in
  match Mongoose.listen true (nextSignals s) 2 with
  | (Returned _, state, rest) =>
      ({| connections := <[tenantId := connection]> (connections s);
          connectionTimestamps :=
            <[tenantId := clock s]> (connectionTimestamps s);
          clock := clock s;
          mongoose := Mongoose.listened connection state rest opened |},
       Returned connection)
  | (_, state, rest) =>
      (with_mongoose
         (λ _, Mongoose.listened connection state rest opened) s,
       Thrown (openFailure tenantId))
  end.
Proof.
  unfold createConnection. run_step. rewrite run_driver.
  cbn [Mongoose.createConnection fst snd]. run_step.
  rewrite run_awaitSignals. cbn zeta.
  unfold Mongoose.deref. cbn [with_mongoose mongoose Mongoose.objects].
  rewrite lookup_insert_eq.
  cbn [from_option id Mongoose.signals Mongoose.readyState].
  fold (nextSignals s).
  destruct (Mongoose.listen true (nextSignals s) 2)
    as [[[[]|e|] st] rest]; by run_step.
Qed.

Lemma listen_settles_connected (rejectOnError : bool)
    (sigs : list ConnEvent) (state state' : Z) (rest : list ConnEvent)
    (u : unit) :
  Mongoose.listen rejectOnError sigs state = (Returned u, state', rest) →
  state' = 1.
Proof.
  revert state. induction sigs as [|[|e| |] sigs IH]; intros state; cbn.
  - done.
  - by intros [= _ <- _].
  - destruct rejectOnError; [done|apply IH].
  - apply IH.
  - apply IH.
Qed.

Lemma readyState_listened (connection : nat) (state : Z)
    (rest : list ConnEvent) (d : Mongoose.Driver) :
  is_Some (Mongoose.objects d !! connection) →
  Mongoose.readyState
    (Mongoose.deref (Mongoose.listened connection state rest d) connection)
  = state.
Proof.
  intros [c Hc]. unfold Mongoose.deref, Mongoose.listened. cbn.
  by rewrite lookup_alter_eq, Hc.
Qed.

(** The tenant is served by [connection]: the connection is tracked
    for it, it is connected, and it counts as used just now. *)
Definition serving (tenantId : string) (connection : nat) (s : State)
  : Prop :=
  connections s !! tenantId = Some connection
  ∧ Mongoose.readyState (Mongoose.deref (mongoose s) connection) = 1
  ∧ connectionTimestamps s !! tenantId = Some (clock s).

(** The tenants other than [tenantId] are tracked as before. *)
Definition othersKept (tenantId : string) (s s' : State) : Prop :=
  ∀ other, other ≠ tenantId →
    connections s' !! other = connections s !! other
    ∧ connectionTimestamps s' !! other = connectionTimestamps s !! other.

(** Timestamps are kept for tracked tenants only. *)
Definition tidy (s : State) : Prop :=
  ∀ tenantId, connections s !! tenantId = None →
              connectionTimestamps s !! tenantId = None.

Lemma createConnection_serving (tenantId : string) (s s' : State)
    (connection : nat) :
  run (createConnection tenantId) s = (s', Returned connection) →
  serving tenantId connection s'
  ∧ connection = fresh (dom (Mongoose.objects (mongoose s)))
  ∧ othersKept tenantId s s'.
Proof.
  rewrite run_createConnection. cbn zeta.
  destruct (Mongoose.listen true (nextSignals s) 2)
    as [[[u|e|] st] rest] eqn:Hl; [|done..].
  intros [= <- <-]. apply listen_settles_connected in Hl as ->.
  split; [|split; [done|]].
  - split; [cbn; apply lookup_insert_eq|].
    split; [|cbn; apply lookup_insert_eq].
    cbn [mongoose]. apply readyState_listened. cbn.
    rewrite lookup_insert_eq. by eexists.
  - intros other Hne. cbn. by rewrite !lookup_insert_ne.
Qed.

Lemma createConnection_outcomes (tenantId : string) (s : State) :
  match run (createConnection tenantId) s with
  | (s', Returned connection) =>
      serving tenantId connection s' ∧ othersKept tenantId s s'
  | (s', Thrown e) =>
      e = openFailure tenantId
      ∧ connections s' = connections s
      ∧ connectionTimestamps s' = connectionTimestamps s
  | (s', Pending) => False
  end.
Proof.
  destruct (run (createConnection tenantId) s) as [s' [c|e|]] eqn:Hrun.
  - by destruct (createConnection_serving _ _ _ _ Hrun) as (? & _ & ?).
  - revert Hrun. rewrite run_createConnection. cbn zeta.
    destruct (Mongoose.listen true (nextSignals s) 2)
      as [[[u|e'|] st] rest]; [done|by intros [= <- <-]..].
  - revert Hrun. rewrite run_createConnection. cbn zeta.
    by destruct (Mongoose.listen true (nextSignals s) 2)
      as [[[u|e'|] st] rest].
Qed.

(** How [getConnection] can end: with a connection that serves the
    tenant; with the error of a failed open, the tenant untracked; or
    not at all, waiting for a tracked connection that is connecting. *)
Lemma getConnection_outcomes (tenantId : string) (s : State) :
  match run (getConnection tenantId) s with
  | (s', Returned connection) =>
      serving tenantId connection s' ∧ othersKept tenantId s s'
  | (s', Thrown e) =>
      e = openFailure tenantId
      ∧ connections s' !! tenantId = None
      ∧ othersKept tenantId s s'
      ∧ (tidy s → tidy s')
  | (s', Pending) =>
      s' = s
      ∧ ∃ tracked, connections s !! tenantId = Some tracked
          ∧ Mongoose.readyState (Mongoose.deref (mongoose s) tracked) = 2
  end.
Proof.
  unfold getConnection. run_step.
  destruct (connections s !! tenantId) as [tracked|] eqn:Htracked.
  2:{ pose proof (createConnection_outcomes tenantId s) as Hc.
      destruct (run (createConnection tenantId) s) as [s' [c|e|]];
        [done| |done].
      destruct Hc as (-> & Hconn & Hts). split; [done|].
      split; [by rewrite Hconn|].
      split; [intros other _; by rewrite Hconn, Hts|].
      intros Htidy other. rewrite Hconn, Hts. apply Htidy. }
  run_step.
  destruct (Mongoose.readyState (Mongoose.deref (mongoose s) tracked) =? 1)
    eqn:Hstate.
  { apply Z.eqb_eq in Hstate. unfold updateTimestamp. run_step. split.
    - split; [done|]. split; [done|]. cbn. apply lookup_insert_eq.
    - intros other Hne. cbn. by rewrite lookup_insert_ne. }
  destruct (Mongoose.readyState (Mongoose.deref (mongoose s) tracked) =? 2)
    eqn:Hstate2.
  { apply Z.eqb_eq in Hstate2. run_step. rewrite run_awaitSignals.
    cbn zeta. pose proof (listen_connected_only
                (Mongoose.signals (Mongoose.deref (mongoose s) tracked))
                (Mongoose.readyState (Mongoose.deref (mongoose s) tracked)))
      as Hnever.
    destruct (Mongoose.listen false _ _) as [[[u|e|] st] rest] eqn:Hl;
      [|done|by eauto].
    apply listen_settles_connected in Hl as ->.
    unfold updateTimestamp. run_step. split.
    - split; [done|]. split; [|cbn; apply lookup_insert_eq].
      cbn [mongoose with_mongoose]. apply readyState_listened.
      unfold Mongoose.deref in Hstate2.
      destruct (Mongoose.objects (mongoose s) !! tracked); [by eexists|].
      discriminate Hstate2.
    - intros other Hne. cbn. by rewrite lookup_insert_ne. }
  run_step. rewrite run_closeConnection, Htracked.
  match goal with
  | |- context [run (createConnection tenantId) ?s1] =>
      pose proof (createConnection_outcomes tenantId s1) as Hc;
      destruct (run (createConnection tenantId) s1) as [s' [c|e|]]
  end; [| |done].
  - destruct Hc as [Hs Hothers]. split; [done|]. intros other Hne.
    destruct (Hothers other Hne) as [H1 H2]. cbn in H1, H2.
    rewrite lookup_delete_ne in H1 by done.
    rewrite lookup_delete_ne in H2 by done. done.
  - destruct Hc as (-> & Hconn & Hts). cbn in Hconn, Hts.
    split; [done|]. split; [rewrite Hconn; apply lookup_delete_eq|].
    split; [intros other Hne; rewrite Hconn, Hts;
            by rewrite !lookup_delete_ne|].
    intros Htidy other. rewrite Hconn, Hts. intros Hnone.
    apply lookup_delete_None.
    apply lookup_delete_None in Hnone as [Hnone|Hnone]; [by left|].
    right. by apply Htidy.
Qed.

(** X5. Whenever [getConnection] returns a connection, that
    connection is the one tracked for the tenant, it is connected
    ([readyState] 1), the tenant's timestamp is the current time, and
    what is tracked for the other tenants is as before. *)
Theorem getConnection_returns_connected (tenantId : string) (s s' : State)
    (connection : nat) :
  run (getConnection tenantId) s = (s', Returned connection) →
  serving tenantId connection s' ∧ othersKept tenantId s s'.
Proof.
  intros Hrun. pose proof (getConnection_outcomes tenantId s) as Hout.
  rewrite Hrun in Hout. exact Hout.
Qed.

Lemma getConnection_returns_connected_witness :
  serving "acme" 0%nat
    (run (getConnection "acme") (Scenarios.managerWith [])).1
  ∧ othersKept "acme" (Scenarios.managerWith [])
      (run (getConnection "acme") (Scenarios.managerWith [])).1.
Proof.
  apply (getConnection_returns_connected "acme"
           (Scenarios.managerWith []) _ 0%nat).
  vm_compute. reflexivity.
Defined.

(** X6. [closeConnection] never fails, whether or not [close()] is
    rejected.  Afterwards the tenant is not tracked; if it was, its
    timestamp is gone too, and if it was not, nothing has changed.  The
    other tenants are tracked as before. *)
Theorem closeConnection_untracks (tenantId : string) (s : State) :
  ∃ s',
    run (closeConnection tenantId) s = (s', Returned tt)
    ∧ connections s' !! tenantId = None
    ∧ othersKept tenantId s s'
    ∧ clock s' = clock s
    ∧ (connections s !! tenantId = None → s' = s)
    ∧ (is_Some (connections s !! tenantId) →
       connectionTimestamps s' !! tenantId = None).
Proof.
  rewrite run_closeConnection.
  destruct (connections s !! tenantId) as [connection|] eqn:Htracked.
  - eexists. split; [reflexivity|].
    split; [cbn; apply lookup_delete_eq|].
    split; [intros other Hne; cbn; by rewrite !lookup_delete_ne|].
    split; [done|]. split; [done|]. intros _. cbn. apply lookup_delete_eq.
  - exists s. split; [done|]. split; [done|].
    split; [by intros other Hne|]. split; [done|]. split; [done|].
    by intros [? ?].
Qed.

(** X7. When MongoDB rejects [close()], [closeConnection] forgets the
    connection all the same, and the connection object is left as it
    was: a connection that was open stays open, tracked by nobody. *)
Theorem rejected_close_leaves_connection_open (tenantId : string)
    (connection : nat) (e : JsError) (rest : list (option JsError))
    (s : State) :
  connections s !! tenantId = Some connection →
  Mongoose.closes (mongoose s) = Some e :: rest →
  ∃ s',
    run (closeConnection tenantId) s = (s', Returned tt)
    ∧ connections s' !! tenantId = None
    ∧ Mongoose.objects (mongoose s') = Mongoose.objects (mongoose s).
Proof.
  intros Htracked Hcloses. rewrite run_closeConnection, Htracked.
  eexists. split; [reflexivity|]. split; [cbn; apply lookup_delete_eq|].
  unfold Mongoose.close. by rewrite Hcloses.
Qed.

(** A manager that serves "acme" over a connected connection, when
    MongoDB will reject the next [close()]. *)
Definition stubborn : State :=
  {| connections := {[ "acme" := 0%nat ]};
     connectionTimestamps := {[ "acme" := 900 ]};
     clock := 1000;
     mongoose :=
       {| Mongoose.objects :=
            {[ 0%nat := {| Mongoose.name := "tenant_acme";
                           Mongoose.readyState := 1;
                           Mongoose.models := ∅;
                           Mongoose.signals := [] |} ]};
          Mongoose.opens := [];
          Mongoose.closes := [Some (Error "ECONNRESET")];
          Mongoose.modelFaults := [];
          Mongoose.indexFaults := [];
          Mongoose.toCollectionName := λ modelName, modelName +:+ "s" |} |}.

Lemma rejected_close_leaves_connection_open_witness :
  ∃ s',
    run (closeConnection "acme") stubborn = (s', Returned tt)
    ∧ connections s' !! "acme" = None
    ∧ Mongoose.objects (mongoose s') = Mongoose.objects (mongoose stubborn).
Proof.
  apply (rejected_close_leaves_connection_open "acme" 0%nat
           (Error "ECONNRESET") []); reflexivity.
Defined.

(** X8. When the open fails, by an [error] signal or by the timer,
    [createConnection] throws the one replacement error and tracks
    nothing: connections and timestamps are as before.  The connection
    object that was created stays with the driver, and [close()] was not
    called on it. *)
Theorem failed_open_is_not_tracked (tenantId : string) (s s' : State)
    (e : JsError) :
  run (createConnection tenantId) s = (s', Thrown e) →
  e = openFailure tenantId
  ∧ connections s' = connections s
  ∧ connectionTimestamps s' = connectionTimestamps s
  ∧ dom (Mongoose.objects (mongoose s'))
    = {[fresh (dom (Mongoose.objects (mongoose s)))]}
      ∪ dom (Mongoose.objects (mongoose s))
  ∧ Mongoose.closes (mongoose s') = Mongoose.closes (mongoose s).
Proof.
  rewrite run_createConnection. cbn zeta.
  destruct (Mongoose.listen true (nextSignals s) 2)
    as [[[u|e'|] st] rest] eqn:Hl; [done| |];
    intros [= <- <-]; (split; [done|]); (split; [done|]);
    (split; [done|]); (split; [|done]); cbn;
    by rewrite dom_alter_L, dom_insert_L.
Qed.

Lemma failed_open_is_not_tracked_witness :
  Error "Failed to establish database connection for tenant acme"
  = openFailure "acme"
  ∧ connections (run (createConnection "acme")
                   (Scenarios.managerWith [[]])).1
    = connections (Scenarios.managerWith [[]])
  ∧ connectionTimestamps (run (createConnection "acme")
                            (Scenarios.managerWith [[]])).1
    = connectionTimestamps (Scenarios.managerWith [[]])
  ∧ dom (Mongoose.objects
           (mongoose (run (createConnection "acme")
                        (Scenarios.managerWith [[]])).1))
    = {[fresh (dom (Mongoose.objects
                      (mongoose (Scenarios.managerWith [[]]))))]}
      ∪ dom (Mongoose.objects (mongoose (Scenarios.managerWith [[]])))
  ∧ Mongoose.closes
      (mongoose (run (createConnection "acme")
                   (Scenarios.managerWith [[]])).1)
    = Mongoose.closes (mongoose (Scenarios.managerWith [[]])).
Proof.
  apply (failed_open_is_not_tracked "acme" (Scenarios.managerWith [[]])).
  vm_compute. reflexivity.
Defined.

(** *** Closing idle connections *)

Lemma closeEach_returns (tenants : list string) (s : State) :
  ∃ s',
    run (closeEach tenants) s = (s', Returned tt)
    ∧ (∀ tenantId, tenantId ∈ tenants → connections s' !! tenantId = None)
    ∧ (∀ tenantId, tenantId ∉ tenants →
         connections s' !! tenantId = connections s !! tenantId
         ∧ connectionTimestamps s' !! tenantId
           = connectionTimestamps s !! tenantId).
Proof.
  revert s. induction tenants as [|t0 tenants IH]; intros s.
  - exists s. split; [done|]. split; [|done].
    intros tenantId Hin. by apply not_elem_of_nil in Hin.
  - cbn [closeEach]. run_step. rewrite run_closeConnection.
    assert (Hstep : ∃ s1,
      match connections s !! t0 with
      | Some connection =>
          ({| connections := base.delete t0 (connections s);
              connectionTimestamps :=
                base.delete t0 (connectionTimestamps s);
              clock := clock s;
              mongoose := (Mongoose.close connection (mongoose s)).2 |},
           Returned tt)
      | None => (s, Returned tt)
      end = (s1, Returned tt)
      ∧ connections s1 !! t0 = None
      ∧ ∀ tenantId, tenantId ≠ t0 →
          connections s1 !! tenantId = connections s !! tenantId
          ∧ connectionTimestamps s1 !! tenantId
            = connectionTimestamps s !! tenantId).
    { destruct (connections s !! t0) as [connection|] eqn:Ht0.
      - eexists. split; [reflexivity|].
        split; [cbn; apply lookup_delete_eq|].
        intros tenantId Hne. cbn. by rewrite !lookup_delete_ne.
      - exists s. by split. }
    destruct Hstep as (s1 & -> & Hgone & Hkept).
    destruct (IH s1) as (s' & Hrun & Hin & Hout).
    exists s'. split; [done|]. split.
    + intros tenantId [->|Ht]%elem_of_cons; [|by apply Hin].
      destruct (decide (t0 ∈ tenants)) as [Ht|Ht]; [by apply Hin|].
      destruct (Hout t0 Ht) as [-> _]. done.
    + intros tenantId Hnin. apply not_elem_of_cons in Hnin as [Hne Hnin].
      destruct (Hout tenantId Hnin) as [-> ->]. by apply Hkept.
Qed.

Lemma elem_of_tenantsToClose (tenantId : string) (s : State) :
  tenantId ∈ tenantsToClose s
  ↔ ∃ timestamp, connectionTimestamps s !! tenantId = Some timestamp
                 ∧ connectionTimeout < clock s - timestamp.
Proof.
  unfold tenantsToClose. rewrite list_elem_of_fmap. split.
  - intros ([t ts] & -> & [Hidle Hin]%list_elem_of_filter).
    apply elem_of_map_to_list in Hin. by exists ts.
  - intros (ts & Hts & Hidle). exists (tenantId, ts). split; [done|].
    apply list_elem_of_filter. split; [done|].
    by apply elem_of_map_to_list.
Qed.

(** X9. [closeInactiveConnections] never fails.  Afterwards, no tenant
    whose timestamp is more than the timeout (30 minutes) old is
    tracked; a tenant used within the timeout, or exactly the timeout
    ago, or without a timestamp, is tracked as before with its timestamp
    as before. *)
Theorem closeInactiveConnections_closes_idle_only (s : State) :
  ∃ s',
    run closeInactiveConnections s = (s', Returned tt)
    ∧ (∀ tenantId timestamp,
         connectionTimestamps s !! tenantId = Some timestamp →
         connectionTimeout < clock s - timestamp →
         connections s' !! tenantId = None)
    ∧ (∀ tenantId,
         (∀ timestamp,
            connectionTimestamps s !! tenantId = Some timestamp →
            clock s - timestamp ≤ connectionTimeout) →
         connections s' !! tenantId = connections s !! tenantId
         ∧ connectionTimestamps s' !! tenantId
           = connectionTimestamps s !! tenantId).
Proof.
  unfold closeInactiveConnections. run_step.
  destruct (closeEach_returns (tenantsToClose s) s)
    as (s' & Hrun & Hin & Hout).
  exists s'. split; [done|]. split.
  - intros tenantId ts Hts Hidle. apply Hin, elem_of_tenantsToClose.
    by exists ts.
  - intros tenantId Hfresh. apply Hout.
    intros (ts & Hts & Hidle)%elem_of_tenantsToClose.
    specialize (Hfresh ts Hts). lia.
Qed.

(** *** An invariant of the tracking *)

Lemma tidy_closeConnection (tenantId : string) (s : State) :
  tidy s → tidy (run (closeConnection tenantId) s).1.
Proof.
  intros Htidy. rewrite run_closeConnection.
  destruct (connections s !! tenantId) as [connection|]; [|done].
  intros other. cbn. intros Hnone. apply lookup_delete_None.
  apply lookup_delete_None in Hnone as [Hnone|Hnone]; [by left|].
  right. by apply Htidy.
Qed.

Lemma tidy_closeEach (tenants : list string) (s : State) :
  tidy s → tidy (run (closeEach tenants) s).1.
Proof.
  revert s. induction tenants as [|t0 tenants IH]; intros s Htidy; [done|].
  cbn [closeEach]. rewrite run_bind.
  pose proof (tidy_closeConnection t0 s Htidy) as H1.
  rewrite run_closeConnection in *.
  destruct (connections s !! t0) as [connection|]; by apply IH.
Qed.

(** X10. Run one after the other, [getConnection], [closeConnection]
    and [closeInactiveConnections] keep timestamps for tracked tenants
    only, however they end: a tenant without a tracked connection has no
    timestamp. *)
Theorem timestamps_only_for_tracked_tenants (tenantId : string)
    (s : State) :
  tidy s →
  tidy (run (getConnection tenantId) s).1
  ∧ tidy (run (closeConnection tenantId) s).1
  ∧ tidy (run closeInactiveConnections s).1.
Proof.
  intros Htidy. split; [|split].
  - pose proof (getConnection_outcomes tenantId s) as Hout.
    destruct (run (getConnection tenantId) s) as [s' [c|e|]]; cbn [fst].
    + destruct Hout as [(Htracked & _ & Hts) Hothers]. intros other Hnone.
      destruct (decide (other = tenantId)) as [->|Hne];
        [by rewrite Htracked in Hnone|].
      destruct (Hothers other Hne) as [Hc Ht]. rewrite Ht.
      apply Htidy. by rewrite <- Hc.
    + destruct Hout as (_ & _ & _ & Hkeeps). by apply Hkeeps.
    + by destruct Hout as [-> _].
  - by apply tidy_closeConnection.
  - unfold closeInactiveConnections. rewrite run_bind, run_read.
    by apply tidy_closeEach.
Qed.

Lemma timestamps_only_for_tracked_tenants_witness :
  tidy (run (getConnection "acme") (Scenarios.managerWith [])).1
  ∧ tidy (run (closeConnection "acme") (Scenarios.managerWith [])).1
  ∧ tidy (run closeInactiveConnections (Scenarios.managerWith [])).1.
Proof.
  apply timestamps_only_for_tracked_tenants. by intros tenantId _.
Defined.

End ConnectionLifecycle.

(** ** Registering schemas *)

Module CatalogueRegistration.
Import DistributedModelRegistry RegistryFacts.
Local Open Scope list_scope.

Definition required : JsError := Error "Model name and schema are required".
Definition notASchema : JsError :=
  Error "Schema must be an instance of mongoose.Schema".

(** [registerSchema] as a function of the state. *)
Lemma run_registerSchema (modelName : string) (schema : SchemaArg)
    (r : State) :
  run (registerSchema modelName schema) r =
  match schema with
  | Falsy => (r, Thrown required)
  | NotASchema =>
      if String.eqb modelName "" then (r, Thrown required)
      else (r, Thrown notASchema)
  | ASchema s =>
      if String.eqb modelName "" then (r, Thrown required)
      else (with_registeredSchemas
              (assign modelName s (registeredSchemas r)) r, Returned tt)
  end.
Proof.
  unfold registerSchema.
  destruct schema as [| |s]; destruct (String.eqb modelName ""); done.
Qed.

Lemma names_assign {X} (n : string) (x : X) (l : list (string * X)) :
  (assign n x l).*1 = if decide (n ∈ l.*1) then l.*1 else l.*1 ++ [n].
Proof.
  induction l as [|[n' y] l IH]; cbn.
  - by rewrite decide_False by apply not_elem_of_nil.
  - destruct (String.eqb n n') eqn:E.
    + apply String.eqb_eq in E as ->. cbn.
      by rewrite decide_True by left.
    + cbn. rewrite IH.
      assert (Hne : n ≠ n')
        by (intros ->; by rewrite String.eqb_refl in E).
      destruct (decide (n ∈ l.*1)) as [Hin|Hnin].
      * by rewrite decide_True by (by right).
      * rewrite decide_False; [done|].
        intros [?|?]%elem_of_cons; done.
Qed.

Lemma NoDup_assign {X} (n : string) (x : X) (l : list (string * X)) :
  NoDup l.*1 → NoDup (assign n x l).*1.
Proof.
  intros Hnd. rewrite names_assign.
  destruct (decide (n ∈ l.*1)) as [Hin|Hnin]; [done|].
  apply NoDup_app. split; [done|]. split; [|apply NoDup_singleton].
  intros m Hm ->%list_elem_of_singleton. done.
Qed.

(** X11. A successful [registerSchema(name, schema)] makes [name] map
    to [schema] and leaves every other name as it was; a name that was
    registered already keeps its place in [getRegisteredSchemas()], a
    new one goes to the end. *)
Theorem registerSchema_registers (modelName : string) (schema : Schema)
    (r : State) :
  modelName ≠ "" →
  ∃ r',
    run (registerSchema modelName (ASchema schema)) r = (r', Returned tt)
    ∧ assoc modelName (registeredSchemas r') = Some schema
    ∧ (∀ other, other ≠ modelName →
         assoc other (registeredSchemas r')
         = assoc other (registeredSchemas r))
    ∧ getRegisteredSchemas r'
      = (if isSchemaRegistered modelName r then getRegisteredSchemas r
         else getRegisteredSchemas r ++ [modelName]).
Proof.
  intros Hne. rewrite run_registerSchema.
  destruct (String.eqb modelName "") eqn:E; [by apply String.eqb_eq in E|].
  eexists. split; [reflexivity|]. cbn [registeredSchemas with_registeredSchemas].
  split; [by rewrite assoc_assign, String.eqb_refl|]. split.
  - intros other Hother. rewrite assoc_assign.
    destruct (String.eqb other modelName) eqn:E'; [|done].
    by apply String.eqb_eq in E'.
  - unfold getRegisteredSchemas, isSchemaRegistered.
    cbn [registeredSchemas with_registeredSchemas]. rewrite names_assign.
    assert (Hiff : modelName ∈ (registeredSchemas r).*1
                   ↔ is_Some (assoc modelName (registeredSchemas r))).
    { induction (registeredSchemas r) as [|[n' s'] l IH]; cbn.
      - split; [by intros ?%not_elem_of_nil|by intros [? ?]].
      - destruct (String.eqb modelName n') eqn:E'.
        + apply String.eqb_eq in E' as ->. split; [by eexists|by left].
        + rewrite <- IH. split.
          * intros [->|?]%elem_of_cons; [|done].
            by rewrite String.eqb_refl in E'.
          * by right. }
    destruct (decide (modelName ∈ (registeredSchemas r).*1)) as [Hin|Hnin].
    + by rewrite bool_decide_eq_true_2 by (by apply Hiff).
    + by rewrite bool_decide_eq_false_2 by (by rewrite <- Hiff).
Qed.

Lemma registerSchema_registers_witness :
  ∃ r',
    run (registerSchema "User" (ASchema (AppSchema 0)))
        (Scenarios.registry Scenarios.redisDown (Scenarios.managerWith []))
    = (r', Returned tt)
    ∧ assoc "User" (registeredSchemas r') = Some (AppSchema 0)
    ∧ (∀ other, other ≠ "User" →
         assoc other (registeredSchemas r')
         = assoc other
             (registeredSchemas
                (Scenarios.registry Scenarios.redisDown
                   (Scenarios.managerWith []))))
    ∧ getRegisteredSchemas r'
      = (if isSchemaRegistered "User"
              (Scenarios.registry Scenarios.redisDown
                 (Scenarios.managerWith []))
         then getRegisteredSchemas
                (Scenarios.registry Scenarios.redisDown
                   (Scenarios.managerWith []))
         else getRegisteredSchemas
                (Scenarios.registry Scenarios.redisDown
                   (Scenarios.managerWith [])) ++ ["User"]).
Proof. apply registerSchema_registers. discriminate. Defined.

(** *** Registering several schemas *)

(** An entry [registerSchema] accepts: a name that is not empty and a
    schema. *)
Definition valid (entry : string * SchemaArg) : Prop :=
  entry.1 ≠ "" ∧ ∃ s, entry.2 = ASchema s.

(** The error an entry that is not valid is rejected with. *)
Definition rejection (modelName : string) (schema : SchemaArg) : JsError :=
  match schema with
  | NotASchema => if String.eqb modelName "" then required else notASchema
  | _ => required
  end.

Lemma run_registerSchemas_app (l1 l2 : list (string * SchemaArg))
    (r : State) :
  run (registerSchemas (l1 ++ l2)) r =
  match run (registerSchemas l1) r with
  | (r', Returned _) => run (registerSchemas l2) r'
  | other => other
  end.
Proof.
  revert r. induction l1 as [|[n arg] l1 IH]; intros r; [done|].
  cbn [app registerSchemas]. run_step.
  destruct (run (registerSchema n arg) r) as [r1 [[]|e|]]; [apply IH|done..].
Qed.

Lemma registerSchemas_valid (entries : list (string * SchemaArg))
    (r : State) :
  Forall valid entries →
  ∃ r',
    run (registerSchemas entries) r = (r', Returned tt)
    ∧ (∀ modelName, modelName ∈ entries.*1 →
         isSchemaRegistered modelName r' = true)
    ∧ (∀ modelName, modelName ∉ entries.*1 →
         assoc modelName (registeredSchemas r')
         = assoc modelName (registeredSchemas r)).
Proof.
  revert r.
  induction entries as [|[n arg] entries IH]; intros r Hvalid.
  - exists r. split; [done|]. split; [|done].
    intros modelName Hin. by apply not_elem_of_nil in Hin.
  - apply Forall_cons in Hvalid as [[Hn [s Hs]] Hvalid].
    cbn in Hn, Hs. subst arg. cbn [registerSchemas]. run_step.
    rewrite run_registerSchema.
    destruct (String.eqb n "") eqn:E; [by apply String.eqb_eq in E|].
    destruct (IH (with_registeredSchemas
                    (assign n s (registeredSchemas r)) r) Hvalid)
      as (r' & Hrun & Hin & Hout).
    exists r'. split; [done|]. split.
    + intros modelName Hm. cbn in Hm.
      destruct (decide (modelName ∈ entries.*1)) as [Hm'|Hm'];
        [by apply Hin|].
      apply elem_of_cons in Hm as [->|Hm]; [|done].
      unfold isSchemaRegistered. rewrite (Hout n Hm'). cbn.
      rewrite assoc_assign, String.eqb_refl.
      by apply bool_decide_eq_true_2.
    + intros modelName Hm. cbn in Hm.
      apply not_elem_of_cons in Hm as [Hne Hm].
      rewrite (Hout modelName Hm). cbn. rewrite assoc_assign.
      destruct (String.eqb modelName n) eqn:E'; [|done].
      by apply String.eqb_eq in E'.
Qed.

(** X12. [registerSchemas] is not all-or-nothing: it throws at the
    first entry that [registerSchema] rejects, with that entry's error,
    and by then the entries before it are registered for good; names
    that come only after it are as they were. *)
Theorem registerSchemas_stops_at_first_invalid
    (before after : list (string * SchemaArg)) (modelName : string)
    (schema : SchemaArg) (r : State) :
  Forall valid before → ¬ valid (modelName, schema) →
  ∃ r',
    run (registerSchemas (before ++ (modelName, schema) :: after)) r
    = (r', Thrown (rejection modelName schema))
    ∧ run (registerSchemas before) r = (r', Returned tt)
    ∧ (∀ name, name ∈ before.*1 → isSchemaRegistered name r' = true)
    ∧ (∀ name, name ∉ before.*1 →
         assoc name (registeredSchemas r')
         = assoc name (registeredSchemas r)).
Proof.
  intros Hbefore Hinvalid.
  destruct (registerSchemas_valid before r Hbefore)
    as (r' & Hrun & Hin & Hout).
  exists r'. split; [|done].
  rewrite run_registerSchemas_app, Hrun. cbn [registerSchemas]. run_step.
  rewrite run_registerSchema. unfold rejection.
  destruct schema as [| |s]; [done|by destruct (String.eqb modelName "")|].
  destruct (String.eqb modelName "") eqn:E; [done|].
  destruct Hinvalid. split; [|by eexists].
  cbn. intros ->. by rewrite String.eqb_refl in E.
Qed.

Lemma registerSchemas_stops_at_first_invalid_witness :
  ∃ r',
    run (registerSchemas ([("User", ASchema (AppSchema 0))]
                          ++ ("Project", NotASchema)
                          :: [("Invoice", ASchema (AppSchema 2))]))
        (Scenarios.registry Scenarios.redisDown (Scenarios.managerWith []))
    = (r', Thrown (rejection "Project" NotASchema))
    ∧ run (registerSchemas [("User", ASchema (AppSchema 0))])
          (Scenarios.registry Scenarios.redisDown (Scenarios.managerWith []))
      = (r', Returned tt)
    ∧ (∀ name, name ∈ [("User", ASchema (AppSchema 0))].*1 →
         isSchemaRegistered name r' = true)
    ∧ (∀ name, name ∉ [("User", ASchema (AppSchema 0))].*1 →
         assoc name (registeredSchemas r')
         = assoc name
             (registeredSchemas
                (Scenarios.registry Scenarios.redisDown
                   (Scenarios.managerWith [])))).
Proof.
  apply registerSchemas_stops_at_first_invalid.
  - repeat constructor; [discriminate|by eexists].
  - intros [_ [s Hs]]. discriminate Hs.
Defined.

End CatalogueRegistration.

(** ** Looking up one model of a cold tenant *)

Module ColdLookup.
Import DistributedModelRegistry Cold CatalogueRegistration.

(** The model a cold materialization in [r] binds to [schema]. *)
Definition fresh_model (modelName : string) (schema : Schema) (r : State)
  : Model :=
  {| Mongoose.modelName := modelName;
     Mongoose.schema := schema;
     Mongoose.db :=
       fresh (dom (Mongoose.objects
                     (TenantConnectionManager.mongoose
                        (connectionManager r))));
     Mongoose.collectionName :=
       Mongoose.toCollectionName
         (TenantConnectionManager.mongoose (connectionManager r))
         modelName |}.

Lemma assoc_materialized (modelName : string) (r : State) :
  assoc modelName (materialized r)
  = (λ schema, Bound (fresh_model modelName schema r))
      <$> assoc modelName (registeredSchemas r).
Proof.
  unfold materialized, fresh_model.
  induction (registeredSchemas r) as [|[n s] l IH]; [done|].
  cbn. destruct (String.eqb modelName n) eqn:E; [|exact IH].
  by apply String.eqb_eq in E as ->.
Qed.

(** Registering a schema keeps a tenant uncached. *)
Lemma uncached_registered (tenantId modelName : string) (schema : Schema)
    (r : State) :
  uncached tenantId r →
  uncached tenantId
    (with_registeredSchemas
       (assign modelName schema (registeredSchemas r)) r).
Proof.
  intros (HT & Hl1 & Hl2 & Htr & Hlock & Hnd & Hrel).
  repeat (split; [done|]). split; [|done].
  cbn. by apply NoDup_assign.
Qed.

(** ... and registering an ordinary name keeps the catalogue
    ordinary. *)
Lemma ordinary_registered (modelName : string) (schema : Schema)
    (r : State) :
  ordinary r → inherited modelName = false →
  ordinary (with_registeredSchemas
              (assign modelName schema (registeredSchemas r)) r).
Proof.
  unfold ordinary. cbn. intros Hord Hname. rewrite names_assign.
  destruct (decide (modelName ∈ (registeredSchemas r).*1)); [done|].
  apply Forall_app. split; [done|]. by constructor.
Qed.

(** X13. For a tenant that is uncached, a catalogue without names of
    [Object.prototype] and a name that is not one of them either,
    [getModel(tenantId, name)] returns a model for [name] bound to the
    connection that is opened: with the registered schema if [name] is
    registered, and otherwise with [MasterDataSchema], which it
    registers under [name]. *)
Theorem getModel_on_cold_tenant (tenantId modelName : string) (r : State) :
  uncached tenantId r → ordinary r →
  modelName ≠ "" → inherited modelName = false →
  (run (getModel tenantId modelName) r).2
  = Returned
      (Bound
         (fresh_model modelName
            (default MasterDataSchema
                     (assoc modelName (registeredSchemas r))) r))
  ∧ assoc modelName
      (registeredSchemas (run (getModel tenantId modelName) r).1)
    = Some (default MasterDataSchema
              (assoc modelName (registeredSchemas r))).
Proof.
  intros Hcold Hord Hname Hplain.
  assert (Hgo : ∀ r1 schema,
    uncached tenantId r1 → ordinary r1 →
    assoc modelName (registeredSchemas r1) = Some schema →
    TenantConnectionManager.mongoose (connectionManager r1)
    = TenantConnectionManager.mongoose (connectionManager r) →
    ∃ r2,
      run (let* models := getModels tenantId in
           match Mongoose.member (assoc modelName models) modelName with
           | Some m => ret m
           | None =>
               throw (Error ("Model " +:+ modelName
                             +:+ " not found for tenant " +:+ tenantId))
           end) r1
      = (r2, Returned (Bound (fresh_model modelName schema r)))
      ∧ assoc modelName (registeredSchemas r2) = Some schema).
  { intros r1 schema Hcold1 Hord1 Hschema Hd. rewrite run_bind.
    destruct (SingleFlight.alone_done tenantId r1 Hcold1 Hord1) as [Ho _].
    pose proof (CatalogueFacts.getModels_kept (registeredSchemas r1)
                  tenantId r1 eq_refl) as [Hkept _].
    destruct (run (getModels tenantId) r1) as [r2 o]. cbn in Ho, Hkept.
    subst o. rewrite (RegistryFacts.member_ordinary _ _ Hplain).
    rewrite assoc_materialized, Hschema. unfold fresh_model.
    rewrite Hd. cbn.
    exists r2. split; [done|]. by rewrite Hkept. }
  unfold getModel. rewrite run_bind, run_read. unfold isSchemaRegistered.
  destruct (assoc modelName (registeredSchemas r)) as [schema|] eqn:Hschema.
  - rewrite bool_decide_eq_true_2 by (by eexists). cbn [bind ret].
    destruct (Hgo r schema Hcold Hord Hschema eq_refl) as (r2 & -> & Hreg).
    done.
  - rewrite bool_decide_eq_false_2 by (by intros [? ?]).
    rewrite run_bind, run_registerSchema.
    destruct (String.eqb modelName "") eqn:E;
      [by apply String.eqb_eq in E|].
    destruct (Hgo (with_registeredSchemas
                     (assign modelName MasterDataSchema (registeredSchemas r))
                     r) MasterDataSchema)
      as (r2 & -> & Hreg);
      [by apply uncached_registered|by apply ordinary_registered
      | |done|done].
    cbn. by rewrite RegistryFacts.assoc_assign, String.eqb_refl.
Qed.

Lemma getModel_on_cold_tenant_witness :
  (run (getModel "acme" "Invoice")
       (Scenarios.registered Scenarios.redisDown
          (Scenarios.managerWith []))).2
  = Returned (Scenarios.handle "Invoice" MasterDataSchema).
Proof.
  assert (Hcold : uncached "acme"
                    (Scenarios.registered Scenarios.redisDown
                       (Scenarios.managerWith []))).
  { split; [discriminate|]. split; [vm_compute; reflexivity|].
    split; [vm_compute; reflexivity|]. split; [vm_compute; reflexivity|].
    split; [intros H; vm_compute in H; discriminate H|].
    split; [apply (bool_decide_unpack _); vm_compute; reflexivity|].
    split; [|split]; vm_compute; constructor. }
  assert (Hord : ordinary (Scenarios.registered Scenarios.redisDown
                             (Scenarios.managerWith [])))
    by (vm_compute; repeat constructor).
  destruct (getModel_on_cold_tenant "acme" "Invoice" _ Hcold Hord)
    as [Ho _]; [discriminate|vm_compute; reflexivity|].
  rewrite Ho. vm_compute. reflexivity.
Defined.

End ColdLookup.

(** ** The tenant middleware *)

Module TenantMiddlewareFacts.
Import TenantConnectionManager ConnectionLifecycle TenantMiddleware.

(** X14. [attachTenantConnection] never throws.  It answers 400
    NO_TENANT, changing nothing, exactly when [req.tenantId] is missing
    or empty.  Otherwise it hands over to the next handler with a
    connection that serves the tenant; or it answers 500
    CONNECTION_ERROR, and then the tenant is not tracked; or it never
    answers, which happens only while the tenant's tracked connection is
    connecting. *)
Theorem attachTenantConnection_outcomes (tenantId : option string)
    (s : State) :
  match run (attachTenantConnection tenantId) s with
  | (s', Returned (Next connection)) =>
      ∃ tenant, tenantId = Some tenant ∧ tenant ≠ ""
                ∧ serving tenant connection s'
  | (s', Returned (Responded status code message)) =>
      (status = 400 ∧ code = "NO_TENANT" ∧ s' = s
       ∧ (tenantId = None ∨ tenantId = Some ""))
      ∨ (status = 500 ∧ code = "CONNECTION_ERROR"
         ∧ ∃ tenant, tenantId = Some tenant ∧ tenant ≠ ""
                     ∧ connections s' !! tenant = None)
  | (s', Thrown e) => False
  | (s', Pending) =>
      s' = s
      ∧ ∃ tenant tracked,
          tenantId = Some tenant
          ∧ connections s !! tenant = Some tracked
          ∧ Mongoose.readyState (Mongoose.deref (mongoose s) tracked) = 2
  end.
Proof.
  unfold attachTenantConnection. destruct tenantId as [tenant|].
  2:{ cbn. left. repeat split. by left. }
  destruct (String.eqb tenant "") eqn:E.
  { apply String.eqb_eq in E as ->. cbn. left. repeat split. by right. }
  assert (Hne : tenant ≠ "") by (intros ->; by rewrite String.eqb_refl in E).
  run_step. pose proof (getConnection_outcomes tenant s) as Hout.
  destruct (run (getConnection tenant) s) as [s' [c|e|]]; run_step.
  - destruct Hout as [Hs _]. by exists tenant.
  - destruct Hout as (_ & Hgone & _). right. repeat split.
    by exists tenant.
  - destruct Hout as (-> & tracked & Htracked & Hstate).
    split; [done|]. by exists tenant, tracked.
Qed.

(** X15. The admin endpoint that closes a tenant's connection always
    answers with success, also when the tenant has no connection and
    when MongoDB rejects the [close()]; afterwards the tenant is not
    tracked.  Its CLOSE_ERROR answer is never given. *)
Theorem closeTenantConnection_always_succeeds (tenantId : string)
    (s : State) :
  ∃ s',
    run (closeTenantConnection tenantId) s
    = (s', Returned (Responded 200 ""
                       ("Connection closed for tenant: " +:+ tenantId)))
    ∧ connections s' !! tenantId = None.
Proof.
  unfold closeTenantConnection. run_step. rewrite run_closeConnection.
  destruct (connections s !! tenantId) as [connection|] eqn:Htracked;
    run_step.
  - eexists. split; [reflexivity|]. cbn. apply lookup_delete_eq.
  - by exists s.
Qed.

End TenantMiddlewareFacts.

(** ** Closing a tenant's connection through the registry *)

Module TenantReset.
Import DistributedModelRegistry Cold RegistryFacts.

Lemma run_conn {A} (t : Task TenantConnectionManager.State A) (r : State) :
  run (conn t) r =
  (with_connectionManager (run t (connectionManager r)).1 r,
   (run t (connectionManager r)).2).
Proof.
  unfold conn. rewrite run_lift; [|done|by intros []|done].
  by destruct (run t (connectionManager r)).
Qed.

Lemma run_cache {A} (t : Task CacheManager.State A) (r : State) :
  run (cache t) r =
  (with_cacheManager (run t (cacheManager r)).1 r,
   (run t (cacheManager r)).2).
Proof.
  unfold cache. rewrite run_lift; [|done|by intros []|done].
  by destruct (run t (cacheManager r)).
Qed.

Lemma reliable_close (connection : nat) (d : Mongoose.Driver) :
  reliable d → reliable (Mongoose.close connection d).2.
Proof.
  unfold reliable, Mongoose.close.
  by destruct (Mongoose.closes d) as [|[e|] rest].
Qed.

(** X16. [closeTenantConnection] never fails; afterwards the tenant
    has no tracked connection and no tier-1 entry.  If moreover Redis
    is not configured or accepts the [DEL], then (with the tenant's
    mutex free, MongoDB in order and no name of [Object.prototype] in
    the catalogue) the tenant is uncached again, and the next
    [getModels] materializes it from scratch, over a connection object
    that did not exist before. *)
Theorem closeTenantConnection_makes_tenant_cold (tenantId : string)
    (r : State) :
  ∃ r',
    run (closeTenantConnection tenantId) r = (r', Returned tt)
    ∧ TenantConnectionManager.connections (connectionManager r')
        !! tenantId = None
    ∧ CacheManager.l1Cache (cacheManager r')
        !! CacheManager.generateKey tenantId = None
    ∧ (tenantId ≠ "" →
       modelCreationLocks r !! tenantId ≠ Some true →
       NoDup (getRegisteredSchemas r) → ordinary r →
       reliable (TenantConnectionManager.mongoose (connectionManager r)) →
       CacheManager.l2Client (cacheManager r) = None
       ∨ (∃ c, CacheManager.l2Client (cacheManager r) = Some c
               ∧ CacheManager.isRedisConnected (cacheManager r) = true
               ∧ CacheInvalidation.accepts c) →
       uncached tenantId r'
       ∧ (run (getModels tenantId) r').2 = Returned (materialized r')).
Proof.
  unfold closeTenantConnection, invalidateCache. run_step.
  rewrite run_conn, ConnectionLifecycle.run_closeConnection.
  rewrite run_cache, CacheInvalidation.run_delete. cbn zeta.
  set (tcm' := match TenantConnectionManager.connections
                       (connectionManager r) !! tenantId with
               | Some connection => _
               | None => _
               end).
  assert (Htcm : TenantConnectionManager.connections tcm'.1 !! tenantId
                 = None
                 ∧ tcm'.2 = Returned tt
                 ∧ (reliable (TenantConnectionManager.mongoose
                                (connectionManager r)) →
                    reliable (TenantConnectionManager.mongoose tcm'.1))).
  { subst tcm'.
    destruct (TenantConnectionManager.connections (connectionManager r)
                !! tenantId) as [connection|] eqn:Htracked; cbn.
    - split; [apply lookup_delete_eq|]. split; [done|].
      apply reliable_close.
    - done. }
  destruct Htcm as (Hgone & Ho & Hrel). destruct tcm' as [tcm1 o1].
  cbn in Hgone, Ho, Hrel. subst o1.
  cbn [fst snd cacheManager with_connectionManager].
  set (cm' := if CacheManager.l2Ready (cacheManager r) then _ else _).
  assert (Hcm : cm'.2 = Returned tt
                ∧ CacheManager.l1Cache cm'.1
                    !! CacheManager.generateKey tenantId = None
                ∧ (CacheManager.l2Client (cacheManager r) = None
                   ∨ (∃ c, CacheManager.l2Client (cacheManager r) = Some c
                           ∧ CacheManager.isRedisConnected (cacheManager r)
                             = true
                           ∧ CacheInvalidation.accepts c) →
                   (CacheManager.l2Client cm'.1
                      ≫= λ c, CacheManager.store c
                                !! CacheManager.generateKey tenantId)
                   = None)).
  { subst cm'. unfold CacheManager.l2Ready.
    destruct (CacheManager.l2Client (cacheManager r)) as [c|] eqn:Hc.
    - destruct (CacheManager.isRedisConnected (cacheManager r)) eqn:Hconn.
      + rewrite bool_decide_eq_true_2 by (by eexists). cbn [andb].
        destruct (CacheManager.replies c) as [|[e|] rest] eqn:He; cbn;
          (split; [done|]); (split; [apply lookup_delete_eq|]);
          intros [?|(c' & [= <-] & _ & Hacc)]; try done;
          try apply lookup_delete_eq.
        by destruct (Hacc e rest).
      + cbn. split; [done|]. split; [apply lookup_delete_eq|].
        by intros [?|(c' & _ & ? & _)].
    - rewrite andb_false_r. cbn. split; [done|].
      split; [apply lookup_delete_eq|]. by rewrite Hc. }
  destruct Hcm as (Ho & Hl1 & Hl2). destruct cm' as [cm1 o1].
  cbn in Ho, Hl1, Hl2. subst o1. cbn [fst snd].
  eexists. split; [reflexivity|]. split; [done|]. split; [done|].
  intros HT Hlock Hnd Hord Hreliable Hredis.
  assert (Hcold : uncached tenantId
            (with_cacheManager cm1 (with_connectionManager tcm1 r))).
  { split; [done|]. split; [done|]. split; [by apply Hl2|].
    split; [done|]. split; [done|]. split; [done|]. by apply Hrel. }
  split; [done|].
  by destruct (SingleFlight.alone_done tenantId _ Hcold Hord) as [? _].
Qed.

Lemma closeTenantConnection_makes_tenant_cold_witness :
  ∃ r',
    run (closeTenantConnection "acme")
        (Scenarios.acmeCached Scenarios.redisDown) = (r', Returned tt)
    ∧ uncached "acme" r'
    ∧ (run (getModels "acme") r').2 = Returned (materialized r').
Proof.
  destruct (closeTenantConnection_makes_tenant_cold "acme"
              (Scenarios.acmeCached Scenarios.redisDown))
    as (r' & Hrun & _ & _ & Hcold).
  exists r'. split; [exact Hrun|]. apply Hcold.
  - discriminate.
  - intros H. vm_compute in H. discriminate H.
  - apply (bool_decide_unpack _). vm_compute. reflexivity.
  - vm_compute. repeat constructor.
  - split; [|split]; vm_compute; constructor.
  - left. vm_compute. reflexivity.
Defined.

End TenantReset.

(** ** The master data cache *)

Module MasterDataCacheFacts.
Import MasterDataCache.
Import CacheManager(RedisText(..), RedisClient, store, replies).

(** The entry Redis holds under [key]. *)
Definition entry (key : string) (s : State) : option (Z * RedisText) :=
  client s ≫= λ c, store c !! key.

Lemma run_client_command {B}
    (op : gmap string (Z * RedisText) → B * gmap string (Z * RedisText))
    (s : State) :
  run (command op) s =
  match client s with
  | None => (s, Thrown (TypeError "Cannot read properties of null"))
  | Some c =>
      match replies c with
      | Some e :: rest =>
          (with_client {| store := store c; replies := rest |} s, Thrown e)
      | _ =>
          (with_client {| store := (op (store c)).2;
                          replies := tail (replies c) |} s,
           Returned (op (store c)).1)
      end
  end.
Proof.
  unfold command. rewrite run_bind, run_act.
  destruct (client s) as [c|]; [|done].
  destruct (replies c) as [|[e|] rest]; cbn; by destruct (op (store c)).
Qed.

(** X17. The master data cache never throws.  [set] returns [true]
    exactly when it has written the entry, with the data and the TTL in
    seconds, and otherwise leaves every entry as it was; when the cache
    is not connected, [set] and [delete] return [false] and [get]
    returns [null] without touching Redis. *)
Theorem set_reports_what_it_did (tenantId collection : string)
    (data : jsval) (identifier : option string) (customTTL : option Z)
    (s : State) :
  ∃ s' written,
    run (set tenantId collection data identifier customTTL) s
    = (s', Returned written)
    ∧ (if written
       then entry (generateKey tenantId collection identifier) s'
            = Some (ttlSeconds customTTL s, JsonText data)
       else ∀ key, entry key s' = entry key s)
    ∧ (isConnected s = false → s' = s ∧ written = false
       ∧ run (get tenantId collection identifier) s = (s, Returned VNull)
       ∧ run (delete tenantId collection identifier) s
         = (s, Returned false)).
Proof.
  unfold set, get, delete. run_step.
  destruct (isConnected s) eqn:Hconn; cbn [negb]; run_step.
  2:{ exists s, false. by repeat split. }
  rewrite run_client_command. destruct (client s) as [c|] eqn:Hc; run_step.
  2:{ exists s, false. by repeat split. }
  destruct (replies c) as [|[e|] rest]; run_step; cbn [fst snd].
  - eexists _, true. split; [reflexivity|]. split; [|done].
    cbn. apply lookup_insert_eq.
  - eexists _, false. split; [reflexivity|]. split; [|done].
    intros key. unfold entry. by rewrite Hc.
  - eexists _, true. split; [reflexivity|]. split; [|done].
    cbn. apply lookup_insert_eq.
Qed.

(** X19. The key does not keep tenant, collection and identifier
    apart: a colon in one of them moves the boundary.  So the three
    operations cannot tell a collection of tenant "T:X" from a
    collection of tenant "T" whose name starts with "X:", nor the
    identifier [I] in collection [C] from the collection "C:I" as a
    whole. *)
Theorem keys_run_together (tenantId part collection item : string)
    (identifier : option string) (data : jsval) (customTTL : option Z) :
  (get (tenantId +:+ ":" +:+ part) collection identifier
   = get tenantId (part +:+ ":" +:+ collection) identifier
   ∧ set (tenantId +:+ ":" +:+ part) collection data identifier customTTL
     = set tenantId (part +:+ ":" +:+ collection) data identifier customTTL
   ∧ delete (tenantId +:+ ":" +:+ part) collection identifier
     = delete tenantId (part +:+ ":" +:+ collection) identifier)
  ∧ (item ≠ "" →
     get tenantId collection (Some item)
     = get tenantId (collection +:+ ":" +:+ item) None
     ∧ set tenantId collection data (Some item) customTTL
       = set tenantId (collection +:+ ":" +:+ item) data None customTTL
     ∧ delete tenantId collection (Some item)
       = delete tenantId (collection +:+ ":" +:+ item) None).
Proof.
  assert (Hassoc : ∀ a b c : string, (a +:+ b) +:+ c = a +:+ (b +:+ c)).
  { induction a as [|x a IH]; intros b c; [done|].
    change (String x ((a +:+ b) +:+ c) = String x (a +:+ (b +:+ c))).
    f_equal. apply IH. }
  assert (Hkey : generateKey (tenantId +:+ ":" +:+ part) collection
                   identifier
                 = generateKey tenantId (part +:+ ":" +:+ collection)
                     identifier).
  { unfold generateKey. by rewrite !Hassoc. }
  split.
  - unfold get, set, delete. by rewrite Hkey.
  - intros Hitem.
    assert (Hkey' : generateKey tenantId collection (Some item)
                    = generateKey tenantId (collection +:+ ":" +:+ item)
                        None).
    { unfold generateKey.
      destruct (String.eqb item "") eqn:E;
        [by apply String.eqb_eq in E|].
      by rewrite !Hassoc. }
    unfold get, set, delete. by rewrite Hkey'.
Qed.

End MasterDataCacheFacts.

(** ** Refilling the cache over a live connection *)

Module Refill.
Import DistributedModelRegistry RegistryFacts CatalogueFacts.
Local Open Scope list_scope.

Section Live.
Context (T : string) (c : nat) (h : string → Model) (r0 : State).

Local Notation key := (CacheManager.generateKey T) (only parsing).

(** Neither tier has an entry for the tenant. *)
Definition cacheGone (cm : CacheManager.State) : Prop :=
  CacheManager.l1Cache cm !! key = None
  ∧ CacheInvalidation.l2Entry key cm = None.

(** The tenant's connection [c] is tracked and connected, and has a
    model, [h name], for every name of the catalogue. *)
Definition live (r : State) : Prop :=
  TenantConnectionManager.connections (connectionManager r) !! T = Some c
  ∧ Mongoose.readyState
      (Mongoose.deref
         (TenantConnectionManager.mongoose (connectionManager r)) c) = 1
  ∧ ∀ name schema, (name, schema) ∈ registeredSchemas r →
      connectionModel c name (connectionManager r) = Some (Bound (h name)).

(** The handles the connection has for the catalogue. *)
Definition handles : list (string * Handle) :=
  (λ '(name, schema), (name, Bound (h name))) <$> registeredSchemas r0.

(** What the refill leaves as it is. *)
Definition same (r : State) : Prop :=
  registeredSchemas r = registeredSchemas r0
  ∧ clock r = clock r0
  ∧ TenantConnectionManager.connections (connectionManager r) !! T = Some c
  ∧ TenantConnectionManager.mongoose (connectionManager r)
    = TenantConnectionManager.mongoose (connectionManager r0)
  ∧ modelCreations (stats r) = modelCreations (stats r0).

Context (Hlive : live r0) (Hnames : NoDup (getRegisteredSchemas r0)).

Lemma get_gone (cm : CacheManager.State) :
  cacheGone cm →
  wp (CacheManager.get T) (λ cm' o, o = Returned VNull ∧ cacheGone cm') cm.
Proof.
  intros Hgone. pose proof Hgone as [Hl1 Hl2]. unfold wp.
  rewrite CacheInvalidation.run_get, Hl1, CacheInvalidation.run_get_l2.
  destruct (CacheManager.l2Ready cm); [|by split].
  destruct (CacheManager.l2Client cm) as [cl|] eqn:Hcl; [|by split].
  rewrite (CacheInvalidation.l2Entry_client _ cl cm Hcl) in Hl2.
  rewrite Hl2.
  assert (Hafter : cacheGone (CacheManagerFacts.afterCommand cl
                                (CacheManager.store cl) cm))
    by (split; [done|by rewrite CacheInvalidation.l2Entry_afterCommand]).
  destruct (CacheManager.replies cl) as [|[e|] rest]; by split.
Qed.

Lemma getCachedModels_gone (r : State) :
  same r → cacheGone (cacheManager r) →
  wp (getCachedModels T)
     (λ r' o, o = Returned None ∧ same r' ∧ cacheGone (cacheManager r')
              ∧ modelCreationLocks r' = modelCreationLocks r
              ∧ cacheMisses (stats r') = cacheMisses (stats r) + 1) r.
Proof.
  intros Hsame Hgone. unfold getCachedModels. apply wp_bind, wp_cache.
  eapply wp_mono; [by apply get_gone|].
  intros cm' o [-> Hgone']. cbn [truthy negb].
  apply wp_bind, wp_write, wp_ret.
  split; [done|]. split; [exact Hsame|]. split; [exact Hgone'|].
  by split.
Qed.

(** [createTenantModels] over the live connection: every model is
    there already, so the driver is not called. *)
Lemma bindAll_bound (schemas : list (string * Schema))
    (models : list (string * Handle)) (r : State) :
  same r →
  (∀ name schema, (name, schema) ∈ schemas →
     (name, schema) ∈ registeredSchemas r0) →
  wp (bindAll c schemas models)
     (λ r' o,
        o = Returned (foldl (λ acc '(name, schema),
                               assign name (Bound (h name)) acc)
                            models schemas)
        ∧ same r' ∧ cacheManager r' = cacheManager r
        ∧ modelCreationLocks r' = modelCreationLocks r
        ∧ stats r' = stats r) r.
Proof.
  revert models r.
  induction schemas as [|[name schema] schemas IH]; intros models r Hsame Hin.
  - by apply wp_ret.
  - cbn [bindAll foldl]. apply wp_bind. unfold bindModel.
    apply wp_bind, wp_conn, wp_read.
    destruct Hsame as (HS & Hclock & Htracked & Hd & Hcr).
    destruct Hlive as (_ & _ & Hbound).
    assert (Hmodel : connectionModel c name (connectionManager r)
                     = Some (Bound (h name))).
    { unfold connectionModel. rewrite Hd.
      apply (Hbound name schema), Hin. left. }
    rewrite Hmodel. apply wp_ret.
    assert (Hput : put name (Bound (h name)) models
                   = assign name (Bound (h name)) models).
    { unfold put. destruct (String.eqb name "__proto__") eqn:E; [|done].
      unfold connectionModel, Mongoose.member in Hmodel.
      rewrite E in Hmodel. discriminate Hmodel. }
    rewrite Hput.
    eapply wp_mono; [apply IH|].
    + by destruct r.
    + intros n s Hn. apply Hin. by right.
    + intros r' o (-> & Hsame' & Hcm & Hlocks & Hstats). by destruct r.
Qed.

Lemma createTenantModels_live (r : State) :
  same r →
  wp (createTenantModels T)
     (λ r' o, o = Returned handles ∧ same r'
              ∧ cacheManager r' = cacheManager r
              ∧ modelCreationLocks r' = modelCreationLocks r
              ∧ stats r' = stats r) r.
Proof.
  intros Hsame. pose proof Hsame as (HS & Hclock & Htracked & Hd & Hcr).
  destruct Hlive as (_ & Hstate & _).
  unfold createTenantModels. apply wp_bind, wp_conn.
  unfold TenantConnectionManager.getConnection.
  apply wp_bind, wp_read. rewrite Htracked.
  apply wp_bind, wp_read. rewrite Hd, Hstate. cbn [Z.eqb Pos.eqb].
  unfold TenantConnectionManager.updateTimestamp.
  apply wp_bind, wp_write, wp_ret, wp_bind, wp_read.
  cbn [registeredSchemas with_connectionManager]. rewrite HS.
  eapply wp_mono; [apply bindAll_bound|].
  - done.
  - done.
  - intros r' o (-> & Hsame' & Hcm & Hlocks & Hstats). split; [|done].
    unfold handles. f_equal.
    rewrite (SingleFlight.foldl_assign (λ name _, Bound (h name)));
      [done|].
    exact Hnames.
Qed.

(** Models have collections. *)
Lemma metadataFrom_models (r : State) (models : list (string * Handle))
    (acc : list (string * jsval)) :
  Forall (λ e, ∃ m, e.2 = Bound m) models →
  ∃ metadata, modelsMetadataFrom r models acc = inr metadata.
Proof.
  revert acc. induction models as [|[name model] models IH];
    intros acc Hall; cbn.
  - by eexists.
  - apply Forall_cons in Hall as [[m Hm] Hall]. cbn in Hm. subst model.
    cbn. by apply IH.
Qed.

(** [cacheModels] puts the entry back into tier 1. *)
Lemma cacheModels_refills (r : State) :
  same r →
  wp (cacheModels T handles)
     (λ r' o, o = Returned tt ∧ same r'
              ∧ (∃ fields, CacheManager.l1Cache (cacheManager r') !! key
                           = Some (VObj fields))
              ∧ modelCreationLocks r' = modelCreationLocks r
              ∧ stats r' = stats r) r.
Proof.
  intros Hsame. unfold cacheModels.
  apply wp_bind, wp_read, wp_bind, wp_read, wp_bind, wp_orThrow.
  destruct (metadataFrom_models r handles []) as [metadata Hmetadata].
  { unfold handles. apply Forall_fmap, Forall_forall.
    intros [name schema] _. by eexists. }
  unfold modelsMetadata. rewrite Hmetadata. apply wp_cache.
  destruct (CacheManagerFacts.set_returns T
              (VObj [("tenantId", VStr T);
                     ("timestamp", VNum (clock r));
                     ("models", VObj metadata)])
              None (cacheManager r)) as (cm' & Hrun & Hl1 & _).
  unfold wp. rewrite Hrun. cbn [fst snd].
  split; [done|]. split; [exact Hsame|]. split; [|done].
  eexists. cbn. rewrite Hl1. apply lookup_insert_eq.
Qed.

(** What a refill ends with. *)
Definition refilled (r' : State) (o : Outcome (list (string * Handle)))
  : Prop :=
  o = Returned handles
  ∧ TenantConnectionManager.connections (connectionManager r') !! T = Some c
  ∧ TenantConnectionManager.mongoose (connectionManager r')
    = TenantConnectionManager.mongoose (connectionManager r0)
  ∧ modelCreations (stats r') = modelCreations (stats r0) + 1
  ∧ cacheMisses (stats r') = cacheMisses (stats r0) + 2
  ∧ (∃ fields, CacheManager.l1Cache (cacheManager r') !! key
               = Some (VObj fields))
  ∧ modelCreationLocks r' !! T = Some false.

Lemma getModels_refills :
  T ≠ "" → cacheGone (cacheManager r0) →
  modelCreationLocks r0 !! T ≠ Some true →
  wp (getModels T) refilled r0.
Proof.
  intros HT Hgone Hlock. unfold getModels.
  destruct (String.eqb T "") eqn:E; [by apply String.eqb_eq in E|].
  assert (Hsame0 : same r0) by (destruct Hlive as (? & _); by repeat split).
  apply wp_catch, wp_bind.
  eapply wp_mono; [by apply getCachedModels_gone|].
  intros r1 o (-> & Hsame1 & Hgone1 & Hlocks1 & Hmiss1).
  unfold getMutex. apply wp_bind, wp_write.
  set (r2 := match modelCreationLocks r1 !! T with
             | Some _ => r1
             | None => with_locks (<[T := false]> (modelCreationLocks r1)) r1
             end).
  assert (H2 : same r2 ∧ cacheGone (cacheManager r2)
               ∧ modelCreationLocks r2 !! T ≠ Some true
               ∧ cacheMisses (stats r2) = cacheMisses (stats r0) + 1).
  { subst r2. rewrite Hlocks1.
    destruct (modelCreationLocks r0 !! T) as [b|] eqn:Hb.
    - split; [done|]. split; [done|]. split; [|done].
      by rewrite Hlocks1, Hb.
    - split; [exact Hsame1|]. split; [exact Hgone1|]. split; [|done].
      cbn. by rewrite lookup_insert_eq. }
  destruct H2 as (Hsame2 & Hgone2 & Hlock2 & Hmiss2). clearbody r2.
  unfold runExclusive. apply wp_Act.
  assert (Hinside :
    wp (finally
          (let* cachedModelsInMutex := getCachedModels T in
           match cachedModelsInMutex with
           | Some models => ret models
           | None =>
               let* models := createTenantModels T in
               cacheModels T models;;
               write (with_stats creation);;
               ret models
           end)
          (λ r, with_locks (<[T := false]> (modelCreationLocks r)) r))
       (λ r' o, match o with
                | Thrown e =>
                    wp (write (with_stats failure);; throw e) refilled r'
                | _ => refilled r' o
                end)
       (with_locks (<[T := true]> (modelCreationLocks r2)) r2)).
  { apply wp_finally, wp_bind.
    eapply wp_mono; [by apply getCachedModels_gone|].
    intros r3 o (-> & Hsame3 & Hgone3 & _ & Hmiss3). apply wp_bind.
    eapply wp_mono; [by apply createTenantModels_live|].
    intros r4 o (-> & Hsame4 & _ & _ & Hstats4). apply wp_bind.
    eapply wp_mono; [by apply cacheModels_refills|].
    intros r5 o (-> & Hsame5 & Hfields & _ & Hstats5).
    apply wp_bind, wp_write, wp_ret.
    destruct Hsame5 as (HS & Hclock & Htracked & Hd & Hcr).
    split; [done|]. split; [exact Htracked|]. split; [exact Hd|].
    split; [cbn; by rewrite Hcr|].
    split; [cbn; rewrite Hstats5, Hstats4, Hmiss3; cbn; lia|].
    split; [exact Hfields|]. cbn. apply lookup_insert_eq. }
  by destruct (modelCreationLocks r2 !! T) as [[|]|].
Qed.

End Live.

(** X21. When the cache entry of a tenant is gone (invalidated or
    expired) while its connection is tracked and connected and has a
    model for every registered name, [getModels] returns exactly those
    models and puts the entry back into tier 1.  It opens no connection
    and asks the driver for nothing; and it counts one more
    materialization and two cache misses. *)
Theorem refill_reuses_connection (tenantId : string) (connection : nat)
    (h : string → Model) (r : State) :
  tenantId ≠ "" →
  live tenantId connection h r →
  NoDup (getRegisteredSchemas r) →
  cacheGone tenantId (cacheManager r) →
  modelCreationLocks r !! tenantId ≠ Some true →
  ∃ r',
    run (getModels tenantId) r = (r', Returned (handles h r))
    ∧ TenantConnectionManager.connections (connectionManager r')
        !! tenantId = Some connection
    ∧ TenantConnectionManager.mongoose (connectionManager r')
      = TenantConnectionManager.mongoose (connectionManager r)
    ∧ modelCreations (stats r') = modelCreations (stats r) + 1
    ∧ cacheMisses (stats r') = cacheMisses (stats r) + 2
    ∧ ∃ fields, CacheManager.l1Cache (cacheManager r')
                  !! CacheManager.generateKey tenantId
                = Some (VObj fields).
Proof.
  intros HT Hlive Hnames Hgone Hlock.
  pose proof (getModels_refills tenantId connection h r Hlive Hnames
                HT Hgone Hlock) as Hwp.
  unfold wp in Hwp. destruct (run (getModels tenantId) r) as [r' o].
  cbn [fst snd] in Hwp.
  destruct Hwp as (-> & Htracked & Hd & Hcr & Hmiss & Hfields & _).
  by exists r'.
Qed.

(** The registry of [Scenarios.acmeCached] after
    [invalidateCache("acme")], and the handles its connection has. *)
Definition invalidated : State :=
  (run (invalidateCache "acme")
       (Scenarios.acmeCached Scenarios.redisDown)).1.

Definition acmeHandle (name : string) : Model :=
  {| Mongoose.modelName := name;
     Mongoose.schema :=
       if String.eqb name "User" then AppSchema 0 else AppSchema 1;
     Mongoose.db := 0%nat;
     Mongoose.collectionName := Scenarios.pluralize name |}.

Lemma refill_reuses_connection_witness :
  ∃ r',
    run (getModels "acme") invalidated
    = (r', Returned (handles acmeHandle invalidated))
    ∧ TenantConnectionManager.connections (connectionManager r')
        !! "acme" = Some 0%nat
    ∧ TenantConnectionManager.mongoose (connectionManager r')
      = TenantConnectionManager.mongoose (connectionManager invalidated)
    ∧ modelCreations (stats r') = modelCreations (stats invalidated) + 1
    ∧ cacheMisses (stats r') = cacheMisses (stats invalidated) + 2
    ∧ ∃ fields, CacheManager.l1Cache (cacheManager r')
                  !! CacheManager.generateKey "acme"
                = Some (VObj fields).
Proof.
  apply refill_reuses_connection.
  - discriminate.
  - split; [vm_compute; reflexivity|]. split; [vm_compute; reflexivity|].
    intros name schema Hin.
    assert (Hcatalogue : registeredSchemas invalidated
                         = [("User", AppSchema 0); ("Project", AppSchema 1)])
      by (vm_compute; reflexivity).
    rewrite Hcatalogue in Hin. clear Hcatalogue.
    apply elem_of_cons in Hin as [Hin|Hin];
      [injection Hin as -> ->; vm_compute; reflexivity|].
    apply elem_of_cons in Hin as [Hin|Hin];
      [injection Hin as -> ->; vm_compute; reflexivity|].
    by apply not_elem_of_nil in Hin.
  - apply (bool_decide_unpack _). vm_compute. reflexivity.
  - split; vm_compute; reflexivity.
  - intros H. vm_compute in H. discriminate H.
Defined.

End Refill.

(** ** Closing every connection at shutdown *)

Module Shutdown.
Import TenantConnectionManager Concurrent.
Import ConnectionLifecycle(tidy).
Local Open Scope list_scope.

(** What one action of a [closeConnection] may do to the tracking:
    nothing, or forget its tenant. *)
Definition forgets (tenantId : string) (s s' : State) : Prop :=
  (connections s' = connections s
   ∧ connectionTimestamps s' = connectionTimestamps s)
  ∨ (connections s' = base.delete tenantId (connections s)
     ∧ connectionTimestamps s'
       = base.delete tenantId (connectionTimestamps s)).

(** [t] is a [closeConnection tenantId] under way: its next action can
    run, forgets at most its tenant, and it ends only by returning, with
    the tenant untracked. *)
Fixpoint closing (tenantId : string) (t : Task State unit) : Prop :=
  match t with
  | Fin _ => False
  | Act f k =>
      ∀ s, ∃ b s',
        f s = Some (b, s') ∧ forgets tenantId s s'
        ∧ match k b with
          | Fin o => o = Returned tt ∧ connections s' !! tenantId = None
          | Act _ _ => closing tenantId (k b)
          end
  end.

Lemma closing_closeConnection (tenantId : string) :
  closing tenantId (closeConnection tenantId).
Proof.
  unfold closeConnection. cbn. intros s. eexists _, _.
  split; [reflexivity|]. split; [by left|].
  destruct (connections s !! tenantId) as [connection|] eqn:Htracked;
    [|done].
  cbn. intros s1.
  destruct (Mongoose.close connection (mongoose s1)) as [closed d] eqn:Hd.
  eexists _, _. split; [reflexivity|]. split; [by left|].
  destruct closed as [e|[]]; cbn; intros s2; eexists _, _;
    (split; [reflexivity|]); (split; [by right|]); cbn;
    (split; [done|]); apply lookup_delete_eq.
Qed.

Lemma forgets_gone (tenantId other : string) (s s' : State) :
  forgets tenantId s s' → connections s !! other = None →
  connections s' !! other = None.
Proof.
  intros [[-> _]|[-> _]] Hnone; [done|].
  by apply lookup_delete_None; right.
Qed.

Section Pool.
Context (s0 : State).

Definition tenants : list string := (map_to_list (connections s0)).*1.

Definition inv (c : State * list (Task State unit)) : Prop :=
  length c.2 = length tenants
  ∧ (∀ i tenantId, tenants !! i = Some tenantId →
       ∃ t, c.2 !! i = Some t
            ∧ (closing tenantId t
               ∨ (t = Fin (Returned tt)
                  ∧ connections c.1 !! tenantId = None)))
  ∧ (∀ tenantId, connections s0 !! tenantId = None →
                 connections c.1 !! tenantId = None)
  ∧ (tidy s0 → tidy c.1).

Lemma lookup_closeAll (i : nat) (l : list string) :
  List.map closeConnection l !! i
  = match l !! i with
    | Some tenantId => Some (closeConnection tenantId)
    | None => None
    end.
Proof.
  revert i. induction l as [|x l IH]; intros [|i]; cbn; auto.
Qed.

Lemma length_closeAll (l : list string) :
  length (List.map closeConnection l) = length l.
Proof. induction l as [|x l IH]; cbn; auto. Qed.

Lemma inv_start : inv (s0, closeAll s0).
Proof.
  unfold inv, closeAll. fold tenants. cbn [fst snd].
  split; [apply length_closeAll|]. split; [|done].
  intros i tenantId Hi. exists (closeConnection tenantId).
  split; [by rewrite lookup_closeAll, Hi|].
  left. apply closing_closeConnection.
Qed.

Lemma inv_turn (i : nat) (c : State * list (Task State unit)) :
  inv c → inv (turn i c).
Proof.
  intros Hinv. unfold turn.
  destruct (c.2 !! i) as [t|] eqn:Hi; [|done].
  destruct (step t c.1) as [[t' s']|] eqn:Hstep; [|done].
  destruct c as [s ts]. unfold inv in *. cbn [fst snd] in *.
  destruct Hinv as (Hlen & Hall & Hgone & Htidy).
  assert (Hlt : (i < length tenants)%nat)
    by (rewrite <- Hlen; by eapply PoolFacts.lookup_lt).
  destruct (PoolFacts.lookup_some tenants i Hlt) as [mine Hmine].
  destruct (Hall i mine Hmine) as (t0 & Ht0 & Hstage).
  rewrite Hi in Ht0. injection Ht0 as <-.
  destruct Hstage as [Hclosing|[-> _]]; [|done].
  destruct t as [o|B f k]; [done|]. cbn in Hclosing, Hstep.
  destruct (Hclosing s) as (b & s1 & Hf & Hforgets & Hnext).
  rewrite Hf in Hstep. injection Hstep as <- <-.
  split; [by rewrite PoolFacts.insert_length|]. split; [|split].
  - intros j tenantId Hj. destruct (decide (j = i)) as [->|Hne].
    + rewrite Hmine in Hj. injection Hj as <-. exists (k b).
      split; [apply PoolFacts.lookup_insert_eq; by rewrite Hlen|].
      destruct (k b) as [o|B' f' k']; [right|by left].
      destruct Hnext as [-> Hnone]. done.
    + destruct (Hall j tenantId Hj) as (tj & Htj & Hstage).
      exists tj. split; [by rewrite PoolFacts.lookup_insert_ne|].
      destruct Hstage as [?|[-> Hnone]]; [by left|right].
      split; [done|]. by eapply forgets_gone.
  - intros tenantId Hnone. eapply forgets_gone; [done|]. by apply Hgone.
  - intros Ht0 tenantId Hnone. specialize (Htidy Ht0).
    destruct Hforgets as [[Hc Hts]|[Hc Hts]]; rewrite Hts.
    + apply Htidy. by rewrite <- Hc.
    + rewrite Hc in Hnone. apply lookup_delete_None.
      apply lookup_delete_None in Hnone as [Hnone|Hnone]; [by left|].
      right. by apply Htidy.
Qed.

Lemma inv_exec (schedule : list nat) (c : State * list (Task State unit)) :
  inv c → inv (exec schedule c).
Proof.
  revert c. induction schedule as [|i schedule IH]; intros c Hinv; [done|].
  apply (IH (turn i c)), inv_turn, Hinv.
Qed.

Lemma inv_outcome (c : State * list (Task State unit)) (i : nat)
    (o : Outcome unit) :
  inv c → c.2 !! i = Some (Fin o) → o = Returned tt.
Proof.
  intros (Hlen & Hall & _) Hi.
  assert (Hlt : (i < length tenants)%nat)
    by (rewrite <- Hlen; by eapply PoolFacts.lookup_lt).
  destruct (PoolFacts.lookup_some tenants i Hlt) as [mine Hmine].
  destruct (Hall i mine Hmine) as (t & Ht & Hstage).
  rewrite Hi in Ht. injection Ht as <-.
  destruct Hstage as [[]|[[= ->] _]]. done.
Qed.

Lemma inv_enabled (c : State * list (Task State unit)) :
  inv c → ¬ settled c → ∃ i, enabled i c.
Proof.
  intros (Hlen & Hall & _) Hnot.
  destruct (PoolFacts.all_or_not
              (λ t : Task State unit, bool_decide (is_Some (result t))) c.2)
    as [Hdone|(i & t & Hi & Hres)].
  { destruct Hnot. intros i t Hi.
    exact (bool_decide_eq_true_1 _ (Hdone i t Hi)). }
  exists i, t. split; [done|].
  assert (Hlt : (i < length tenants)%nat)
    by (rewrite <- Hlen; by eapply PoolFacts.lookup_lt).
  destruct (PoolFacts.lookup_some tenants i Hlt) as [mine Hmine].
  destruct (Hall i mine Hmine) as (t0 & Ht0 & Hstage).
  rewrite Hi in Ht0. injection Ht0 as <-.
  destruct Hstage as [Hclosing|[-> _]]; [|done].
  destruct t as [o|B f k]; [done|]. cbn in Hclosing |- *.
  destruct (Hclosing c.1) as (b & s1 & -> & _). by eexists.
Qed.

Lemma inv_settled (c : State * list (Task State unit)) :
  inv c → settled c →
  connections c.1 = ∅ ∧ (tidy s0 → connectionTimestamps c.1 = ∅).
Proof.
  intros (Hlen & Hall & Hgone & Htidy) Hset.
  assert (Hnone : ∀ tenantId, connections c.1 !! tenantId = None).
  { intros tenantId.
    destruct (connections s0 !! tenantId) as [x|] eqn:Hx; [|by apply Hgone].
    assert (Hin : tenantId ∈ tenants).
    { apply list_elem_of_fmap. exists (tenantId, x). split; [done|].
      by apply elem_of_map_to_list. }
    apply list_elem_of_lookup_1 in Hin as [i Hi].
    destruct (Hall i tenantId Hi) as (t & Ht & Hstage).
    destruct (Hset i t Ht) as [o Ho].
    destruct Hstage as [Hclosing|[_ ?]]; [|done].
    by destruct t. }
  split; [by apply map_empty|].
  intros Ht0. apply map_empty. intros tenantId. by apply Htidy.
Qed.

End Pool.

(** X22. [closeAll] starts one [closeConnection] for every tracked
    tenant and lets them run together.  In whatever order their actions
    are interleaved: each of them ends by returning, never by throwing,
    also when [close()] is rejected; as long as one has not ended, one
    can go on, and they can all be brought to their end; and when all
    have ended no connection is tracked any more (and no timestamp is
    left, if timestamps were kept for tracked tenants only). *)
Theorem closeAll_untracks_every_tenant (s : State) (schedule : list nat) :
  (∀ i o, (exec schedule (s, closeAll s)).2 !! i = Some (Fin o) →
          o = Returned tt)
  ∧ (¬ settled (exec schedule (s, closeAll s)) →
     ∃ i, enabled i (exec schedule (s, closeAll s)))
  ∧ (∃ schedule', settled (exec schedule' (exec schedule (s, closeAll s))))
  ∧ (settled (exec schedule (s, closeAll s)) →
     connections (exec schedule (s, closeAll s)).1 = ∅
     ∧ (tidy s →
        connectionTimestamps (exec schedule (s, closeAll s)).1 = ∅)).
Proof.
  pose proof (inv_exec s schedule _ (inv_start s)) as Hinv.
  split; [intros i o; by apply (inv_outcome s)|].
  split; [by apply (inv_enabled s)|].
  split; [|by apply inv_settled].
  apply (Schedules.settles (inv s)); [|apply inv_enabled|done].
  intros i c. apply inv_turn.
Qed.

End Shutdown.

(** ** A tier-2 hit *)

Module CachePromotion.
Import CacheManager CacheManagerFacts CacheInvalidation.

(** X23. A [get] that finds the tenant's entry in tier 2 only returns
    the value and puts it into tier 1; if the value is truthy, the next
    [get] returns it from tier 1, without a word to Redis. *)
Theorem tier2_hit_is_promoted (tenantId : string) (cm : State)
    (c : RedisClient) (seconds : Z) (v : jsval) :
  l1Cache cm !! generateKey tenantId = None →
  l2Ready cm = true → l2Client cm = Some c → accepts c →
  store c !! generateKey tenantId = Some (seconds, JsonText v) →
  ∃ cm1,
    run (get tenantId) cm = (cm1, Returned v)
    ∧ l1Cache cm1 !! generateKey tenantId = Some v
    ∧ (truthy v = true → run (get tenantId) cm1 = (cm1, Returned v)).
Proof.
  intros Hl1 Hready Hc Hacc Hv.
  rewrite run_get, Hl1, run_get_l2, Hready, Hc.
  rewrite (accepts_replies c _ _ Hacc), Hv.
  eexists. split; [reflexivity|].
  assert (Hl1' : l1Cache (with_l1Cache <[generateKey tenantId := v]>
                            (afterCommand c (store c) cm))
                   !! generateKey tenantId = Some v)
    by (cbn; apply lookup_insert_eq).
  split; [exact Hl1'|]. intros Htruthy. by apply get_l1_hit.
Qed.

Lemma tier2_hit_is_promoted_witness :
  ∃ cm1,
    run (get "acme")
        {| l1Cache := ∅;
           l2Client := Some {| store := {[ "models:acme" :=
                                             (1800, JsonText (VObj [])) ]};
                               replies := [] |};
           isRedisConnected := true |} = (cm1, Returned (VObj []))
    ∧ l1Cache cm1 !! generateKey "acme" = Some (VObj [])
    ∧ (truthy (VObj []) = true →
       run (get "acme") cm1 = (cm1, Returned (VObj []))).
Proof.
  eapply (tier2_hit_is_promoted "acme" _ _ 1800 (VObj []));
    [reflexivity|reflexivity|reflexivity|intros e rest H; discriminate H|].
  vm_compute. reflexivity.
Defined.

End CachePromotion.

(** ** Two callers open the same tenant *)

Module ConnectionRace.
Import TenantConnectionManager ConnectionFacts Concurrent.
Import ConnectionLifecycle(listen_settles_connected).
Local Open Scope list_scope.

Lemma exec_cons {W A} (i : nat) (schedule : list nat) (c : @Config W A) :
  exec (i :: schedule) c = exec schedule (turn i c).
Proof. reflexivity. Qed.

Lemma turn_runs {W A} (i : nat) (w w' : W) (ts : list (Task W A))
    (t t' : Task W A) :
  ts !! i = Some t → step t w = Some (t', w') →
  turn i (w, ts) = (w', <[i := t']> ts).
Proof. intros Hi Hs. unfold turn. cbn [fst snd]. by rewrite Hi, Hs. Qed.

Lemma connects_listen (sigs : list ConnEvent) :
  Cold.connects sigs →
  ∃ rest, Mongoose.listen true sigs 2 = (Returned tt, 1, rest).
Proof.
  unfold Cold.connects.
  destruct (Mongoose.listen true sigs 2) as [[o st] rest] eqn:Hl.
  cbn. intros ->. exists rest.
  by rewrite (listen_settles_connected _ _ _ _ _ _ Hl).
Qed.

Lemma connects_next (opens : list (list ConnEvent)) :
  Forall Cold.connects opens →
  Cold.connects (match opens with sigs :: _ => sigs | [] => [EvConnected] end)
  ∧ Forall Cold.connects (tail opens).
Proof. intros [|sigs rest H Hrest]; split; done. Qed.

(** The connection every tracked handle points to exists. *)
Definition grounded (s : State) : Prop :=
  ∀ tenantId connection,
    connections s !! tenantId = Some connection →
    is_Some (Mongoose.objects (mongoose s) !! connection).

(** Both callers find the tenant untracked before either has tracked
    its connection. *)
Definition interleaved : list nat := [0; 0; 1; 1; 0; 0; 0; 1; 1; 1]%nat.

Ltac next_turn tac :=
  rewrite exec_cons;
  erewrite turn_runs; [|reflexivity|tac; reflexivity];
  cbn [insert list_insert].

(** X24. Two callers of [getConnection] for a tenant that has no
    connection, the second starting while the first waits for its
    connection to open: each opens a connection of its own and gets it;
    the tenant ends up tracked with the second one, and the first stays
    connected but is tracked for nobody, so [closeConnection],
    [closeInactiveConnections] and [closeAll] never close it. *)
Theorem concurrent_opens_leak_a_connection (tenantId : string) (s : State) :
  connections s !! tenantId = None →
  Forall Cold.connects (Mongoose.opens (mongoose s)) →
  grounded s →
  ∃ (first second : nat) (s' : State),
    exec interleaved (s, [getConnection tenantId; getConnection tenantId])
    = (s', [Fin (Returned first); Fin (Returned second)])
    ∧ first ≠ second
    ∧ connections s' !! tenantId = Some second
    ∧ Mongoose.readyState (Mongoose.deref (mongoose s') first) = 1
    ∧ Mongoose.readyState (Mongoose.deref (mongoose s') second) = 1
    ∧ ∀ other, connections s' !! other ≠ Some first.
Proof.
  intros Hc Hopens Hgrounded.
  destruct (connects_next _ Hopens) as [[rest1 Hl1]%connects_listen Hopens'].
  destruct (connects_next _ Hopens') as [[rest2 Hl2]%connects_listen _].
  set (c1 := fresh (dom (Mongoose.objects (mongoose s)))).
  set (o1 := {| Mongoose.name := dbPrefix +:+ tenantId;
                Mongoose.readyState := 2; Mongoose.models := ∅;
                Mongoose.signals :=
                  match Mongoose.opens (mongoose s) with
                  | sigs :: _ => sigs
                  | [] => [EvConnected]
                  end |}).
  set (c2 := fresh (dom (<[c1 := o1]> (Mongoose.objects (mongoose s))))).
  assert (Hne : c1 ≠ c2).
  { intros Heq.
    apply (is_fresh (dom (<[c1 := o1]> (Mongoose.objects (mongoose s))))).
    fold c2. rewrite <- Heq. set_solver. }
  assert (Hnew : Mongoose.objects (mongoose s) !! c1 = None).
  { apply not_elem_of_dom, is_fresh. }
  exists c1, c2. eexists. split; [|repeat split].
  - unfold interleaved.
    next_turn ltac:(cbn; rewrite Hc).
    next_turn ltac:(cbn).
    next_turn ltac:(cbn; rewrite Hc).
    next_turn ltac:(cbn).
    next_turn ltac:(cbn [step]; unfold Mongoose.deref;
                    cbn [with_mongoose mongoose Mongoose.objects];
                    fold c1 o1 c2;
                    rewrite (lookup_insert_ne _ c2 c1) by done;
                    rewrite lookup_insert_eq;
                    cbn [default from_option id Mongoose.signals
                         Mongoose.readyState o1];
                    rewrite Hl1; cbn).
    next_turn ltac:(cbn).
    next_turn ltac:(cbn).
    next_turn ltac:(cbn [step]; unfold Mongoose.deref, Mongoose.listened;
                    cbn [with_mongoose mongoose Mongoose.objects
                         Mongoose.with_objects];
                    fold c1 o1 c2;
                    rewrite (lookup_alter_ne _ _ c1 c2) by done;
                    rewrite lookup_insert_eq;
                    cbn [default from_option id Mongoose.signals
                         Mongoose.readyState];
                    rewrite Hl2; cbn).
    next_turn ltac:(cbn).
    next_turn ltac:(cbn).
    cbn [exec foldl]. fold c1 c2. reflexivity.
  - done.
  - cbn. apply lookup_insert_eq.
  - unfold Mongoose.deref. cbn. fold c1 o1 c2.
    rewrite (lookup_alter_ne _ _ c2 c1) by done.
    rewrite lookup_alter_eq.
    rewrite (lookup_insert_ne _ c2 c1) by done.
    by rewrite lookup_insert_eq.
  - unfold Mongoose.deref. cbn. fold c1 o1 c2.
    rewrite lookup_alter_eq.
    rewrite (lookup_alter_ne _ _ c1 c2) by done.
    by rewrite lookup_insert_eq.
  - intros other. cbn. fold c1 o1 c2.
    destruct (decide (other = tenantId)) as [->|Hother].
    + rewrite lookup_insert_eq. congruence.
    + rewrite lookup_insert_ne by done. rewrite lookup_insert_ne by done.
      intros Ht. destruct (Hgrounded _ _ Ht) as [o Ho]. congruence.
Qed.

Lemma concurrent_opens_leak_a_connection_witness :
  ∃ (first second : nat) (s' : State),
    exec interleaved
         (Scenarios.managerWith [], [getConnection "acme"; getConnection "acme"])
    = (s', [Fin (Returned first); Fin (Returned second)])
    ∧ first ≠ second
    ∧ connections s' !! "acme" = Some second
    ∧ Mongoose.readyState (Mongoose.deref (mongoose s') first) = 1
    ∧ Mongoose.readyState (Mongoose.deref (mongoose s') second) = 1
    ∧ ∀ other, connections s' !! other ≠ Some first.
Proof.
  apply (concurrent_opens_leak_a_connection "acme" (Scenarios.managerWith [])).
  - reflexivity.
  - constructor.
  - intros tenantId connection H. exfalso. revert H.
    unfold Scenarios.managerWith. cbn [connections].
    rewrite lookup_empty. discriminate.
Defined.

End ConnectionRace.

(** ** The mutex of a tenant *)

Module MutexRelease.
Import DistributedModelRegistry RegistryFacts CatalogueFacts FailureFacts.
Import ConnectionLifecycle(getConnection_outcomes).

(** The call is suspended on the tenant's tracked connection, which is
    still connecting. *)
Definition waiting (tenantId : string) (r : State) : Prop :=
  ∃ tracked,
    TenantConnectionManager.connections (connectionManager r) !! tenantId
    = Some tracked
    ∧ Mongoose.readyState
        (Mongoose.deref
           (TenantConnectionManager.mongoose (connectionManager r)) tracked)
      = 2.

(** The mutexes are as in [r0], and the step has not suspended. *)
Definition settledOn {A} (r0 r' : State) (o : Outcome A) : Prop :=
  modelCreationLocks r' = modelCreationLocks r0 ∧ o ≠ Pending.

(** The mutexes are as in [r0], and if the step has suspended it waits
    for the tenant's connection. *)
Definition after {A} (tenantId : string) (r0 r' : State) (o : Outcome A)
  : Prop :=
  modelCreationLocks r' = modelCreationLocks r0
  ∧ (o = Pending → waiting tenantId r').

Local Ltac fin :=
  try apply wp_ret;
  first [done | solve [auto] | split; first [done | solve [auto]]].

Lemma conn_read_settles {B} (f : TenantConnectionManager.State → B)
    (r0 r : State) :
  modelCreationLocks r = modelCreationLocks r0 →
  wp (conn (read f)) (settledOn r0) r.
Proof. intros H. by apply wp_conn, wp_read. Qed.

Lemma conn_driver_settles {B}
    (f : Mongoose.Driver → B * Mongoose.Driver) (r0 r : State) :
  modelCreationLocks r = modelCreationLocks r0 →
  wp (conn (TenantConnectionManager.driver f)) (settledOn r0) r.
Proof.
  intros H. apply wp_conn. unfold wp.
  by rewrite ConnectionFacts.run_driver.
Qed.

Lemma conn_getConnection_after (tenantId : string) (r0 r : State) :
  modelCreationLocks r = modelCreationLocks r0 →
  wp (conn (TenantConnectionManager.getConnection tenantId))
     (after tenantId r0) r.
Proof.
  intros H. apply wp_conn. unfold wp.
  pose proof (getConnection_outcomes tenantId (connectionManager r)) as Ho.
  destruct (run (TenantConnectionManager.getConnection tenantId)
                (connectionManager r)) as [s' [c|e|]];
    cbn [fst snd]; (split; [done|]); [done|done|].
  intros _. destruct Ho as (-> & tracked & Ht & Hs). by exists tracked.
Qed.

Lemma bindModel_settles (indexes : bool) (connection : nat)
    (modelName : string) (schema : Schema) (r0 r : State) :
  modelCreationLocks r = modelCreationLocks r0 →
  wp (bindModel indexes connection modelName schema) (settledOn r0) r.
Proof.
  intros H. unfold bindModel. apply wp_bind.
  eapply wp_mono; [by apply conn_read_settles|].
  intros r1 [[m|]|e|] [H1 Hp1]; try done.
  apply wp_bind. eapply wp_mono; [by apply conn_driver_settles|].
  intros r2 [[e|m]|e|] [H2 Hp2]; try done.
  apply wp_bind, wp_orThrow. destruct indexes; [|done].
  apply wp_bind. eapply wp_mono; [by apply conn_driver_settles|].
  intros r3 [[e|[]]|e|] [H3 Hp3]; try done.
Qed.

Lemma reconstruct_settles (connection : nat)
    (entries : list (string * jsval)) (models : list (string * Handle))
    (r0 r : State) :
  modelCreationLocks r = modelCreationLocks r0 →
  wp (reconstruct connection entries models) (settledOn r0) r.
Proof.
  revert models r.
  induction entries as [|[modelName modelInfo] rest IH];
    intros models r H; cbn [reconstruct]; [done|].
  apply wp_bind, wp_read.
  destruct (assoc modelName (registeredSchemas r)) as [schema|];
    [|by apply IH].
  apply wp_bind. eapply wp_mono; [by apply bindModel_settles|].
  intros r1 [m|e|] [H1 Hp1]; try done. by apply IH.
Qed.

Lemma bindAll_settles (connection : nat)
    (schemas : list (string * Schema)) (models : list (string * Handle))
    (r0 r : State) :
  modelCreationLocks r = modelCreationLocks r0 →
  wp (bindAll connection schemas models) (settledOn r0) r.
Proof.
  revert models r.
  induction schemas as [|[modelName schema] rest IH];
    intros models r H; cbn [bindAll]; [done|].
  apply wp_bind. eapply wp_mono; [by apply bindModel_settles|].
  intros r1 [m|e|] [H1 Hp1]; try done. by apply IH.
Qed.

Lemma settledOn_after {A} (tenantId : string) (r0 r' : State)
    (o : Outcome A) :
  settledOn r0 r' o → after tenantId r0 r' o.
Proof. intros [H Hp]. by split. Qed.

Lemma getCachedModels_after (tenantId : string) (r0 r : State) :
  modelCreationLocks r = modelCreationLocks r0 →
  wp (getCachedModels tenantId) (after tenantId r0) r.
Proof.
  intros H. unfold getCachedModels. apply wp_bind, wp_cache.
  destruct (get_readonly tenantId (cacheManager r)) as (cm' & v & Hrun & _).
  unfold wp at 1. rewrite Hrun. cbn [fst snd].
  assert (H1 : modelCreationLocks (with_cacheManager cm' r)
               = modelCreationLocks r0) by done.
  revert H1. generalize (with_cacheManager cm' r). intros r1 H1.
  destruct (truthy v); cbn [negb].
  - apply wp_catch, wp_bind.
    eapply wp_mono; [by apply conn_getConnection_after|].
    intros r2 [connection|e|] [H2 Hp2].
    2:{ fin. }
    2:{ fin. }
    apply wp_bind, wp_orThrow.
    destruct (Object_entries _) as [e|entries]; [fin|].
    apply wp_bind. eapply wp_mono; [by apply reconstruct_settles|].
    intros r3 [models|e|] [H3 Hp3]; [|fin|done].
    apply wp_bind.
    destruct (strictEq _ _); apply wp_write, wp_ret; fin.
  - apply wp_bind, wp_write, wp_ret. fin.
Qed.

Lemma createTenantModels_after (tenantId : string) (r0 r : State) :
  modelCreationLocks r = modelCreationLocks r0 →
  wp (createTenantModels tenantId) (after tenantId r0) r.
Proof.
  intros H. unfold createTenantModels. apply wp_bind.
  eapply wp_mono; [by apply conn_getConnection_after|].
  intros r1 [connection|e|] [H1 Hp1]; [|fin|fin].
  apply wp_bind, wp_read.
  eapply wp_mono; [by apply bindAll_settles|].
  intros r2 o. apply settledOn_after.
Qed.

Lemma cacheModels_settles (tenantId : string)
    (models : list (string * Handle)) (r0 r : State) :
  modelCreationLocks r = modelCreationLocks r0 →
  wp (cacheModels tenantId models) (settledOn r0) r.
Proof.
  intros H. unfold cacheModels.
  apply wp_bind, wp_read, wp_bind, wp_read, wp_bind, wp_orThrow.
  destruct (modelsMetadata r models) as [e|metadata]; [done|].
  apply wp_cache.
  destruct (CacheManagerFacts.set_returns tenantId
              (VObj [("tenantId", VStr tenantId);
                     ("timestamp", VNum (clock r));
                     ("models", VObj metadata)])
              None (cacheManager r)) as (cm' & Hrun & _).
  unfold wp. by rewrite Hrun.
Qed.

(** What [getModels] leaves of the mutexes. *)
Definition released {A} (tenantId : string) (r r' : State) (o : Outcome A)
  : Prop :=
  (∀ other, other ≠ tenantId →
     modelCreationLocks r' !! other = modelCreationLocks r !! other)
  ∧ (o ≠ Pending → modelCreationLocks r' !! tenantId ≠ Some true)
  ∧ (o = Pending → waiting tenantId r').

Lemma after_released {A} (tenantId : string) (r r' : State)
    (o : Outcome A) :
  modelCreationLocks r !! tenantId ≠ Some true →
  after tenantId r r' o → released tenantId r r' o.
Proof.
  intros Hfree [H Hp]. split; [by rewrite H|]. split; [|done].
  by rewrite H.
Qed.

(** X25. Called while the tenant's mutex is free, [getModels] leaves it
    free whenever it returns or throws: a failed materialization
    releases the mutex too.  The mutexes of the other tenants are never
    touched.  The call stays suspended only on the tenant's tracked
    connection while that is connecting. *)
Theorem getModels_releases_mutex (tenantId : string) (r : State) :
  modelCreationLocks r !! tenantId ≠ Some true →
  released tenantId r (run (getModels tenantId) r).1
           (run (getModels tenantId) r).2.
Proof.
  intros Hfree. change (wp (getModels tenantId) (released tenantId r) r).
  unfold getModels. destruct (String.eqb tenantId "").
  { apply wp_throw. by apply after_released. }
  apply wp_catch.
  eapply wp_mono with (Q := released tenantId r).
  2:{ intros r1 [ms|e|] (Ho & Hf & Hw); [done| |done].
      apply wp_bind, wp_write, wp_throw. by repeat split. }
  apply wp_bind.
  eapply wp_mono; [by apply (getCachedModels_after tenantId r)|].
  intros r1 [[models|]|e|] [H1 Hp1]; cbn beta iota;
    [apply wp_ret, after_released; fin | | apply after_released; fin
     | apply after_released; fin].
  apply wp_bind, wp_write.
  set (r2 := match modelCreationLocks r1 !! tenantId with
             | Some _ => r1
             | None => with_locks (<[tenantId := false]>
                                     (modelCreationLocks r1)) r1
             end).
  assert (Ho2 : ∀ other, other ≠ tenantId →
            modelCreationLocks r2 !! other = modelCreationLocks r !! other).
  { intros other Hother. subst r2. rewrite <- H1.
    destruct (modelCreationLocks r1 !! tenantId); [done|].
    cbn. by rewrite lookup_insert_ne. }
  assert (Hf2 : modelCreationLocks r2 !! tenantId ≠ Some true).
  { subst r2. destruct (modelCreationLocks r1 !! tenantId) as [b|] eqn:Hb.
    - rewrite Hb. rewrite H1 in Hb. congruence.
    - cbn. by rewrite lookup_insert_eq. }
  clearbody r2. unfold runExclusive. apply wp_Act.
  set (r3 := with_locks (<[tenantId := true]> (modelCreationLocks r2)) r2).
  assert (Hrel : ∀ {A} r' (o : Outcome A),
            modelCreationLocks r' = modelCreationLocks r3 →
            (o = Pending → waiting tenantId r') →
            match o with
            | Pending => released tenantId r r' o
            | _ => released tenantId r
                     (with_locks (<[tenantId := false]>
                                    (modelCreationLocks r')) r') o
            end).
  { intros A r' o Hl Hw.
    assert (Hothers : ∀ other, other ≠ tenantId →
              modelCreationLocks r' !! other
              = modelCreationLocks r !! other).
    { intros other Hother. rewrite Hl. subst r3. cbn.
      rewrite lookup_insert_ne by done. by apply Ho2. }
    destruct o as [a|e|].
    - split; [|split; [|done]].
      + intros other Hother. cbn. rewrite lookup_insert_ne by done.
        by apply Hothers.
      + intros _. cbn. by rewrite lookup_insert_eq.
    - split; [|split; [|done]].
      + intros other Hother. cbn. rewrite lookup_insert_ne by done.
        by apply Hothers.
      + intros _. cbn. by rewrite lookup_insert_eq.
    - split; [done|]. split; [done|]. exact Hw. }
  assert (Hbody :
    wp (finally
          (let* cachedModelsInMutex := getCachedModels tenantId in
           match cachedModelsInMutex with
           | Some models => ret models
           | None =>
               let* models := createTenantModels tenantId in
               cacheModels tenantId models;;
               write (with_stats creation);;
               ret models
           end)
          (λ r, with_locks (<[tenantId := false]> (modelCreationLocks r)) r))
       (released tenantId r) r3).
  { apply wp_finally, wp_bind.
    eapply wp_mono; [by apply (getCachedModels_after tenantId r3)|].
    intros r4 [[models|]|e|] [H4 Hp4]; cbn beta iota;
      [apply wp_ret, (Hrel _ r4 (Returned models)); fin
      | | apply (Hrel (list (string * Handle)) r4 (Thrown e)); fin
      | apply (Hrel (list (string * Handle)) r4 Pending); fin].
    apply wp_bind.
    eapply wp_mono; [by apply (createTenantModels_after tenantId r3)|].
    intros r5 [models|e|] [H5 Hp5]; cbn beta iota;
      [ | apply (Hrel (list (string * Handle)) r5 (Thrown e)); fin
        | apply (Hrel (list (string * Handle)) r5 Pending); fin].
    apply wp_bind.
    eapply wp_mono; [by apply (cacheModels_settles tenantId models r3)|].
    intros r6 [[]|e|] [H6 Hp6]; cbn beta iota;
      [ | apply (Hrel (list (string * Handle)) r6 (Thrown e)); fin
        | done ].
    apply wp_bind, wp_write, wp_ret.
    apply (Hrel _ (with_stats creation r6) (Returned models)); fin. }
  destruct (modelCreationLocks r2 !! tenantId) as [[|]|] eqn:Hlock;
    [done|exact Hbody|exact Hbody].
Qed.

Lemma getModels_releases_mutex_witness :
  released "acme" Scenarios.refused
           (run (getModels "acme") Scenarios.refused).1
           (run (getModels "acme") Scenarios.refused).2.
Proof.
  apply (getModels_releases_mutex "acme" Scenarios.refused).
  vm_compute. discriminate.
Defined.

End MutexRelease.

(** ** Unregistering a schema *)

Module Unregistration.
Import DistributedModelRegistry RegistryFacts Concurrent.
Import CacheInvalidation(l2Entry).
Local Open Scope list_scope.

(** With tier 1 empty already, the tier-2 half of [clear] is [clear]. *)
Lemma run_clear_l2 (cm : CacheManager.State) :
  run CacheManager.clear_l2 (CacheManager.with_l1Cache (λ _, ∅) cm)
  = run CacheManager.clear cm.
Proof. unfold CacheManager.clear. by run_step. Qed.

(** C8 (as amended). [unregisterSchema(name)] leaves a catalogue without
    [name]; for a name that was not registered it does nothing else.
    For a registered name it empties tier 1 at once and starts, without
    waiting for it, the clear of tier 2.  That clear never fails; run
    right away it leaves tier 1 empty and every key outside "models:"
    as it was, and when Redis accepts its [KEYS] and [DEL] no "models:"
    key is left, so that every tenant's next [get] misses.  And from
    the unregistration on, in whatever state the caches and connections
    are, as long as [name] is not in the catalogue no [getModels] of any
    tenant returns a handle for it. *)
Theorem unregisterSchema_leaves_no_handle (modelName : string) (r : State) :
  let r1 := (unregisterSchema modelName r).1 in
  let detached := (unregisterSchema modelName r).2 in
  assoc modelName (registeredSchemas r1) = None
  ∧ (assoc modelName (registeredSchemas r) = None → r1 = r ∧ detached = [])
  ∧ (is_Some (assoc modelName (registeredSchemas r)) →
     CacheManager.l1Cache (cacheManager r1) = ∅
     ∧ ∃ clearing r2,
         detached = [clearing]
         ∧ run clearing r1 = (r2, Returned tt)
         ∧ registeredSchemas r2 = registeredSchemas r1
         ∧ CacheManager.l1Cache (cacheManager r2) = ∅
         ∧ (∀ k, String.prefix CacheManager.keyPrefix_models k = false →
                 l2Entry k (cacheManager r2) = l2Entry k (cacheManager r))
         ∧ ((∃ c, CacheManager.l2Client (cacheManager r) = Some c
                  ∧ Forall (λ reply, reply = None)
                           (take 2 (CacheManager.replies c))) →
            (CacheManager.l2Ready (cacheManager r) = true →
             ∀ k, String.prefix CacheManager.keyPrefix_models k = true →
                  l2Entry k (cacheManager r2) = None)
            ∧ ∀ tenantId, ∃ cm,
                run (CacheManager.get tenantId) (cacheManager r2)
                = (cm, Returned VNull)))
  ∧ ∀ (r2 r3 : State) (tenantId : string) (ms : list (string * Handle)),
      assoc modelName (registeredSchemas r2) = None →
      run (getModels tenantId) r2 = (r3, Returned ms) →
      assoc modelName ms = None.
Proof.
  intros r1 detached. subst r1 detached. unfold unregisterSchema.
  destruct (assoc modelName (registeredSchemas r)) as [schema|] eqn:E.
  - cbn [fst snd]. split; [apply assoc_filter_ne|].
    split; [done|]. split.
    + intros _. split; [done|].
      destruct (CacheInvalidation.clear_outcome (cacheManager r))
        as (cm' & Hrun & Hl1 & Hother & Haccepted & _).
      eexists _, _. split; [reflexivity|].
      rewrite TenantReset.run_cache.
      cbn [cacheManager with_cacheManager with_registeredSchemas].
      rewrite run_clear_l2, Hrun. cbn [fst snd].
      split; [reflexivity|]. split; [done|]. split; [exact Hl1|].
      split; [exact Hother|]. exact Haccepted.
    + intros r2 r3 tenantId ms.
      apply CatalogueFacts.getModels_skips_unregistered.
  - cbn [fst snd]. split; [exact E|]. split; [done|].
    split; [by intros [? ?]|].
    intros r2 r3 tenantId ms.
    apply CatalogueFacts.getModels_skips_unregistered.
Qed.

(** C8 (as stated) fails: [unregisterSchema("Project")] on a registry
    that has cached "acme" in both tiers, and a [getModels("acme")]
    that reads tier 2 after the [KEYS] of the clear and before its
    [DEL].  Tier 1 is empty when [unregisterSchema] returns; when the
    clear and the call are both over, tier 1 holds the entry of acme
    again, with the metadata of the unregistered [Project]. *)
Lemma stale_entry_returns_to_tier1 :
  let r := Scenarios.acmeCached Scenarios.redisUp in
  let r1 := (unregisterSchema "Project" r).1 in
  let pool := (unregisterSchema "Project" r).2
              ++ [getModels "acme";; ret tt] in
  let final := exec ([0; 0] ++ replicate 40 1 ++ [0; 0; 0])%nat (r1, pool) in
  CacheManager.l1Cache (cacheManager r1) = ∅
  ∧ final.2 = [Fin (Returned tt); Fin (Returned tt)]
  ∧ ∃ entry,
      CacheManager.l1Cache (cacheManager final.1)
        !! CacheManager.generateKey "acme" = Some entry
      ∧ is_Some (prop "models" entry ≫= prop "Project").
Proof.
  cbv zeta. split; [vm_compute; reflexivity|].
  split; [vm_compute; reflexivity|].
  eexists. split; [vm_compute; reflexivity|].
  vm_compute. by eexists.
Qed.

End Unregistration.

(** ** A catalogue with a name of [Object.prototype] *)

Module PrototypeNames.
Import DistributedModelRegistry Concurrent Cold.
Local Open Scope list_scope.

(** C1 (what the code does). After [getModel("globex", "constructor")]
    the catalogue holds [constructor], and "acme" is still uncached.
    Two concurrent [getModels("acme")] then both end with a
    [TypeError]: [connection.models["constructor"]] is the inherited
    [Object], which is taken for a model that exists already and has no
    [collection] when [cacheModels] asks for its name.  There is no
    materialization that the callers share: none is counted, nothing is
    cached, both callers went through the binding, and each counts an
    error. *)
Theorem prototype_name_defeats_single_flight :
  let final := exec (concat (replicate 60 [0; 1]%nat))
                    (Scenarios.poisoned, replicate 2 (getModels "acme")) in
  uncached "acme" Scenarios.poisoned
  ∧ getRegisteredSchemas Scenarios.poisoned = ["User"; "Project"; "constructor"]
  ∧ final.2 = [Fin (Thrown noCollection); Fin (Thrown noCollection)]
  ∧ modelCreations (stats final.1) = modelCreations (stats Scenarios.poisoned)
  ∧ errors (stats final.1) = errors (stats Scenarios.poisoned) + 2
  ∧ CacheManager.l1Cache (cacheManager final.1)
      !! CacheManager.generateKey "acme" = None
  ∧ modelCreationLocks final.1 !! "acme" = Some false.
Proof.
  cbv zeta. split.
  { split; [discriminate|]. split; [vm_compute; reflexivity|].
    split; [vm_compute; reflexivity|]. split; [vm_compute; reflexivity|].
    split; [intros H; vm_compute in H; discriminate H|].
    split; [apply (bool_decide_unpack _); vm_compute; reflexivity|].
    split; [|split]; vm_compute; constructor. }
  repeat split; vm_compute; reflexivity.
Qed.

End PrototypeNames.

(** ** Cold materialization over a poisoned catalogue *)

Module PoisonedCatalogue.
Import DistributedModelRegistry Cold RegistryFacts CatalogueFacts.
Local Open Scope list_scope.

Lemma wp_conn_driver {B} (f : Mongoose.Driver → B * Mongoose.Driver)
    (Q : State → Outcome B → Prop) (r : State) :
  Q (with_connectionManager
       (TenantConnectionManager.with_mongoose
          (λ _, (f (TenantConnectionManager.mongoose
                      (connectionManager r))).2)
          (connectionManager r)) r)
    (Returned (f (TenantConnectionManager.mongoose (connectionManager r))).1) →
  wp (conn (TenantConnectionManager.driver f)) Q r.
Proof.
  intros H. apply wp_conn. unfold wp.
  by rewrite ConnectionFacts.run_driver.
Qed.

(** A handle without a collection stops the loop of [cacheModels]. *)
Lemma metadataFrom_builtin (r : State) (models : list (string * Handle))
    (acc : list (string * jsval)) (name inheritedName : string) :
  assoc name models = Some (Builtin inheritedName) →
  modelsMetadataFrom r models acc = inl noCollection.
Proof.
  revert acc. induction models as [|[n h] models IH]; intros acc; [done|].
  cbn. destruct h as [m|b]; [|done]. cbn.
  destruct (String.eqb name n); [done|]. apply IH.
Qed.

Section Name.
Context (name : string) (Hinherited : inherited name = true)
        (Hproto : name ≠ "__proto__").

(** The connection has no model of its own under [name], and the
    driver will take every [model] and [createIndexes]. *)
Definition ready (connection : nat) (tcm : TenantConnectionManager.State)
  : Prop :=
  Mongoose.models
    (Mongoose.deref (TenantConnectionManager.mongoose tcm) connection)
    !! name = None
  ∧ Forall (λ fault, fault = None)
           (Mongoose.modelFaults (TenantConnectionManager.mongoose tcm))
  ∧ Forall (λ fault, fault = None)
           (Mongoose.indexFaults (TenantConnectionManager.mongoose tcm)).

Lemma connectionModel_name (connection : nat)
    (tcm : TenantConnectionManager.State) :
  ready connection tcm →
  connectionModel connection name tcm = Some (Builtin name).
Proof.
  intros (Hown & _). unfold connectionModel, Mongoose.member.
  rewrite Hown. cbn. rewrite Hinherited.
  by destruct (String.eqb name "__proto__").
Qed.

(** What the loop of [createTenantModels] ends with: the models have
    the inherited member under [name]. *)
Definition taken (models : list (string * Handle)) : Prop :=
  assoc name models = Some (Builtin name).

Lemma taken_put (n : string) (h : Handle)
    (models : list (string * Handle)) :
  (n = name → h = Builtin name) → (n ≠ name → taken models) →
  taken (put n h models).
Proof.
  intros Hsame Hother. unfold taken, put.
  destruct (decide (n = name)) as [->|Hne].
  - rewrite (Hsame eq_refl).
    destruct (String.eqb name "__proto__") eqn:E;
      [by apply String.eqb_eq in E|].
    by rewrite assoc_assign, String.eqb_refl.
  - destruct (String.eqb n "__proto__"); [by apply Hother|].
    rewrite assoc_assign.
    destruct (String.eqb name n) eqn:E; [|by apply Hother].
    apply String.eqb_eq in E. by subst.
Qed.

Lemma bindModel_ready (connection : nat) (n : string) (s : Schema)
    (r : State) :
  ready connection (connectionManager r) →
  wp (bindModel true connection n s)
     (λ r' o, (∃ h, o = Returned h ∧ (n = name → h = Builtin name))
              ∧ ready connection (connectionManager r')
              ∧ ∃ tcm, r' = with_connectionManager tcm r
                       ∧ TenantConnectionManager.connections tcm
                         = TenantConnectionManager.connections
                             (connectionManager r)) r.
Proof.
  intros Hready. unfold bindModel. apply wp_bind, wp_conn, wp_read.
  destruct (connectionModel connection n (connectionManager r))
    as [h|] eqn:Hh.
  { apply wp_ret. split; [|split; [done|by eexists]].
    exists h. split; [done|]. intros ->.
    rewrite (connectionModel_name _ _ Hready) in Hh. congruence. }
  assert (Hne : n ≠ name).
  { intros ->. by rewrite (connectionModel_name _ _ Hready) in Hh. }
  destruct Hready as (Hown & Hmodel & Hindex).
  apply wp_bind, wp_conn_driver.
  cbn [connectionManager with_connectionManager].
  unfold Mongoose.model.
  destruct (Mongoose.modelFaults
              (TenantConnectionManager.mongoose (connectionManager r)))
    as [|[e|] faults] eqn:Hfaults;
    [|by apply Forall_cons in Hmodel as [? _]|];
    cbn [fst snd]; apply wp_bind, wp_orThrow, wp_bind, wp_conn_driver;
    cbn [connectionManager with_connectionManager
         TenantConnectionManager.with_mongoose
         TenantConnectionManager.mongoose Mongoose.createIndexes
         Mongoose.indexFaults fst snd];
    (destruct (Mongoose.indexFaults
                 (TenantConnectionManager.mongoose (connectionManager r)))
       as [|[e|] ifaults] eqn:Hifaults;
       [|by apply Forall_cons in Hindex as [? _]|]);
    apply wp_bind, wp_orThrow, wp_ret;
    (split; [by eexists|]); (split; [|by eexists]);
    unfold ready, Mongoose.deref;
    cbn [connectionManager with_connectionManager
         TenantConnectionManager.with_mongoose
         TenantConnectionManager.mongoose Mongoose.objects
         Mongoose.modelFaults Mongoose.indexFaults tail];
    (split; [|split; try done;
              try (by apply Forall_cons in Hmodel as [_ ?]);
              try (by apply Forall_cons in Hindex as [_ ?])]);
    unfold Mongoose.deref in Hown;
    (destruct (decide (is_Some
                 (Mongoose.objects
                    (TenantConnectionManager.mongoose (connectionManager r))
                    !! connection))) as [[c Hc]|Hnone];
       [rewrite lookup_alter_eq, Hc; rewrite Hc in Hown; cbn in Hown |- *;
        by rewrite lookup_insert_ne
       |rewrite lookup_alter_eq;
        destruct (Mongoose.objects _ !! connection) eqn:Hc;
          [by destruct Hnone|done]]).
Qed.

Lemma bindAll_ready (connection : nat) (schemas : list (string * Schema))
    (models : list (string * Handle)) (r : State) :
  ready connection (connectionManager r) →
  taken models ∨ name ∈ schemas.*1 →
  wp (bindAll connection schemas models)
     (λ r' o, (∃ ms, o = Returned ms ∧ taken ms)
              ∧ ∃ tcm, r' = with_connectionManager tcm r
                       ∧ TenantConnectionManager.connections tcm
                         = TenantConnectionManager.connections
                             (connectionManager r)) r.
Proof.
  revert models r.
  induction schemas as [|[n s] schemas IH]; intros models r Hready Hin;
    cbn [bindAll].
  - apply wp_ret. split; [|exists (connectionManager r); by destruct r].
    exists models. split; [done|]. destruct Hin as [?|Hin]; [done|].
    by apply elem_of_nil in Hin.
  - apply wp_bind. eapply wp_mono; [by apply bindModel_ready|].
    intros r1 o ((h & -> & Hh) & Hready1 & tcm1 & -> & Hconns1).
    eapply wp_mono; [apply IH; [done|]|].
    + destruct (decide (n = name)) as [->|Hne].
      * left. by apply taken_put.
      * destruct Hin as [Ht|Hin]; [left; by apply taken_put|].
        cbn in Hin. apply elem_of_cons in Hin as [?|Hin]; [done|by right].
    + intros r2 o (Hms & tcm2 & -> & Hconns2). split; [done|].
      exists tcm2. split; [done|]. by rewrite Hconns2.
Qed.

(** The connection a cold [getConnection] opens. *)
Lemma getConnection_cold (T : string) (tcm : TenantConnectionManager.State) :
  TenantConnectionManager.connections tcm !! T = None →
  reliable (TenantConnectionManager.mongoose tcm) →
  ∃ tcm' connection,
    run (TenantConnectionManager.getConnection T) tcm
    = (tcm', Returned connection)
    ∧ ready connection tcm'
    ∧ TenantConnectionManager.connections tcm' !! T = Some connection.
Proof.
  intros Htracked (Hopens & Hmodel & Hindex).
  unfold TenantConnectionManager.getConnection. run_step.
  rewrite Htracked, ConnectionLifecycle.run_createConnection. cbn zeta.
  destruct (ConnectionRace.connects_next _ Hopens)
    as [[rest Hl]%ConnectionRace.connects_listen _].
  unfold ConnectionLifecycle.nextSignals. rewrite Hl.
  eexists _, _. split; [reflexivity|]. split.
  - unfold ready, Mongoose.deref. cbn.
    rewrite lookup_alter_eq, lookup_insert_eq. cbn. done.
  - cbn. apply lookup_insert_eq.
Qed.

Lemma createTenantModels_poisoned (T : string) (r : State) :
  TenantConnectionManager.connections (connectionManager r) !! T = None →
  reliable (TenantConnectionManager.mongoose (connectionManager r)) →
  name ∈ (registeredSchemas r).*1 →
  wp (createTenantModels T)
     (λ r' o, (∃ ms, o = Returned ms ∧ taken ms)
              ∧ ∃ tcm, r' = with_connectionManager tcm r
                       ∧ is_Some (TenantConnectionManager.connections tcm
                                    !! T)) r.
Proof.
  intros Htracked Hreliable Hin. unfold createTenantModels.
  destruct (getConnection_cold T _ Htracked Hreliable)
    as (tcm1 & connection & Hrun & Hready & Hconn).
  apply wp_bind, wp_conn. unfold wp at 1. rewrite Hrun. cbn [fst snd].
  apply wp_bind, wp_read.
  eapply wp_mono; [apply bindAll_ready; [exact Hready|by right]|].
  intros r2 o (Hms & tcm2 & -> & Hconns). split; [done|].
  exists tcm2. split; [done|]. cbn in Hconns. by rewrite Hconns, Hconn.
Qed.

Lemma cacheModels_poisoned (T : string) (models : list (string * Handle))
    (r : State) :
  taken models →
  wp (cacheModels T models)
     (λ r' o, r' = r ∧ o = Thrown noCollection) r.
Proof.
  intros Htaken. unfold cacheModels.
  apply wp_bind, wp_read, wp_bind, wp_read, wp_bind, wp_orThrow.
  unfold modelsMetadata.
  by rewrite (metadataFrom_builtin r models [] name name Htaken).
Qed.

End Name.

(** What a call leaves of the registry apart from the connection
    manager, the mutexes and the counters of hits and misses. *)
Definition untouched (T : string) (r r' : State) : Prop :=
  registeredSchemas r' = registeredSchemas r
  ∧ errors (stats r') = errors (stats r)
  ∧ modelCreations (stats r') = modelCreations (stats r)
  ∧ Refill.cacheGone T (cacheManager r').

Lemma getCachedModels_misses (T : string) (r0 r : State) :
  untouched T r0 r →
  wp (getCachedModels T)
     (λ r' o, o = Returned None ∧ untouched T r0 r'
              ∧ modelCreationLocks r' = modelCreationLocks r
              ∧ connectionManager r' = connectionManager r) r.
Proof.
  intros (HS & Herr & Hcr & Hgone).
  unfold getCachedModels. apply wp_bind, wp_cache.
  eapply wp_mono; [by apply Refill.get_gone|].
  intros cm' o [-> Hgone']. cbn [truthy negb].
  apply wp_bind, wp_write, wp_ret. unfold untouched. cbn.
  split; [done|]. split; [|by split].
  repeat (split; [done|]). exact Hgone'.
Qed.

Lemma untouched_locks (T : string) (r0 r : State)
    (locks : gmap string bool) :
  untouched T r0 r → untouched T r0 (with_locks locks r).
Proof. by intros (HS & Herr & Hcr & Hgone). Qed.

(** X27. Once the catalogue holds a property name of
    [Object.prototype] other than ["__proto__"] (as [getModel] registers
    it for any name it is asked for), [getModels] throws for every
    tenant that is uncached: the [TypeError] of reading [collection.name]
    of the inherited member.  One error is counted and no
    materialization, nothing is cached and the mutex is released; the
    connection that was opened stays tracked, and the catalogue is as it
    was, so the next call fails the same way. *)
Theorem cold_getModels_throws_on_prototype_name (T name : string)
    (schema : Schema) (r : State) :
  uncached T r →
  assoc name (registeredSchemas r) = Some schema →
  inherited name = true → name ≠ "__proto__" →
  ∃ r',
    run (getModels T) r = (r', Thrown noCollection)
    ∧ errors (stats r') = errors (stats r) + 1
    ∧ modelCreations (stats r') = modelCreations (stats r)
    ∧ registeredSchemas r' = registeredSchemas r
    ∧ CacheManager.l1Cache (cacheManager r')
        !! CacheManager.generateKey T = None
    ∧ modelCreationLocks r' !! T = Some false
    ∧ is_Some (TenantConnectionManager.connections (connectionManager r')
                 !! T).
Proof.
  intros (HT & Hl1 & Hl2 & Htracked & Hlock & _ & Hreliable) Hreg
         Hinherited Hproto.
  assert (Hin : name ∈ (registeredSchemas r).*1)
    by (by eapply elem_of_names).
  set (Post := λ (r' : State) (o : Outcome (list (string * Handle))),
         o = Thrown noCollection
         ∧ errors (stats r') = errors (stats r) + 1
         ∧ modelCreations (stats r') = modelCreations (stats r)
         ∧ registeredSchemas r' = registeredSchemas r
         ∧ CacheManager.l1Cache (cacheManager r')
             !! CacheManager.generateKey T = None
         ∧ modelCreationLocks r' !! T = Some false
         ∧ is_Some (TenantConnectionManager.connections
                      (connectionManager r') !! T)).
  enough (Hwp : wp (getModels T) Post r).
  { unfold wp in Hwp. destruct (run (getModels T) r) as [r' o].
    cbn [fst snd] in Hwp. destruct Hwp as (-> & Hrest). by exists r'. }
  assert (H0 : untouched T r r).
  { repeat (split; [done|]). exact Hl2. }
  unfold getModels.
  destruct (String.eqb T "") eqn:E; [by apply String.eqb_eq in E|].
  apply wp_catch, wp_bind.
  eapply wp_mono; [by apply getCachedModels_misses|].
  intros r1 o (-> & H1 & Hlocks1 & Hconn1).
  unfold getMutex. apply wp_bind, wp_write.
  set (r2 := match modelCreationLocks r1 !! T with
             | Some _ => r1
             | None => with_locks (<[T := false]> (modelCreationLocks r1)) r1
             end).
  assert (H2 : untouched T r r2
               ∧ connectionManager r2 = connectionManager r
               ∧ modelCreationLocks r2 !! T ≠ Some true).
  { subst r2. destruct (modelCreationLocks r1 !! T) as [held|] eqn:Hheld.
    - split; [done|]. split; [done|]. rewrite Hheld.
      rewrite Hlocks1 in Hheld. congruence.
    - split; [by apply untouched_locks|]. split; [done|].
      cbn. by rewrite lookup_insert_eq. }
  destruct H2 as (H2 & Hconn2 & Hfree2). clearbody r2.
  unfold runExclusive. apply wp_Act.
  set (r3 := with_locks (<[T := true]> (modelCreationLocks r2)) r2).
  assert (H3 : untouched T r r3) by (by apply untouched_locks).
  assert (Hconn3 : connectionManager r3 = connectionManager r) by done.
  enough (Hinside :
    wp (finally
          (let* cachedModelsInMutex := getCachedModels T in
           match cachedModelsInMutex with
           | Some models => ret models
           | None =>
               let* models := createTenantModels T in
               cacheModels T models;;
               write (with_stats creation);;
               ret models
           end)
          (λ r, with_locks (<[T := false]> (modelCreationLocks r)) r))
       (λ r' o, match o with
                | Thrown e =>
                    wp (write (with_stats failure);; throw e) Post r'
                | _ => Post r' o
                end) r3).
  { by destruct (modelCreationLocks r2 !! T) as [[|]|]. }
  clearbody r3. apply wp_finally, wp_bind.
  eapply wp_mono; [by apply (getCachedModels_misses T r r3)|].
  intros r4 o (-> & H4 & _ & Hconn4).
  apply wp_bind.
  eapply wp_mono.
  { apply (createTenantModels_poisoned name Hinherited Hproto T r4).
    - by rewrite Hconn4, Hconn3.
    - by rewrite Hconn4, Hconn3.
    - destruct H4 as (-> & _). done. }
  intros r5 o ((ms & -> & Htaken) & tcm & -> & Htcm).
  apply wp_bind.
  eapply wp_mono; [by apply (cacheModels_poisoned name)|].
  intros r6 o (-> & ->).
  apply wp_bind, wp_write, wp_throw.
  destruct H4 as (HS4 & Herr4 & Hcr4 & Hgone4 & _).
  unfold Post. cbn. rewrite Herr4, Hcr4, HS4, lookup_insert_eq.
  by repeat split.
Qed.

Lemma cold_getModels_throws_on_prototype_name_witness :
  ∃ r',
    run (getModels "acme") Scenarios.poisoned
    = (r', Thrown noCollection)
    ∧ errors (stats r') = errors (stats Scenarios.poisoned) + 1
    ∧ modelCreations (stats r')
      = modelCreations (stats Scenarios.poisoned)
    ∧ registeredSchemas r' = registeredSchemas Scenarios.poisoned
    ∧ CacheManager.l1Cache (cacheManager r')
        !! CacheManager.generateKey "acme" = None
    ∧ modelCreationLocks r' !! "acme" = Some false
    ∧ is_Some (TenantConnectionManager.connections (connectionManager r')
                 !! "acme").
Proof.
  eapply (cold_getModels_throws_on_prototype_name "acme" "constructor").
  - split; [discriminate|]. split; [vm_compute; reflexivity|].
    split; [vm_compute; reflexivity|]. split; [vm_compute; reflexivity|].
    split; [intros H; vm_compute in H; discriminate H|].
    split; [apply (bool_decide_unpack _); vm_compute; reflexivity|].
    split; [|split]; vm_compute; constructor.
  - vm_compute. reflexivity.
  - vm_compute. reflexivity.
  - done.
Defined.

End PoisonedCatalogue.
